(** * frp: tunnel control plane, proxy configuration and proxy handlers

    A shallow embedding of the parts of the frp client and server that the
    specification speaks about: the server's proxy registry, the proxy
    configuration records with their comparison and construction functions,
    the client proxy handlers, the client control loop and the server's
    login path.

    Go maps are [gmap]s, Go strings are [string]s, Go [int]s that are only
    compared or copied are [Z], and a function that returns [error] returns
    a [result]. *)

From Stdlib Require Import ZArith String Ascii List Bool Lia.
From stdpp Require Import base option list strings gmap fin_maps pretty.

Open Scope string_scope.

(** ** Errors

    [fmt.Errorf] builds an error from its text; a Go function returning
    [(v, err)] is a [result]. *)

Inductive result (A : Type) : Type :=
| Ok (a : A)
| Err (e : string).
Arguments Ok {A} a.
Arguments Err {A} e.

Definition is_Ok {A} (r : result A) : bool :=
  match r with Ok _ => true | Err _ => false end.

Definition bind {A B} (r : result A) (k : A -> result B) : result B :=
  match r with
  | Ok a => k a
  | Err e => Err e
  end.

Notation "'do' x <- r ; k" := (bind r (fun x => k))
  (at level 10, x name, r at level 100, k at level 200).

(** ** server/proxy: the proxy registry *)

Module ServerProxy.

Section Manager.

(** The registry is parametric in what a server-side [Proxy] is. *)
Variable Proxy : Type.

(** [ProxyManager]: proxies indexed by proxy name. *)
Record ProxyManager := { pxys : gmap string Proxy }.

Definition NewProxyManager : ProxyManager := {| pxys := ∅ |}.

(** [Add] returns the manager after the call and the error, [None] for Go's
    [nil]. *)
Definition Add (name : string) (pxy : Proxy) (pm : ProxyManager)
  : ProxyManager * option string :=
  match pxys pm !! name with
  | Some _ => (pm, Some ("proxy name [" ++ name ++ "] is already in use"))
  | None => ({| pxys := <[name := pxy]> (pxys pm) |}, None)
  end.

Definition Del (name : string) (pm : ProxyManager) : ProxyManager :=
  {| pxys := delete name (pxys pm) |}.

Definition GetByName (name : string) (pm : ProxyManager) : option Proxy :=
  pxys pm !! name.

(** C5: adding a proxy under a name that is already in the proxy map fails
    with an error and leaves the map as it was; adding under a fresh name
    succeeds and inserts exactly that one entry: the name now maps to the
    new proxy, every other name maps to what it did, and the map has one
    entry more. *)
Theorem Add_collision_or_insert (name : string) (pxy : Proxy) (pm : ProxyManager) :
  (is_Some (pxys pm !! name) ->
     exists e, Add name pxy pm = (pm, Some e)) /\
  (pxys pm !! name = None ->
     exists pm', Add name pxy pm = (pm', None) /\
       pxys pm' !! name = Some pxy /\
       (forall other, other <> name -> pxys pm' !! other = pxys pm !! other) /\
       size (pxys pm') = S (size (pxys pm))).
Proof.
  unfold Add. split.
  - intros [old Hold]. rewrite Hold. eauto.
  - intros Hfree. rewrite Hfree. eexists. split; [reflexivity|]. simpl.
    split; [apply lookup_insert_eq|]. split.
    + intros other Hne. apply lookup_insert_ne. congruence.
    + by apply map_size_insert_None.
Qed.

(** [Add], [GetByName] and [Del] together: a proxy added under a fresh
    name is found under it, deleting it again gives the registry back, and
    after [Del] the name is free, whatever was registered under it, so that
    the next [Add] under it succeeds; [Del] touches no other name. *)
Theorem Add_Get_Del (name : string) (pxy : Proxy) (pm : ProxyManager) :
  (GetByName name pm = None ->
   GetByName name (Add name pxy pm).1 = Some pxy /\
   Del name (Add name pxy pm).1 = pm) /\
  GetByName name (Del name pm) = None /\
  (forall other, other <> name -> GetByName other (Del name pm) = GetByName other pm) /\
  (Add name pxy (Del name pm)).2 = None /\
  GetByName name (Add name pxy (Del name pm)).1 = Some pxy.
Proof.
  unfold GetByName, Del, Add. simpl. rewrite lookup_delete_eq. simpl.
  rewrite lookup_insert_eq. split; [|split; [done|split; [|done]]].
  - intros Hfree. rewrite Hfree. simpl. split; [apply lookup_insert_eq|].
    destruct pm as [m]. simpl in *. f_equal. by apply delete_insert_id.
  - intros other Hne. apply lookup_delete_ne. congruence.
Qed.

End Manager.

(** A registry that holds a proxy under [ssh]: adding under [ssh] fails and
    adding under [web] inserts. *)
Definition sampleManager : ProxyManager string :=
  {| pxys := <["ssh" := "tcp proxy"]> ∅ |}.

Lemma Add_collision_or_insert_witness :
  (exists e, Add string "ssh" "udp proxy" sampleManager = (sampleManager, Some e)) /\
  (exists pm', Add string "web" "http proxy" sampleManager = (pm', None) /\
               pxys string pm' !! "web" = Some "http proxy" /\
               pxys string pm' !! "ssh" = Some "tcp proxy" /\
               size (pxys string pm') = 2).
Proof.
  split.
  - destruct (Add_collision_or_insert string "ssh" "udp proxy" sampleManager) as [Hfail _].
    apply Hfail. exists "tcp proxy". by vm_compute.
  - destruct (Add_collision_or_insert string "web" "http proxy" sampleManager) as [_ Hadd].
    destruct Hadd as (pm' & Hrun & Hweb & Hother & Hsize); [by vm_compute|].
    exists pm'. split; [exact Hrun|]. split; [exact Hweb|]. split.
    + rewrite Hother by discriminate. by vm_compute.
    + rewrite Hsize. by vm_compute.
Defined.

(** At [sampleManager]: [web] is added and deleted again, and [ssh] is
    free after its deletion. *)
Lemma Add_Get_Del_witness :
  Del string "web" (Add string "web" "http proxy" sampleManager).1 = sampleManager /\
  GetByName string "ssh" (Del string "ssh" sampleManager) = None /\
  (Add string "ssh" "udp proxy" (Del string "ssh" sampleManager)).2 = None.
Proof.
  split; [|split].
  - apply (Add_Get_Del string "web" "http proxy" sampleManager). by vm_compute.
  - apply (Add_Get_Del string "ssh" "udp proxy" sampleManager).
  - apply (Add_Get_Del string "ssh" "udp proxy" sampleManager).
Defined.

End ServerProxy.

(** ** models/msg: the messages the embedded code reads *)

Module Msg.

(** Modelled from the spec: the message types of [models/msg] are not among
    the embedded files. The spec names the messages; [NewProxy] carries the
    fields of a proxy configuration that the embedded code copies to and
    from it. *)
Record NewProxy := {
  ProxyName : string;
  ProxyType : string;
  UseEncryption : bool;
  UseCompression : bool;
  Group : string;
  GroupKey : string;
  RemotePort : Z;
  CustomDomains : list string;
  SubDomain : string;
  Locations : list string;
  HttpUser : string;
  HttpPwd : string;
  HostHeaderRewrite : string;
  Headers : gmap string string;
  Sk : string
}.

(** Modelled from the spec: [StartWorkConn] is not among the embedded files;
    the spec gives it as
    [StartWorkConn{proxy_name, src_addr, src_port, dst_addr, dst_port, error?}],
    and the ports are 16-bit numbers. *)
Record StartWorkConn := {
  swc_ProxyName : string;
  SrcAddr : string;
  DstAddr : string;
  SrcPort : Z;
  DstPort : Z
}.

(** Modelled from the spec: [Login] is not among the embedded files; these
    are the fields that the login path of the server reads: the version,
    the user, the key with its timestamp, and the run id. *)
Record Login := {
  Version : string;
  User : string;
  PrivilegeKey : string;
  Timestamp : Z;
  RunId : string
}.

End Msg.

(** ** strings: the functions of Go's [strings] package that the code uses *)

Module Strings.

(** [strings.Join(elems, sep)] *)
Fixpoint Join (elems : list string) (sep : string) : string :=
  match elems with
  | [] => ""
  | [e] => e
  | e :: rest => e ++ sep ++ Join rest sep
  end.

(** [strings.HasPrefix(s, prefix)] *)
Definition HasPrefix (s prefix : string) : bool := String.prefix prefix s.

(** [strings.TrimPrefix(s, prefix)] *)
Definition TrimPrefix (s prefix : string) : string :=
  if HasPrefix s prefix
  then String.substring (String.length prefix)
         (String.length s - String.length prefix) s
  else s.

(** [strings.Contains(s, substr)] *)
Fixpoint Contains (s substr : string) : bool :=
  String.prefix substr s ||
  match s with
  | EmptyString => false
  | String _ rest => Contains rest substr
  end.

(** [strings.Split(s, sep)] for a separator of one byte, which is how the
    code calls it (["," ] and ["."]). *)
Fixpoint Split (s : string) (sep : ascii) : list string :=
  match s with
  | EmptyString => [""]
  | String c rest =>
      if Ascii.eqb c sep then "" :: Split rest sep
      else match Split rest sep with
           | [] => [String c ""]
           | w :: ws => String c w :: ws
           end
  end.

(** The value of a decimal digit, [None] for any other byte. *)
Definition digit_value (c : ascii) : option Z :=
  let n := Z.of_nat (nat_of_ascii c) in
  if (48 <=? n)%Z && (n <=? 57)%Z then Some (n - 48)%Z else None.

End Strings.

(** ** models/config: proxy configuration *)

Module Config.

Import Strings.

(** An [ini.Section]: reading an absent key gives the empty string. *)
Abbreviation Section_ := (gmap string string).

Definition get (section : Section_) (key : string) : string :=
  default "" (section !! key).

(** Local service info *)
Record LocalSvrConf := {
  LocalIp : string;
  LocalPort : Z;
  Plugin : string;
  PluginParams : gmap string string
}.

(** Health check info *)
Record HealthCheckConf := {
  HealthCheckType : string;
  HealthCheckTimeoutS : Z;
  HealthCheckMaxFailed : Z;
  HealthCheckIntervalS : Z;
  HealthCheckUrl : string;
  HealthCheckAddr : string
}.

(** BaseProxy info; the two embedded structs are the last two fields. *)
Record BaseProxyConf := {
  ProxyName : string;
  ProxyType : string;
  UseEncryption : bool;
  UseCompression : bool;
  Group : string;
  GroupKey : string;
  ProxyProtocolVersion : string;
  base_LocalSvrConf : LocalSvrConf;
  base_HealthCheckConf : HealthCheckConf
}.

(** Bind info *)
Record BindInfoConf := { RemotePort : Z }.

(** Domain info *)
Record DomainConf := {
  CustomDomains : list string;
  SubDomain : string
}.

Record TcpProxyConf := {
  tcp_BaseProxyConf : BaseProxyConf;
  tcp_BindInfoConf : BindInfoConf
}.

Record UdpProxyConf := {
  udp_BaseProxyConf : BaseProxyConf;
  udp_BindInfoConf : BindInfoConf
}.

Record HttpProxyConf := {
  http_BaseProxyConf : BaseProxyConf;
  http_DomainConf : DomainConf;
  Locations : list string;
  HttpUser : string;
  HttpPwd : string;
  HostHeaderRewrite : string;
  Headers : gmap string string
}.

Record HttpsProxyConf := {
  https_BaseProxyConf : BaseProxyConf;
  https_DomainConf : DomainConf
}.

Record StcpProxyConf := {
  stcp_BaseProxyConf : BaseProxyConf;
  stcp_Role : string;
  stcp_Sk : string
}.

Record XtcpProxyConf := {
  xtcp_BaseProxyConf : BaseProxyConf;
  xtcp_Role : string;
  xtcp_Sk : string
}.

(** The [ProxyConf] interface with its six implementations. *)
Inductive ProxyConf :=
| Tcp (c : TcpProxyConf)
| Udp (c : UdpProxyConf)
| Http (c : HttpProxyConf)
| Https (c : HttpsProxyConf)
| Stcp (c : StcpProxyConf)
| Xtcp (c : XtcpProxyConf).

Definition GetBaseInfo (cfg : ProxyConf) : BaseProxyConf :=
  match cfg with
  | Tcp c => tcp_BaseProxyConf c
  | Udp c => udp_BaseProxyConf c
  | Http c => http_BaseProxyConf c
  | Https c => https_BaseProxyConf c
  | Stcp c => stcp_BaseProxyConf c
  | Xtcp c => xtcp_BaseProxyConf c
  end.

(** The loop both map comparisons run after the lengths were found equal:
    every entry of [m] is in [m'] with the same value. *)
Definition map_entries_in (m m' : gmap string string) : bool :=
  forallb (fun kv => match m' !! kv.1 with
                     | Some v' => String.eqb kv.2 v'
                     | None => false
                     end) (map_to_list m).

Definition LocalSvrConf_compare (cfg cmp : LocalSvrConf) : bool :=
  if negb (String.eqb (LocalIp cfg) (LocalIp cmp)) ||
     negb (Z.eqb (LocalPort cfg) (LocalPort cmp)) then false
  else if negb (String.eqb (Plugin cfg) (Plugin cmp)) ||
          negb (Nat.eqb (size (PluginParams cfg)) (size (PluginParams cmp))) then false
  else map_entries_in (PluginParams cfg) (PluginParams cmp).

Definition HealthCheckConf_compare (cfg cmp : HealthCheckConf) : bool :=
  if negb (String.eqb (HealthCheckType cfg) (HealthCheckType cmp)) ||
     negb (Z.eqb (HealthCheckTimeoutS cfg) (HealthCheckTimeoutS cmp)) ||
     negb (Z.eqb (HealthCheckMaxFailed cfg) (HealthCheckMaxFailed cmp)) ||
     negb (Z.eqb (HealthCheckIntervalS cfg) (HealthCheckIntervalS cmp)) ||
     negb (String.eqb (HealthCheckUrl cfg) (HealthCheckUrl cmp)) then false
  else true.

Definition BaseProxyConf_compare (cfg cmp : BaseProxyConf) : bool :=
  if negb (String.eqb (ProxyName cfg) (ProxyName cmp)) ||
     negb (String.eqb (ProxyType cfg) (ProxyType cmp)) ||
     negb (Bool.eqb (UseEncryption cfg) (UseEncryption cmp)) ||
     negb (Bool.eqb (UseCompression cfg) (UseCompression cmp)) ||
     negb (String.eqb (Group cfg) (Group cmp)) ||
     negb (String.eqb (GroupKey cfg) (GroupKey cmp)) ||
     negb (String.eqb (ProxyProtocolVersion cfg) (ProxyProtocolVersion cmp)) then false
  else if negb (LocalSvrConf_compare (base_LocalSvrConf cfg) (base_LocalSvrConf cmp)) then false
  else if negb (HealthCheckConf_compare (base_HealthCheckConf cfg) (base_HealthCheckConf cmp)) then false
  else true.

Definition BindInfoConf_compare (cfg cmp : BindInfoConf) : bool :=
  if negb (Z.eqb (RemotePort cfg) (RemotePort cmp)) then false else true.

Definition DomainConf_compare (cfg cmp : DomainConf) : bool :=
  if negb (String.eqb (Join (CustomDomains cfg) " ") (Join (CustomDomains cmp) " ")) ||
     negb (String.eqb (SubDomain cfg) (SubDomain cmp)) then false
  else true.

Definition TcpProxyConf_Compare (cfg : TcpProxyConf) (cmp : ProxyConf) : bool :=
  match cmp with
  | Tcp cmpConf =>
      if negb (BaseProxyConf_compare (tcp_BaseProxyConf cfg) (tcp_BaseProxyConf cmpConf)) ||
         negb (BindInfoConf_compare (tcp_BindInfoConf cfg) (tcp_BindInfoConf cmpConf))
      then false else true
  | _ => false
  end.

Definition UdpProxyConf_Compare (cfg : UdpProxyConf) (cmp : ProxyConf) : bool :=
  match cmp with
  | Udp cmpConf =>
      if negb (BaseProxyConf_compare (udp_BaseProxyConf cfg) (udp_BaseProxyConf cmpConf)) ||
         negb (BindInfoConf_compare (udp_BindInfoConf cfg) (udp_BindInfoConf cmpConf))
      then false else true
  | _ => false
  end.

Definition HttpProxyConf_Compare (cfg : HttpProxyConf) (cmp : ProxyConf) : bool :=
  match cmp with
  | Http cmpConf =>
      if negb (BaseProxyConf_compare (http_BaseProxyConf cfg) (http_BaseProxyConf cmpConf)) ||
         negb (DomainConf_compare (http_DomainConf cfg) (http_DomainConf cmpConf)) ||
         negb (String.eqb (Join (Locations cfg) " ") (Join (Locations cmpConf) " ")) ||
         negb (String.eqb (HostHeaderRewrite cfg) (HostHeaderRewrite cmpConf)) ||
         negb (String.eqb (HttpUser cfg) (HttpUser cmpConf)) ||
         negb (String.eqb (HttpPwd cfg) (HttpPwd cmpConf)) ||
         negb (Nat.eqb (size (Headers cfg)) (size (Headers cmpConf)))
      then false
      else map_entries_in (Headers cfg) (Headers cmpConf)
  | _ => false
  end.

Definition HttpsProxyConf_Compare (cfg : HttpsProxyConf) (cmp : ProxyConf) : bool :=
  match cmp with
  | Https cmpConf =>
      if negb (BaseProxyConf_compare (https_BaseProxyConf cfg) (https_BaseProxyConf cmpConf)) ||
         negb (DomainConf_compare (https_DomainConf cfg) (https_DomainConf cmpConf))
      then false else true
  | _ => false
  end.

Definition StcpProxyConf_Compare (cfg : StcpProxyConf) (cmp : ProxyConf) : bool :=
  match cmp with
  | Stcp cmpConf =>
      if negb (BaseProxyConf_compare (stcp_BaseProxyConf cfg) (stcp_BaseProxyConf cmpConf)) ||
         negb (String.eqb (stcp_Role cfg) (stcp_Role cmpConf)) ||
         negb (String.eqb (stcp_Sk cfg) (stcp_Sk cmpConf))
      then false else true
  | _ => false
  end.

Definition XtcpProxyConf_Compare (cfg : XtcpProxyConf) (cmp : ProxyConf) : bool :=
  match cmp with
  | Xtcp cmpConf =>
      if negb (BaseProxyConf_compare (xtcp_BaseProxyConf cfg) (xtcp_BaseProxyConf cmpConf)) ||
         negb (LocalSvrConf_compare (base_LocalSvrConf (xtcp_BaseProxyConf cfg))
                                    (base_LocalSvrConf (xtcp_BaseProxyConf cmpConf))) ||
         negb (String.eqb (xtcp_Role cfg) (xtcp_Role cmpConf)) ||
         negb (String.eqb (xtcp_Sk cfg) (xtcp_Sk cmpConf))
      then false else true
  | _ => false
  end.

(** [cfg.Compare(cmp)] through the interface. *)
Definition Compare (cfg cmp : ProxyConf) : bool :=
  match cfg with
  | Tcp c => TcpProxyConf_Compare c cmp
  | Udp c => UdpProxyConf_Compare c cmp
  | Http c => HttpProxyConf_Compare c cmp
  | Https c => HttpsProxyConf_Compare c cmp
  | Stcp c => StcpProxyConf_Compare c cmp
  | Xtcp c => XtcpProxyConf_Compare c cmp
  end.

(** *** What [Compare] looks at

    [compared cfg] is [cfg] with the health-check address blanked, which no
    comparison reads, and with [CustomDomains] and [Locations] each replaced
    by the one-element list of its space-joined text, which is all the
    comparison reads of them. *)

Definition HealthCheckConf_compared (c : HealthCheckConf) : HealthCheckConf :=
  {| HealthCheckType := HealthCheckType c;
     HealthCheckTimeoutS := HealthCheckTimeoutS c;
     HealthCheckMaxFailed := HealthCheckMaxFailed c;
     HealthCheckIntervalS := HealthCheckIntervalS c;
     HealthCheckUrl := HealthCheckUrl c;
     HealthCheckAddr := "" |}.

Definition BaseProxyConf_compared (c : BaseProxyConf) : BaseProxyConf :=
  {| ProxyName := ProxyName c;
     ProxyType := ProxyType c;
     UseEncryption := UseEncryption c;
     UseCompression := UseCompression c;
     Group := Group c;
     GroupKey := GroupKey c;
     ProxyProtocolVersion := ProxyProtocolVersion c;
     base_LocalSvrConf := base_LocalSvrConf c;
     base_HealthCheckConf := HealthCheckConf_compared (base_HealthCheckConf c) |}.

Definition DomainConf_compared (c : DomainConf) : DomainConf :=
  {| CustomDomains := [Join (CustomDomains c) " "];
     SubDomain := SubDomain c |}.

Definition compared (cfg : ProxyConf) : ProxyConf :=
  match cfg with
  | Tcp c => Tcp {| tcp_BaseProxyConf := BaseProxyConf_compared (tcp_BaseProxyConf c);
                    tcp_BindInfoConf := tcp_BindInfoConf c |}
  | Udp c => Udp {| udp_BaseProxyConf := BaseProxyConf_compared (udp_BaseProxyConf c);
                    udp_BindInfoConf := udp_BindInfoConf c |}
  | Http c => Http {| http_BaseProxyConf := BaseProxyConf_compared (http_BaseProxyConf c);
                      http_DomainConf := DomainConf_compared (http_DomainConf c);
                      Locations := [Join (Locations c) " "];
                      HttpUser := HttpUser c;
                      HttpPwd := HttpPwd c;
                      HostHeaderRewrite := HostHeaderRewrite c;
                      Headers := Headers c |}
  | Https c => Https {| https_BaseProxyConf := BaseProxyConf_compared (https_BaseProxyConf c);
                        https_DomainConf := DomainConf_compared (https_DomainConf c) |}
  | Stcp c => Stcp {| stcp_BaseProxyConf := BaseProxyConf_compared (stcp_BaseProxyConf c);
                      stcp_Role := stcp_Role c;
                      stcp_Sk := stcp_Sk c |}
  | Xtcp c => Xtcp {| xtcp_BaseProxyConf := BaseProxyConf_compared (xtcp_BaseProxyConf c);
                      xtcp_Role := xtcp_Role c;
                      xtcp_Sk := xtcp_Sk c |}
  end.

(** Two HTTP proxies as the client reads them from
    [custom_domains = a.com b.com] and [custom_domains = a.com,b.com], and
    from [locations = /a /b] and [locations = /a,/b]. *)
Definition sampleBase : BaseProxyConf :=
  {| ProxyName := "web"; ProxyType := "http";
     UseEncryption := false; UseCompression := false;
     Group := ""; GroupKey := ""; ProxyProtocolVersion := "";
     base_LocalSvrConf :=
       {| LocalIp := "127.0.0.1"; LocalPort := 80; Plugin := ""; PluginParams := ∅ |};
     base_HealthCheckConf :=
       {| HealthCheckType := ""; HealthCheckTimeoutS := 0; HealthCheckMaxFailed := 0;
          HealthCheckIntervalS := 0; HealthCheckUrl := ""; HealthCheckAddr := "" |} |}.

Definition sampleHttp (domains locations : list string) : ProxyConf :=
  Http {| http_BaseProxyConf := sampleBase;
          http_DomainConf := {| CustomDomains := domains; SubDomain := "" |};
          Locations := locations;
          HttpUser := ""; HttpPwd := ""; HostHeaderRewrite := "";
          Headers := ∅ |}.

(** *** Facts about the comparisons *)

Arguments HealthCheckConf_compared : simpl never.
Arguments BaseProxyConf_compared : simpl never.
Arguments DomainConf_compared : simpl never.

Lemma if_false_else (b x : bool) :
  (if b then false else x) = true <-> b = false /\ x = true.
Proof. destruct b, x; intuition congruence. Qed.

Lemma map_entries_in_subseteq (m m' : gmap string string) :
  map_entries_in m m' = true <-> m ⊆ m'.
Proof.
  unfold map_entries_in. rewrite forallb_forall, map_subseteq_spec. split.
  - intros Hall k v Hkv.
    specialize (Hall (k, v)). simpl in Hall.
    destruct (m' !! k) as [v'|] eqn:Hk.
    + f_equal. symmetry. apply String.eqb_eq, Hall.
      apply list_elem_of_In, elem_of_map_to_list, Hkv.
    + discriminate Hall. apply list_elem_of_In, elem_of_map_to_list, Hkv.
  - intros Hsub [k v] Hin. simpl.
    apply list_elem_of_In, elem_of_map_to_list in Hin.
    rewrite (Hsub k v Hin). apply String.eqb_refl.
Qed.

(** Equal lengths and the loop together are equality of the two maps. *)
Lemma map_compare_eq (m m' : gmap string string) :
  Nat.eqb (size m) (size m') = true /\ map_entries_in m m' = true <-> m = m'.
Proof.
  rewrite Nat.eqb_eq, map_entries_in_subseteq. split.
  - intros [Hsize Hsub]. apply map_subseteq_size_eq; [done | lia].
  - intros ->. done.
Qed.

Ltac compare_unfold :=
  rewrite ?if_false_else, ?orb_false_iff, ?negb_false_iff,
    ?String.eqb_eq, ?Z.eqb_eq, ?Bool.eqb_true_iff.

Lemma LocalSvrConf_compare_eq (c d : LocalSvrConf) :
  LocalSvrConf_compare c d = true <-> c = d.
Proof.
  unfold LocalSvrConf_compare. compare_unfold.
  destruct c, d; simpl. split.
  - intros [[? ?] [[? Hsize] Hin]].
    pose proof (proj1 (map_compare_eq _ _) (conj Hsize Hin)). congruence.
  - intros [= -> -> -> ->].
    pose proof (proj2 (map_compare_eq _ _) (eq_refl PluginParams1)) as [? ?]. done.
Qed.

Lemma HealthCheckConf_compare_eq (c d : HealthCheckConf) :
  HealthCheckConf_compare c d = true <->
  HealthCheckConf_compared c = HealthCheckConf_compared d.
Proof.
  unfold HealthCheckConf_compare, HealthCheckConf_compared. compare_unfold.
  destruct c, d; simpl. split.
  - intros [[[[[? ?] ?] ?] ?] _]. congruence.
  - intros [= -> -> -> -> ->]. done.
Qed.

Lemma BaseProxyConf_compare_eq (c d : BaseProxyConf) :
  BaseProxyConf_compare c d = true <->
  BaseProxyConf_compared c = BaseProxyConf_compared d.
Proof.
  unfold BaseProxyConf_compare, BaseProxyConf_compared. compare_unfold.
  rewrite LocalSvrConf_compare_eq, HealthCheckConf_compare_eq.
  destruct c, d; simpl. split.
  - intros [[[[[[[? ?] ?] ?] ?] ?] ?] [? [? _]]]. congruence.
  - intros H. injection H. intros. repeat split; congruence.
Qed.

Lemma BindInfoConf_compare_eq (c d : BindInfoConf) :
  BindInfoConf_compare c d = true <-> c = d.
Proof.
  unfold BindInfoConf_compare. compare_unfold.
  destruct c, d; simpl. split.
  - intros [? _]. congruence.
  - intros [= ->]. done.
Qed.

Lemma DomainConf_compare_eq (c d : DomainConf) :
  DomainConf_compare c d = true <-> DomainConf_compared c = DomainConf_compared d.
Proof.
  unfold DomainConf_compare, DomainConf_compared. compare_unfold.
  destruct c, d; simpl. split.
  - intros [[? ?] _]. congruence.
  - intros [= -> ->]. done.
Qed.

Lemma Compare_refl (cfg : ProxyConf) : Compare cfg cfg = true.
Proof.
  assert (Hl : forall c, LocalSvrConf_compare c c = true)
    by (intros; by apply LocalSvrConf_compare_eq).
  assert (Hb : forall c, BaseProxyConf_compare c c = true)
    by (intros; by apply BaseProxyConf_compare_eq).
  assert (Hp : forall c, BindInfoConf_compare c c = true)
    by (intros; by apply BindInfoConf_compare_eq).
  assert (Hd : forall c, DomainConf_compare c c = true)
    by (intros; by apply DomainConf_compare_eq).
  destruct cfg as [c|c|c|c|c|c]; simpl;
    unfold TcpProxyConf_Compare, UdpProxyConf_Compare, HttpProxyConf_Compare,
      HttpsProxyConf_Compare, StcpProxyConf_Compare, XtcpProxyConf_Compare;
    rewrite ?Hl, ?Hb, ?Hp, ?Hd, ?String.eqb_refl, ?Nat.eqb_refl; simpl; try done.
  by apply map_entries_in_subseteq.
Qed.

Lemma Compare_true_compared (cfg cmp : ProxyConf) :
  Compare cfg cmp = true <-> compared cfg = compared cmp.
Proof.
  destruct cfg as [c|c|c|c|c|c], cmp as [d|d|d|d|d|d]; simpl;
    try (split; discriminate).
  - unfold TcpProxyConf_Compare. compare_unfold.
    rewrite BaseProxyConf_compare_eq, BindInfoConf_compare_eq.
    destruct c, d; simpl. split.
    + intros [[? ?] _]. congruence.
    + intros H. injection H. intros. repeat split; congruence.
  - unfold UdpProxyConf_Compare. compare_unfold.
    rewrite BaseProxyConf_compare_eq, BindInfoConf_compare_eq.
    destruct c, d; simpl. split.
    + intros [[? ?] _]. congruence.
    + intros H. injection H. intros. repeat split; congruence.
  - unfold HttpProxyConf_Compare. compare_unfold.
    rewrite BaseProxyConf_compare_eq, DomainConf_compare_eq.
    destruct c, d; simpl. split.
    + intros [[[[[[[? ?] ?] ?] ?] ?] Hsize] Hin].
      pose proof (proj1 (map_compare_eq _ _) (conj Hsize Hin)). congruence.
    + intros H. injection H. intros. subst.
      pose proof (proj2 (map_compare_eq _ _) (eq_refl Headers1)) as [? ?].
      repeat split; congruence.
  - unfold HttpsProxyConf_Compare. compare_unfold.
    rewrite BaseProxyConf_compare_eq, DomainConf_compare_eq.
    destruct c, d; simpl. split.
    + intros [[? ?] _]. congruence.
    + intros H. injection H. intros. repeat split; congruence.
  - unfold StcpProxyConf_Compare. compare_unfold.
    rewrite BaseProxyConf_compare_eq.
    destruct c, d; simpl. split.
    + intros [[[? ?] ?] _]. congruence.
    + intros H. injection H. intros. repeat split; congruence.
  - unfold XtcpProxyConf_Compare. compare_unfold.
    rewrite BaseProxyConf_compare_eq, LocalSvrConf_compare_eq.
    destruct c, d; simpl. split.
    + intros [[[[? ?] ?] ?] _]. congruence.
    + intros H. injection H. intros Hsk Hrole Hbase.
      unfold BaseProxyConf_compared in Hbase. repeat split; congruence.
Qed.

(** What [Compare] decides: it holds of a configuration and itself, and it
    returns true if and only if the two have the same type and equal
    attributes once the health-check address is disregarded and
    [custom_domains] and [locations] are each read as their space-joined
    text. *)
Theorem Compare_iff_compared (cfg cmp : ProxyConf) :
  Compare cfg cfg = true /\
  (Compare cfg cmp = true <-> compared cfg = compared cmp).
Proof.
  split; [apply Compare_refl | apply Compare_true_compared].
Qed.

(** The two sample HTTP proxies differ in their [custom_domains] and in
    their [locations] lists and still compare equal. *)
Lemma Compare_true_on_distinct_lists :
  Compare (sampleHttp ["a.com b.com"] ["/a /b"])
          (sampleHttp ["a.com"; "b.com"] ["/a"; "/b"]) = true /\
  sampleHttp ["a.com b.com"] ["/a /b"] <> sampleHttp ["a.com"; "b.com"] ["/a"; "/b"] /\
  ["a.com b.com"] <> ["a.com"; "b.com"] /\
  ["/a /b"] <> ["/a"; "/b"].
Proof.
  split; [by vm_compute|]. split; [|split]; discriminate.
Qed.

(** The characterisation at the two sample proxies: their compared
    attributes are equal, so they compare equal. *)
Lemma Compare_iff_compared_witness :
  Compare (sampleHttp ["a.com b.com"] ["/a /b"])
          (sampleHttp ["a.com"; "b.com"] ["/a"; "/b"]) = true /\
  compared (sampleHttp ["a.com b.com"] ["/a /b"]) =
  compared (sampleHttp ["a.com"; "b.com"] ["/a"; "/b"]).
Proof.
  destruct (Compare_iff_compared (sampleHttp ["a.com b.com"] ["/a /b"])
              (sampleHttp ["a.com"; "b.com"] ["/a"; "/b"])) as [_ [Hto Hfrom]].
  split; [apply Hfrom; reflexivity | apply Hto; by vm_compute].
Defined.

(** *** When the joined text determines the list

    A list of entries without a space, other than the empty list, is read
    back from its space-joined text, so on such lists comparing the joined
    texts is comparing the lists. *)

Fixpoint space_free (s : string) : bool :=
  match s with
  | EmptyString => true
  | String c rest => negb (Ascii.eqb c " ") && space_free rest
  end.

Lemma Split_space_free (e : string) :
  space_free e = true -> Split e " " = [e].
Proof.
  induction e as [|c e IH]; simpl; [done|].
  intros [Hc He]%andb_true_iff. apply negb_true_iff in Hc.
  rewrite Hc, (IH He). done.
Qed.

Lemma Split_app_space (e r : string) :
  space_free e = true -> Split (e ++ " " ++ r) " " = e :: Split r " ".
Proof.
  induction e as [|c e IH]; simpl; [done|].
  intros [Hc He]%andb_true_iff. apply negb_true_iff in Hc.
  rewrite Hc, (IH He). done.
Qed.

Lemma Split_Join (l : list string) :
  l <> [] -> forallb space_free l = true -> Split (Join l " ") " " = l.
Proof.
  induction l as [|e l IH]; [done|]. intros _ [He Hl]%andb_true_iff.
  destruct l as [|e' l].
  - simpl. by apply Split_space_free.
  - change (Join (e :: e' :: l) " ") with (e ++ " " ++ Join (e' :: l) " ").
    rewrite Split_app_space by done. f_equal. by apply IH.
Qed.

Lemma Join_space_inj (l l' : list string) :
  l <> [] -> l' <> [] ->
  forallb space_free l = true -> forallb space_free l' = true ->
  Join l " " = Join l' " " -> l = l'.
Proof.
  intros Hl Hl' Hs Hs' Hjoin.
  rewrite <- (Split_Join l), <- (Split_Join l') by done. by rewrite Hjoin.
Qed.

(** The empty list and the list of one empty entry are both joined to the
    empty text; apart from that pair, lists of space-free entries with equal
    joined texts are equal. *)
Lemma Join_space_inj_nil (l l' : list string) :
  l <> [""] -> l' <> [""] ->
  forallb space_free l = true -> forallb space_free l' = true ->
  Join l " " = Join l' " " -> l = l'.
Proof.
  assert (Hnil : forall k, k <> [""] -> forallb space_free k = true ->
                           Join k " " = "" -> k = []).
  { intros k Hk Hs Hj. destruct k as [|e k]; [done|].
    pose proof (Split_Join (e :: k)) as Hsplit.
    rewrite Hj in Hsplit. simpl in Hsplit. by rewrite <- Hsplit in Hk. }
  intros Hl Hl' Hs Hs' Hjoin.
  destruct l as [|e l].
  - symmetry. by apply Hnil.
  - destruct l' as [|e' l'].
    + by apply Hnil.
    + by apply Join_space_inj.
Qed.

(** On HTTP proxies whose [custom_domains] and [locations] have space-free
    entries and are not the list of one empty entry, and whose health-check
    addresses agree, [Compare] is equality of all attributes. *)
Lemma HttpProxyConf_Compare_eq (c d : HttpProxyConf) :
  let lists_ok (x : HttpProxyConf) :=
    CustomDomains (http_DomainConf x) <> [""] /\ Locations x <> [""] /\
    forallb space_free (CustomDomains (http_DomainConf x)) = true /\
    forallb space_free (Locations x) = true in
  lists_ok c -> lists_ok d ->
  HealthCheckAddr (base_HealthCheckConf (http_BaseProxyConf c)) =
  HealthCheckAddr (base_HealthCheckConf (http_BaseProxyConf d)) ->
  (Compare (Http c) (Http d) = true <-> c = d).
Proof.
  intros lists_ok (Hc1 & Hc2 & Hc3 & Hc4) (Hd1 & Hd2 & Hd3 & Hd4) Haddr.
  split; [|intros ->; apply Compare_refl].
  intros H%Compare_true_compared. simpl in H.
  destruct c as [[? ? ? ? ? ? ? ? []] [] ? ? ? ? ?],
           d as [[? ? ? ? ? ? ? ? []] [] ? ? ? ? ?].
  unfold BaseProxyConf_compared, HealthCheckConf_compared, DomainConf_compared in H.
  simpl in *. injection H. intros. subst.
  f_equal; [f_equal|]; by apply Join_space_inj_nil.
Qed.

(** The web proxy of [sampleHttp] as an [HttpProxyConf]. *)
Definition sampleHttpConf (domains locations : list string) : HttpProxyConf :=
  {| http_BaseProxyConf := sampleBase;
     http_DomainConf := {| CustomDomains := domains; SubDomain := "" |};
     Locations := locations;
     HttpUser := ""; HttpPwd := ""; HostHeaderRewrite := "";
     Headers := ∅ |}.

(** Dropping the second custom domain of a web proxy is seen by [Compare]. *)
Lemma HttpProxyConf_Compare_eq_witness :
  Compare (Http (sampleHttpConf ["a.com"; "b.com"] ["/a"]))
          (Http (sampleHttpConf ["a.com"] ["/a"])) = false /\
  (Compare (Http (sampleHttpConf ["a.com"; "b.com"] ["/a"]))
           (Http (sampleHttpConf ["a.com"] ["/a"])) = true <->
   sampleHttpConf ["a.com"; "b.com"] ["/a"] = sampleHttpConf ["a.com"] ["/a"]).
Proof.
  split; [by vm_compute|].
  apply (HttpProxyConf_Compare_eq (sampleHttpConf ["a.com"; "b.com"] ["/a"])
           (sampleHttpConf ["a.com"] ["/a"])).
  - simpl. repeat split; discriminate.
  - simpl. repeat split; discriminate.
  - reflexivity.
Defined.


(** *** Construction from an INI section and from a [NewProxy] message *)

(** Modelled from the spec: the proxy type names of [models/consts], which
    is not among the embedded files; the spec lists the types as
    [tcp, udp, http, https, stcp, xtcp]. *)
Module consts.
Definition TcpProxy : string := "tcp".
Definition UdpProxy : string := "udp".
Definition HttpProxy : string := "http".
Definition HttpsProxy : string := "https".
Definition StcpProxy : string := "stcp".
Definition XtcpProxy : string := "xtcp".
End consts.

(** [fmt.Sprintf("%d", n)] *)
Definition fmt_d (n : Z) : string := pretty n.

(** A function that returns only an [error]. *)
Definition fail_if (b : bool) (e : string) : result unit :=
  if b then Err e else Ok tt.

Notation "'check' r ; k" := (bind r (fun _ => k))
  (at level 10, r at level 100, k at level 200).

Definition LocalSvrConf_zero : LocalSvrConf :=
  {| LocalIp := ""; LocalPort := 0; Plugin := ""; PluginParams := ∅ |}.

Definition HealthCheckConf_zero : HealthCheckConf :=
  {| HealthCheckType := ""; HealthCheckTimeoutS := 0; HealthCheckMaxFailed := 0;
     HealthCheckIntervalS := 0; HealthCheckUrl := ""; HealthCheckAddr := "" |}.

Definition BaseProxyConf_zero : BaseProxyConf :=
  {| ProxyName := ""; ProxyType := ""; UseEncryption := false; UseCompression := false;
     Group := ""; GroupKey := ""; ProxyProtocolVersion := "";
     base_LocalSvrConf := LocalSvrConf_zero;
     base_HealthCheckConf := HealthCheckConf_zero |}.

Definition BindInfoConf_zero : BindInfoConf := {| RemotePort := 0 |}.

Definition DomainConf_zero : DomainConf := {| CustomDomains := []; SubDomain := "" |}.

(** [NewConfByType]: an empty configuration of the given type, [None] for
    Go's [nil] when the type is not in [proxyConfTypeMap]. *)
Definition NewConfByType (proxyType : string) : option ProxyConf :=
  if String.eqb proxyType consts.TcpProxy then
    Some (Tcp {| tcp_BaseProxyConf := BaseProxyConf_zero; tcp_BindInfoConf := BindInfoConf_zero |})
  else if String.eqb proxyType consts.UdpProxy then
    Some (Udp {| udp_BaseProxyConf := BaseProxyConf_zero; udp_BindInfoConf := BindInfoConf_zero |})
  else if String.eqb proxyType consts.HttpProxy then
    Some (Http {| http_BaseProxyConf := BaseProxyConf_zero; http_DomainConf := DomainConf_zero;
                  Locations := []; HttpUser := ""; HttpPwd := ""; HostHeaderRewrite := "";
                  Headers := ∅ |})
  else if String.eqb proxyType consts.HttpsProxy then
    Some (Https {| https_BaseProxyConf := BaseProxyConf_zero; https_DomainConf := DomainConf_zero |})
  else if String.eqb proxyType consts.StcpProxy then
    Some (Stcp {| stcp_BaseProxyConf := BaseProxyConf_zero; stcp_Role := ""; stcp_Sk := "" |})
  else if String.eqb proxyType consts.XtcpProxy then
    Some (Xtcp {| xtcp_BaseProxyConf := BaseProxyConf_zero; xtcp_Role := ""; xtcp_Sk := "" |})
  else None.

Definition set_LocalSvrConf (cfg : BaseProxyConf) (l : LocalSvrConf) : BaseProxyConf :=
  {| ProxyName := ProxyName cfg; ProxyType := ProxyType cfg;
     UseEncryption := UseEncryption cfg; UseCompression := UseCompression cfg;
     Group := Group cfg; GroupKey := GroupKey cfg;
     ProxyProtocolVersion := ProxyProtocolVersion cfg;
     base_LocalSvrConf := l;
     base_HealthCheckConf := base_HealthCheckConf cfg |}.

Section Construction.

(** What the construction takes from outside the embedded files: number
    parsing and text functions of Go's library, the range parser of
    [utils/util], and three package variables of the server. *)
Variable Atoi : string -> option Z.
Variable ParseInt : string -> option Z.
Variable ToLower : string -> string.
Variable TrimSpace : string -> string.
Variable ParseRangeNumbers : string -> result (list Z).
Variable subDomainHost : string.
Variable vhostHttpPort : Z.
Variable vhostHttpsPort : Z.

Definition BaseProxyConf_UnmarshalFromMsg (cfg : BaseProxyConf) (pMsg : Msg.NewProxy)
  : BaseProxyConf :=
  {| ProxyName := Msg.ProxyName pMsg;
     ProxyType := Msg.ProxyType pMsg;
     UseEncryption := Msg.UseEncryption pMsg;
     UseCompression := Msg.UseCompression pMsg;
     Group := Msg.Group pMsg;
     GroupKey := Msg.GroupKey pMsg;
     ProxyProtocolVersion := ProxyProtocolVersion cfg;
     base_LocalSvrConf := base_LocalSvrConf cfg;
     base_HealthCheckConf := base_HealthCheckConf cfg |}.

Definition BindInfoConf_UnmarshalFromMsg (cfg : BindInfoConf) (pMsg : Msg.NewProxy)
  : BindInfoConf :=
  {| RemotePort := Msg.RemotePort pMsg |}.

Definition DomainConf_UnmarshalFromMsg (cfg : DomainConf) (pMsg : Msg.NewProxy)
  : DomainConf :=
  {| CustomDomains := Msg.CustomDomains pMsg; SubDomain := Msg.SubDomain pMsg |}.

Definition LocalSvrConf_UnmarshalFromIni (cfg : LocalSvrConf) (prefix name : string)
    (section : Section_) : result LocalSvrConf :=
  let plugin := get section "plugin" in
  if negb (String.eqb plugin "") then
    (* get params begin with "plugin_" *)
    Ok {| LocalIp := LocalIp cfg; LocalPort := LocalPort cfg; Plugin := plugin;
          PluginParams := filter (fun kv => Is_true (HasPrefix kv.1 "plugin_")) section |}
  else
    let ip := if String.eqb (get section "local_ip") "" then "127.0.0.1"
              else get section "local_ip" in
    match section !! "local_port" with
    | Some tmpStr =>
        match Atoi tmpStr with
        | Some port => Ok {| LocalIp := ip; LocalPort := port; Plugin := plugin;
                             PluginParams := ∅ |}
        | None => Err ("Parse conf error: proxy [" ++ name ++ "] local_port error")
        end
    | None => Err ("Parse conf error: proxy [" ++ name ++ "] local_port not found")
    end.

(** One optional integer key of the health check: absent keeps the old
    value, present and unparsable is the error. *)
Definition health_int (section : Section_) (key : string) (old : Z) (name : string)
  : result Z :=
  match section !! key with
  | Some tmpStr =>
      match Atoi tmpStr with
      | Some v => Ok v
      | None => Err ("Parse conf error: proxy [" ++ name ++ "] " ++ key ++ " error")
      end
  | None => Ok old
  end.

Definition HealthCheckConf_UnmarshalFromIni (cfg : HealthCheckConf) (prefix name : string)
    (section : Section_) : result HealthCheckConf :=
  do timeout <- health_int section "health_check_timeout_s" (HealthCheckTimeoutS cfg) name;
  do maxFailed <- health_int section "health_check_max_failed" (HealthCheckMaxFailed cfg) name;
  do interval <- health_int section "health_check_interval_s" (HealthCheckIntervalS cfg) name;
  Ok {| HealthCheckType := get section "health_check_type";
        HealthCheckTimeoutS := timeout;
        HealthCheckMaxFailed := maxFailed;
        HealthCheckIntervalS := interval;
        HealthCheckUrl := get section "health_check_url";
        HealthCheckAddr := HealthCheckAddr cfg |}.

(** A boolean key: only the text [true] sets the flag. *)
Definition ini_true (section : Section_) (key : string) (old : bool) : bool :=
  match section !! key with
  | Some tmpStr => if String.eqb tmpStr "true" then true else old
  | None => old
  end.

Definition BaseProxyConf_UnmarshalFromIni (cfg : BaseProxyConf) (prefix name : string)
    (section : Section_) : result BaseProxyConf :=
  do l <- LocalSvrConf_UnmarshalFromIni (base_LocalSvrConf cfg) prefix name section;
  do h <- HealthCheckConf_UnmarshalFromIni (base_HealthCheckConf cfg) prefix name section;
  let addr :=
    if String.eqb (HealthCheckType h) "tcp" && String.eqb (Plugin l) ""
    then LocalIp l ++ ":" ++ fmt_d (LocalPort l)
    else HealthCheckAddr h in
  let url :=
    if String.eqb (HealthCheckType h) "http" && String.eqb (Plugin l) "" &&
       negb (String.eqb (HealthCheckUrl h) "")
    then
      let s := "http://" ++ LocalIp l ++ ":" ++ fmt_d (LocalPort l) in
      let s := if negb (HasPrefix (HealthCheckUrl h) "/") then s ++ "/" else s in
      s ++ HealthCheckUrl h
    else HealthCheckUrl h in
  Ok {| ProxyName := prefix ++ name;
        ProxyType := get section "type";
        UseEncryption := ini_true section "use_encryption" (UseEncryption cfg);
        UseCompression := ini_true section "use_compression" (UseCompression cfg);
        Group := get section "group";
        GroupKey := get section "group_key";
        ProxyProtocolVersion := get section "proxy_protocol_version";
        base_LocalSvrConf := l;
        base_HealthCheckConf :=
          {| HealthCheckType := HealthCheckType h;
             HealthCheckTimeoutS := HealthCheckTimeoutS h;
             HealthCheckMaxFailed := HealthCheckMaxFailed h;
             HealthCheckIntervalS := HealthCheckIntervalS h;
             HealthCheckUrl := url;
             HealthCheckAddr := addr |} |}.

Definition BindInfoConf_UnmarshalFromIni (cfg : BindInfoConf) (prefix name : string)
    (section : Section_) : result BindInfoConf :=
  match section !! "remote_port" with
  | Some tmpStr =>
      match ParseInt tmpStr with
      | Some v => Ok {| RemotePort := v |}
      | None => Err ("Parse conf error: proxy [" ++ name ++ "] remote_port error")
      end
  | None => Err ("Parse conf error: proxy [" ++ name ++ "] remote_port not found")
  end.

(** This one never returns an error. *)
Definition DomainConf_UnmarshalFromIni (cfg : DomainConf) (prefix name : string)
    (section : Section_) : DomainConf :=
  {| CustomDomains :=
       match section !! "custom_domains" with
       | Some tmpStr => map (fun domain => ToLower (TrimSpace domain)) (Split tmpStr ",")
       | None => CustomDomains cfg
       end;
     SubDomain :=
       match section !! "subdomain" with
       | Some tmpStr => tmpStr
       | None => SubDomain cfg
       end |}.

Definition TcpProxyConf_UnmarshalFromIni (cfg : TcpProxyConf) (prefix name : string)
    (section : Section_) : result TcpProxyConf :=
  do b <- BaseProxyConf_UnmarshalFromIni (tcp_BaseProxyConf cfg) prefix name section;
  do p <- BindInfoConf_UnmarshalFromIni (tcp_BindInfoConf cfg) prefix name section;
  Ok {| tcp_BaseProxyConf := b; tcp_BindInfoConf := p |}.

Definition UdpProxyConf_UnmarshalFromIni (cfg : UdpProxyConf) (prefix name : string)
    (section : Section_) : result UdpProxyConf :=
  do b <- BaseProxyConf_UnmarshalFromIni (udp_BaseProxyConf cfg) prefix name section;
  do p <- BindInfoConf_UnmarshalFromIni (udp_BindInfoConf cfg) prefix name section;
  Ok {| udp_BaseProxyConf := b; udp_BindInfoConf := p |}.

(** The keys that begin with [header_], with that prefix taken off. *)
Definition ini_headers (section : Section_) : gmap string string :=
  map_fold (fun k v headers =>
              if HasPrefix k "header_" then <[TrimPrefix k "header_" := v]> headers
              else headers) ∅ section.

Definition HttpProxyConf_UnmarshalFromIni (cfg : HttpProxyConf) (prefix name : string)
    (section : Section_) : result HttpProxyConf :=
  do b <- BaseProxyConf_UnmarshalFromIni (http_BaseProxyConf cfg) prefix name section;
  let d := DomainConf_UnmarshalFromIni (http_DomainConf cfg) prefix name section in
  Ok {| http_BaseProxyConf := b;
        http_DomainConf := d;
        Locations := match section !! "locations" with
                     | Some tmpStr => Split tmpStr ","
                     | None => [""]
                     end;
        HttpUser := get section "http_user";
        HttpPwd := get section "http_pwd";
        HostHeaderRewrite := get section "host_header_rewrite";
        Headers := ini_headers section |}.

Definition HttpsProxyConf_UnmarshalFromIni (cfg : HttpsProxyConf) (prefix name : string)
    (section : Section_) : result HttpsProxyConf :=
  do b <- BaseProxyConf_UnmarshalFromIni (https_BaseProxyConf cfg) prefix name section;
  let d := DomainConf_UnmarshalFromIni (https_DomainConf cfg) prefix name section in
  Ok {| https_BaseProxyConf := b; https_DomainConf := d |}.

(** The base, the role, which must be [server], the secret, and the local
    service once more. *)
Definition StcpProxyConf_UnmarshalFromIni (cfg : StcpProxyConf) (prefix name : string)
    (section : Section_) : result StcpProxyConf :=
  do b <- BaseProxyConf_UnmarshalFromIni (stcp_BaseProxyConf cfg) prefix name section;
  let role := get section "role" in
  check fail_if (negb (String.eqb role "server"))
    ("Parse conf error: proxy [" ++ name ++ "] incorrect role [" ++ role ++ "]");
  do l <- LocalSvrConf_UnmarshalFromIni (base_LocalSvrConf b) prefix name section;
  Ok {| stcp_BaseProxyConf := set_LocalSvrConf b l;
        stcp_Role := role;
        stcp_Sk := get section "sk" |}.

Definition XtcpProxyConf_UnmarshalFromIni (cfg : XtcpProxyConf) (prefix name : string)
    (section : Section_) : result XtcpProxyConf :=
  do b <- BaseProxyConf_UnmarshalFromIni (xtcp_BaseProxyConf cfg) prefix name section;
  let role := get section "role" in
  check fail_if (negb (String.eqb role "server"))
    ("Parse conf error: proxy [" ++ name ++ "] incorrect role [" ++ role ++ "]");
  do l <- LocalSvrConf_UnmarshalFromIni (base_LocalSvrConf b) prefix name section;
  Ok {| xtcp_BaseProxyConf := set_LocalSvrConf b l;
        xtcp_Role := role;
        xtcp_Sk := get section "sk" |}.

(** [cfg.UnmarshalFromMsg(pMsg)] through the interface. *)
Definition UnmarshalFromMsg (cfg : ProxyConf) (pMsg : Msg.NewProxy) : ProxyConf :=
  match cfg with
  | Tcp c => Tcp {| tcp_BaseProxyConf := BaseProxyConf_UnmarshalFromMsg (tcp_BaseProxyConf c) pMsg;
                    tcp_BindInfoConf := BindInfoConf_UnmarshalFromMsg (tcp_BindInfoConf c) pMsg |}
  | Udp c => Udp {| udp_BaseProxyConf := BaseProxyConf_UnmarshalFromMsg (udp_BaseProxyConf c) pMsg;
                    udp_BindInfoConf := BindInfoConf_UnmarshalFromMsg (udp_BindInfoConf c) pMsg |}
  | Http c => Http {| http_BaseProxyConf := BaseProxyConf_UnmarshalFromMsg (http_BaseProxyConf c) pMsg;
                      http_DomainConf := DomainConf_UnmarshalFromMsg (http_DomainConf c) pMsg;
                      Locations := Msg.Locations pMsg;
                      HttpUser := Msg.HttpUser pMsg;
                      HttpPwd := Msg.HttpPwd pMsg;
                      HostHeaderRewrite := Msg.HostHeaderRewrite pMsg;
                      Headers := Msg.Headers pMsg |}
  | Https c => Https {| https_BaseProxyConf := BaseProxyConf_UnmarshalFromMsg (https_BaseProxyConf c) pMsg;
                        https_DomainConf := DomainConf_UnmarshalFromMsg (https_DomainConf c) pMsg |}
  | Stcp c => Stcp {| stcp_BaseProxyConf := BaseProxyConf_UnmarshalFromMsg (stcp_BaseProxyConf c) pMsg;
                      stcp_Role := stcp_Role c;
                      stcp_Sk := Msg.Sk pMsg |}
  | Xtcp c => Xtcp {| xtcp_BaseProxyConf := BaseProxyConf_UnmarshalFromMsg (xtcp_BaseProxyConf c) pMsg;
                      xtcp_Role := xtcp_Role c;
                      xtcp_Sk := Msg.Sk pMsg |}
  end.

(** [cfg.UnmarshalFromIni(prefix, name, section)] through the interface. *)
Definition UnmarshalFromIni (cfg : ProxyConf) (prefix name : string) (section : Section_)
  : result ProxyConf :=
  match cfg with
  | Tcp c => do c' <- TcpProxyConf_UnmarshalFromIni c prefix name section; Ok (Tcp c')
  | Udp c => do c' <- UdpProxyConf_UnmarshalFromIni c prefix name section; Ok (Udp c')
  | Http c => do c' <- HttpProxyConf_UnmarshalFromIni c prefix name section; Ok (Http c')
  | Https c => do c' <- HttpsProxyConf_UnmarshalFromIni c prefix name section; Ok (Https c')
  | Stcp c => do c' <- StcpProxyConf_UnmarshalFromIni c prefix name section; Ok (Stcp c')
  | Xtcp c => do c' <- XtcpProxyConf_UnmarshalFromIni c prefix name section; Ok (Xtcp c')
  end.

Definition LocalSvrConf_checkForCli (cfg : LocalSvrConf) : result unit :=
  if String.eqb (Plugin cfg) "" then
    check fail_if (String.eqb (LocalIp cfg) "") "local ip or plugin is required";
    fail_if (LocalPort cfg <=? 0)%Z "error local_port"
  else Ok tt.

Definition HealthCheckConf_checkForCli (cfg : HealthCheckConf) : result unit :=
  check fail_if (negb (String.eqb (HealthCheckType cfg) "") &&
                 negb (String.eqb (HealthCheckType cfg) "tcp") &&
                 negb (String.eqb (HealthCheckType cfg) "http"))
          "unsupport health check type";
  if negb (String.eqb (HealthCheckType cfg) "") then
    fail_if (String.eqb (HealthCheckType cfg) "http" && String.eqb (HealthCheckUrl cfg) "")
      "health_check_url is required for health check type 'http'"
  else Ok tt.

Definition BaseProxyConf_checkForCli (cfg : BaseProxyConf) : result unit :=
  check (if negb (String.eqb (ProxyProtocolVersion cfg) "") then
           fail_if (negb (String.eqb (ProxyProtocolVersion cfg) "v1") &&
                    negb (String.eqb (ProxyProtocolVersion cfg) "v2"))
             ("no support proxy protocol version: " ++ ProxyProtocolVersion cfg)
         else Ok tt);
  check LocalSvrConf_checkForCli (base_LocalSvrConf cfg);
  HealthCheckConf_checkForCli (base_HealthCheckConf cfg).

Definition DomainConf_check (cfg : DomainConf) : result unit :=
  fail_if (Nat.eqb (length (CustomDomains cfg)) 0 && String.eqb (SubDomain cfg) "")
    "custom_domains and subdomain should set at least one of them".

Definition DomainConf_checkForCli (cfg : DomainConf) : result unit :=
  DomainConf_check cfg.

(** The loop over the custom domains; it returns at the first domain that
    belongs to the subdomain host. *)
Fixpoint check_custom_domains (domains : list string) : result unit :=
  match domains with
  | [] => Ok tt
  | domain :: rest =>
      if negb (String.eqb subDomainHost "") &&
         (length (Split subDomainHost ".") <? length (Split domain "."))%nat &&
         Contains domain subDomainHost
      then Err ("custom domain [" ++ domain ++ "] should not belong to subdomain_host ["
                ++ subDomainHost ++ "]")
      else check_custom_domains rest
  end.

Definition DomainConf_checkForSvr (cfg : DomainConf) : result unit :=
  check DomainConf_check cfg;
  check check_custom_domains (CustomDomains cfg);
  if negb (String.eqb (SubDomain cfg) "") then
    check fail_if (String.eqb subDomainHost "")
      "subdomain is not supported because this feature is not enabled in remote frps";
    fail_if (Contains (SubDomain cfg) "." || Contains (SubDomain cfg) "*")
      "'.' and '*' is not supported in subdomain"
  else Ok tt.

(** [cfg.CheckForCli()] through the interface. *)
Definition CheckForCli (cfg : ProxyConf) : result unit :=
  match cfg with
  | Tcp c => BaseProxyConf_checkForCli (tcp_BaseProxyConf c)
  | Udp c => BaseProxyConf_checkForCli (udp_BaseProxyConf c)
  | Http c =>
      check BaseProxyConf_checkForCli (http_BaseProxyConf c);
      DomainConf_checkForCli (http_DomainConf c)
  | Https c =>
      check BaseProxyConf_checkForCli (https_BaseProxyConf c);
      DomainConf_checkForCli (https_DomainConf c)
  | Stcp c =>
      check BaseProxyConf_checkForCli (stcp_BaseProxyConf c);
      fail_if (negb (String.eqb (stcp_Role c) "server")) "role should be 'server'"
  | Xtcp c =>
      check BaseProxyConf_checkForCli (xtcp_BaseProxyConf c);
      fail_if (negb (String.eqb (xtcp_Role c) "server")) "role should be 'server'"
  end.

(** [cfg.CheckForSvr()] through the interface. *)
Definition CheckForSvr (cfg : ProxyConf) : result unit :=
  match cfg with
  | Tcp _ => Ok tt
  | Udp _ => Ok tt
  | Http c =>
      check fail_if (vhostHttpPort =? 0)%Z
        "type [http] not support when vhost_http_port is not set";
      match DomainConf_checkForSvr (http_DomainConf c) with
      | Err e => Err ("proxy [" ++ ProxyName (http_BaseProxyConf c)
                      ++ "] domain conf check error: " ++ e)
      | Ok _ => Ok tt
      end
  | Https c =>
      check fail_if (vhostHttpsPort =? 0)%Z
        "type [https] not support when vhost_https_port is not set";
      match DomainConf_checkForSvr (https_DomainConf c) with
      | Err e => Err ("proxy [" ++ ProxyName (https_BaseProxyConf c)
                      ++ "] domain conf check error: " ++ e)
      | Ok _ => Ok tt
      end
  | Stcp _ => Ok tt
  | Xtcp _ => Ok tt
  end.

(** [pMsg.ProxyType = t] *)
Definition set_ProxyType (pMsg : Msg.NewProxy) (t : string) : Msg.NewProxy :=
  {| Msg.ProxyName := Msg.ProxyName pMsg;
     Msg.ProxyType := t;
     Msg.UseEncryption := Msg.UseEncryption pMsg;
     Msg.UseCompression := Msg.UseCompression pMsg;
     Msg.Group := Msg.Group pMsg;
     Msg.GroupKey := Msg.GroupKey pMsg;
     Msg.RemotePort := Msg.RemotePort pMsg;
     Msg.CustomDomains := Msg.CustomDomains pMsg;
     Msg.SubDomain := Msg.SubDomain pMsg;
     Msg.Locations := Msg.Locations pMsg;
     Msg.HttpUser := Msg.HttpUser pMsg;
     Msg.HttpPwd := Msg.HttpPwd pMsg;
     Msg.HostHeaderRewrite := Msg.HostHeaderRewrite pMsg;
     Msg.Headers := Msg.Headers pMsg;
     Msg.Sk := Msg.Sk pMsg |}.

Definition type_error (name proxyType : string) : string :=
  "proxy [" ++ name ++ "] type [" ++ proxyType ++ "] error".

(** [NewProxyConfFromMsg] writes the default type into the message it was
    given, so the message after the call is returned with the result. *)
Definition NewProxyConfFromMsg (pMsg : Msg.NewProxy) : Msg.NewProxy * result ProxyConf :=
  let pMsg := if String.eqb (Msg.ProxyType pMsg) "" then set_ProxyType pMsg consts.TcpProxy
              else pMsg in
  (pMsg,
   match NewConfByType (Msg.ProxyType pMsg) with
   | None => Err (type_error (Msg.ProxyName pMsg) (Msg.ProxyType pMsg))
   | Some cfg =>
       let cfg := UnmarshalFromMsg cfg pMsg in
       check CheckForSvr cfg;
       Ok cfg
   end).

(** [NewProxyConfFromIni] likewise writes the default type into the section
    it was given. *)
Definition NewProxyConfFromIni (prefix name : string) (section : Section_)
  : Section_ * result ProxyConf :=
  let proxyType := get section "type" in
  let '(proxyType, section) :=
    if String.eqb proxyType "" then (consts.TcpProxy, <["type" := consts.TcpProxy]> section)
    else (proxyType, section) in
  (section,
   match NewConfByType proxyType with
   | None => Err (type_error name proxyType)
   | Some cfg =>
       do cfg <- UnmarshalFromIni cfg prefix name section;
       check CheckForCli cfg;
       Ok cfg
   end).

(** [copySection]: a new map with every entry of [section]. *)
Definition copySection (section : Section_) : Section_ :=
  map_fold (fun k v out => <[k := v]> out) ∅ section.

(** The name and the contents of sub-section [i] of a range section. *)
Definition subName (name : string) (i : nat) : string :=
  name ++ "_" ++ fmt_d (Z.of_nat i).

Definition subSection (section : Section_) (port remotePort : Z) : Section_ :=
  <["remote_port" := fmt_d remotePort]>
    (<["local_port" := fmt_d port]> (copySection section)).

(** The loop of [ParseRangeSection] from index [i] on; [remotePorts[i]]
    panics when [i] is out of range. *)
Fixpoint range_loop (name : string) (section : Section_) (remotePorts : list Z)
    (i : nat) (localPorts : list Z) (sections : gmap string Section_)
  : result (gmap string Section_) :=
  match localPorts with
  | [] => Ok sections
  | port :: rest =>
      match remotePorts !! i with
      | None => Err "panic: runtime error: index out of range"
      | Some remotePort =>
          range_loop name section remotePorts (S i) rest
            (<[subName name i := subSection section port remotePort]> sections)
      end
  end.

Definition ParseRangeSection (name : string) (section : Section_)
  : result (gmap string Section_) :=
  match ParseRangeNumbers (get section "local_port") with
  | Err errRet =>
      Err ("Parse conf error: range section [" ++ name ++ "] local_port invalid, " ++ errRet)
  | Ok localPorts =>
      match ParseRangeNumbers (get section "remote_port") with
      | Err errRet =>
          Err ("Parse conf error: range section [" ++ name ++ "] remote_port invalid, "
               ++ errRet)
      | Ok remotePorts =>
          if negb (Nat.eqb (length localPorts) (length remotePorts)) then
            Err ("Parse conf error: range section [" ++ name
                 ++ "] local ports number should be same with remote ports number")
          else if Nat.eqb (length localPorts) 0 then
            Err ("Parse conf error: range section [" ++ name
                 ++ "] local_port and remote_port is necessary")
          else range_loop name section remotePorts 0 localPorts ∅
      end
  end.

(** *** Facts about the range expansion *)

Lemma copySection_id (section : Section_) : copySection section = section.
Proof.
  unfold copySection.
  apply (map_fold_weak_ind (fun (out : Section_) (m : Section_) => out = m)); [done|].
  intros k v m out _ ->. done.
Qed.

Lemma subName_inj (name : string) (i j : nat) :
  subName name i = subName name j -> i = j.
Proof.
  unfold subName, fmt_d. intros H.
  apply (inj (String.app name)) in H. apply (inj (String.app "_")) in H.
  apply (inj pretty) in H. lia.
Qed.

Lemma range_loop_spec (name : string) (section : Section_) (remotePorts localPorts : list Z) :
  forall (i : nat) (acc : gmap string Section_),
  (forall j, j < length localPorts -> is_Some (remotePorts !! (i + j))) ->
  (forall j, j < length localPorts -> acc !! subName name (i + j) = None) ->
  exists res,
    range_loop name section remotePorts i localPorts acc = Ok res /\
    size res = size acc + length localPorts /\
    (forall j port remotePort,
        localPorts !! j = Some port -> remotePorts !! (i + j) = Some remotePort ->
        res !! subName name (i + j) = Some (subSection section port remotePort)) /\
    (forall k, (forall j, j < length localPorts -> k <> subName name (i + j)) ->
               res !! k = acc !! k) /\
    (forall k, is_Some (res !! k) ->
               is_Some (acc !! k) \/
               exists j, j < length localPorts /\ k = subName name (i + j)).
Proof.
  induction localPorts as [|port rest IH]; intros i acc Hremote Hfree; simpl.
  - exists acc. split; [done|]. split; [lia|]. split; [|split; [done|by left]].
    intros j ? ? Hj. by rewrite lookup_nil in Hj.
  - destruct (Hremote 0 ltac:(simpl; lia)) as [r Hr].
    rewrite Nat.add_0_r in Hr. rewrite Hr.
    set (acc' := <[subName name i := subSection section port r]> acc).
    destruct (IH (S i) acc') as (res & Hres & Hsize & Hin & Hout & Hdom).
    { intros j Hj. replace (S i + j) with (i + S j) by lia.
      apply Hremote. simpl. lia. }
    { intros j Hj. unfold acc'. rewrite lookup_insert_ne.
      - replace (S i + j) with (i + S j) by lia. apply Hfree. simpl. lia.
      - intros Heq%subName_inj. lia. }
    exists res. split; [done|]. split; [|split; [|split]].
    + rewrite Hsize. unfold acc'. rewrite map_size_insert_None.
      * simpl. lia.
      * specialize (Hfree 0 ltac:(simpl; lia)). by rewrite Nat.add_0_r in Hfree.
    + intros [|j] p rp Hp Hrp.
      * rewrite Nat.add_0_r in *. simpl in Hp. injection Hp as <-.
        rewrite Hr in Hrp. injection Hrp as <-.
        rewrite Hout.
        -- unfold acc'. apply lookup_insert_eq.
        -- intros j _ Heq%subName_inj. lia.
      * simpl in Hp. replace (i + S j) with (S i + j) in * by lia. by eapply Hin.
    + intros k Hk. rewrite Hout.
      * unfold acc'. apply lookup_insert_ne.
        specialize (Hk 0 ltac:(simpl; lia)). rewrite Nat.add_0_r in Hk. done.
      * intros j Hj. replace (S i + j) with (i + S j) by lia. apply Hk. simpl. lia.
    + intros k Hk. destruct (Hdom k Hk) as [Hacc|(j & Hj & ->)].
      * destruct (decide (k = subName name i)) as [->|Hne].
        -- right. exists 0. rewrite Nat.add_0_r. split; [simpl; lia|done].
        -- left. unfold acc' in Hacc. by rewrite lookup_insert_ne in Hacc.
      * right. exists (S j). replace (i + S j) with (S i + j) by lia.
        split; [simpl; lia|done].
Qed.

(** C8: when the [local_port] and [remote_port] lists of a range section
    parse to the same nonzero number of ports, [ParseRangeSection] succeeds
    with exactly one sub-section per index [i]: it is named [name_i] and is
    the section with [local_port] and [remote_port] set to the [i]-th local
    and the [i]-th remote port, and there is no other sub-section. It fails
    when either list fails to parse, when the lists have different lengths,
    and when either list is empty. *)
Theorem ParseRangeSection_pairs (name : string) (section : Section_) :
  (forall localPorts remotePorts,
      ParseRangeNumbers (get section "local_port") = Ok localPorts ->
      ParseRangeNumbers (get section "remote_port") = Ok remotePorts ->
      length localPorts = length remotePorts ->
      length localPorts <> 0 ->
      exists sections,
        ParseRangeSection name section = Ok sections /\
        size sections = length localPorts /\
        (forall i port remotePort,
            localPorts !! i = Some port -> remotePorts !! i = Some remotePort ->
            sections !! (name ++ "_" ++ fmt_d (Z.of_nat i)) =
              Some (<["remote_port" := fmt_d remotePort]>
                      (<["local_port" := fmt_d port]> section))) /\
        (forall k, is_Some (sections !! k) ->
                   exists i, i < length localPorts /\ k = name ++ "_" ++ fmt_d (Z.of_nat i))) /\
  (is_Ok (ParseRangeNumbers (get section "local_port")) = false \/
   is_Ok (ParseRangeNumbers (get section "remote_port")) = false ->
   is_Ok (ParseRangeSection name section) = false) /\
  (forall localPorts remotePorts,
      ParseRangeNumbers (get section "local_port") = Ok localPorts ->
      ParseRangeNumbers (get section "remote_port") = Ok remotePorts ->
      length localPorts <> length remotePorts \/ localPorts = [] \/ remotePorts = [] ->
      is_Ok (ParseRangeSection name section) = false).
Proof.
  unfold ParseRangeSection. split; [|split].
  - intros lp rp -> -> Hlen Hnz.
    apply Nat.eqb_eq in Hlen as Hlen'. rewrite Hlen'. simpl.
    apply Nat.eqb_neq in Hnz as Hnz'. rewrite Hnz'.
    destruct (range_loop_spec name section rp lp 0 ∅)
      as (res & Hres & Hsize & Hin & _ & Hdom).
    { intros j Hj. apply lookup_lt_is_Some. simpl. lia. }
    { intros. apply lookup_empty. }
    exists res. split; [done|]. split; [|split].
    + rewrite Hsize, map_size_empty. lia.
    + intros i port r Hp Hr. specialize (Hin i port r Hp Hr). simpl in Hin.
      unfold subSection in Hin. rewrite copySection_id in Hin. exact Hin.
    + intros k Hk. destruct (Hdom k Hk) as [Hempty|Hidx]; [|exact Hidx].
      rewrite lookup_empty in Hempty. by destruct Hempty.
  - intros [H|H].
    + destruct (ParseRangeNumbers (get section "local_port")); [discriminate|done].
    + destruct (ParseRangeNumbers (get section "local_port")); [|done].
      destruct (ParseRangeNumbers (get section "remote_port")); [discriminate|done].
  - intros lp rp -> -> H.
    destruct (Nat.eqb (length lp) (length rp)) eqn:Hlen; simpl; [|done].
    apply Nat.eqb_eq in Hlen.
    destruct H as [H|[->| ->]]; [done|done|].
    simpl in Hlen. rewrite Hlen. done.
Qed.

(** *** Facts about the default type *)

Definition known_types : list string :=
  [consts.TcpProxy; consts.UdpProxy; consts.HttpProxy;
   consts.HttpsProxy; consts.StcpProxy; consts.XtcpProxy].

Definition TcpProxyConf_zero : TcpProxyConf :=
  {| tcp_BaseProxyConf := BaseProxyConf_zero; tcp_BindInfoConf := BindInfoConf_zero |}.

Lemma get_insert_eq (section : Section_) (key v : string) :
  get (<[key := v]> section) key = v.
Proof. unfold get. by rewrite lookup_insert_eq. Qed.

Lemma NewConfByType_unknown (t : string) :
  ~ In t known_types -> NewConfByType t = None.
Proof using Type.
  intros Hno. unfold NewConfByType.
  repeat match goal with
         | |- context [String.eqb t ?x] =>
             destruct (String.eqb_spec t x) as [->|_];
             [exfalso; apply Hno; unfold known_types; simpl; auto 10|]
         end.
  done.
Qed.

(** C10: a [NewProxy] message or an INI section whose type is empty is
    treated as one of type [tcp]: construction gives what it gives with the
    type [tcp] written in, which from a message is always the tcp
    configuration unmarshalled from it and from a section is the tcp
    unmarshalling followed by the tcp client check, so the empty type is
    never the unknown-type error; a type that is not empty and not one of
    [tcp, udp, http, https, stcp, xtcp] fails with the type error. *)
Theorem NewProxyConf_empty_type_is_tcp :
  (forall pMsg, Msg.ProxyType pMsg = "" ->
     NewProxyConfFromMsg pMsg = NewProxyConfFromMsg (set_ProxyType pMsg "tcp") /\
     NewProxyConfFromMsg pMsg =
       (set_ProxyType pMsg "tcp",
        Ok (UnmarshalFromMsg (Tcp TcpProxyConf_zero) (set_ProxyType pMsg "tcp")))) /\
  (forall prefix name section, get section "type" = "" ->
     NewProxyConfFromIni prefix name section =
       NewProxyConfFromIni prefix name (<["type" := "tcp"]> section) /\
     NewProxyConfFromIni prefix name section =
       (<["type" := "tcp"]> section,
        do c <- TcpProxyConf_UnmarshalFromIni TcpProxyConf_zero prefix name
                  (<["type" := "tcp"]> section);
        check BaseProxyConf_checkForCli (tcp_BaseProxyConf c);
        Ok (Tcp c))) /\
  (forall t, t <> "" -> ~ In t known_types ->
     (forall pMsg, Msg.ProxyType pMsg = t ->
        NewProxyConfFromMsg pMsg = (pMsg, Err (type_error (Msg.ProxyName pMsg) t))) /\
     (forall prefix name section, get section "type" = t ->
        NewProxyConfFromIni prefix name section = (section, Err (type_error name t)))).
Proof using Type.
  split; [|split].
  - intros pMsg Hty. unfold NewProxyConfFromMsg. rewrite Hty. simpl. done.
  - intros prefix name section Hty. unfold NewProxyConfFromIni.
    rewrite Hty, get_insert_eq. simpl. split; [done|].
    f_equal. unfold TcpProxyConf_zero.
    destruct (TcpProxyConf_UnmarshalFromIni _ _ _ _); simpl; [|done].
    destruct (BaseProxyConf_checkForCli _); done.
  - intros t Hne Hunknown. apply String.eqb_neq in Hne. split.
    + intros pMsg <-. unfold NewProxyConfFromMsg. rewrite Hne.
      by rewrite (NewConfByType_unknown _ Hunknown).
    + intros prefix name section <-. unfold NewProxyConfFromIni. rewrite Hne.
      by rewrite (NewConfByType_unknown _ Hunknown).
Qed.

(** *** Marshalling to a [NewProxy] message *)

Definition BaseProxyConf_MarshalToMsg (cfg : BaseProxyConf) (pMsg : Msg.NewProxy)
  : Msg.NewProxy :=
  {| Msg.ProxyName := ProxyName cfg;
     Msg.ProxyType := ProxyType cfg;
     Msg.UseEncryption := UseEncryption cfg;
     Msg.UseCompression := UseCompression cfg;
     Msg.Group := Group cfg;
     Msg.GroupKey := GroupKey cfg;
     Msg.RemotePort := Msg.RemotePort pMsg;
     Msg.CustomDomains := Msg.CustomDomains pMsg;
     Msg.SubDomain := Msg.SubDomain pMsg;
     Msg.Locations := Msg.Locations pMsg;
     Msg.HttpUser := Msg.HttpUser pMsg;
     Msg.HttpPwd := Msg.HttpPwd pMsg;
     Msg.HostHeaderRewrite := Msg.HostHeaderRewrite pMsg;
     Msg.Headers := Msg.Headers pMsg;
     Msg.Sk := Msg.Sk pMsg |}.

Definition BindInfoConf_MarshalToMsg (cfg : BindInfoConf) (pMsg : Msg.NewProxy)
  : Msg.NewProxy :=
  {| Msg.ProxyName := Msg.ProxyName pMsg;
     Msg.ProxyType := Msg.ProxyType pMsg;
     Msg.UseEncryption := Msg.UseEncryption pMsg;
     Msg.UseCompression := Msg.UseCompression pMsg;
     Msg.Group := Msg.Group pMsg;
     Msg.GroupKey := Msg.GroupKey pMsg;
     Msg.RemotePort := RemotePort cfg;
     Msg.CustomDomains := Msg.CustomDomains pMsg;
     Msg.SubDomain := Msg.SubDomain pMsg;
     Msg.Locations := Msg.Locations pMsg;
     Msg.HttpUser := Msg.HttpUser pMsg;
     Msg.HttpPwd := Msg.HttpPwd pMsg;
     Msg.HostHeaderRewrite := Msg.HostHeaderRewrite pMsg;
     Msg.Headers := Msg.Headers pMsg;
     Msg.Sk := Msg.Sk pMsg |}.

Definition DomainConf_MarshalToMsg (cfg : DomainConf) (pMsg : Msg.NewProxy)
  : Msg.NewProxy :=
  {| Msg.ProxyName := Msg.ProxyName pMsg;
     Msg.ProxyType := Msg.ProxyType pMsg;
     Msg.UseEncryption := Msg.UseEncryption pMsg;
     Msg.UseCompression := Msg.UseCompression pMsg;
     Msg.Group := Msg.Group pMsg;
     Msg.GroupKey := Msg.GroupKey pMsg;
     Msg.RemotePort := Msg.RemotePort pMsg;
     Msg.CustomDomains := CustomDomains cfg;
     Msg.SubDomain := SubDomain cfg;
     Msg.Locations := Msg.Locations pMsg;
     Msg.HttpUser := Msg.HttpUser pMsg;
     Msg.HttpPwd := Msg.HttpPwd pMsg;
     Msg.HostHeaderRewrite := Msg.HostHeaderRewrite pMsg;
     Msg.Headers := Msg.Headers pMsg;
     Msg.Sk := Msg.Sk pMsg |}.

(** The fields that only [HttpProxyConf.MarshalToMsg] writes. *)
Definition set_http_fields (cfg : HttpProxyConf) (pMsg : Msg.NewProxy) : Msg.NewProxy :=
  {| Msg.ProxyName := Msg.ProxyName pMsg;
     Msg.ProxyType := Msg.ProxyType pMsg;
     Msg.UseEncryption := Msg.UseEncryption pMsg;
     Msg.UseCompression := Msg.UseCompression pMsg;
     Msg.Group := Msg.Group pMsg;
     Msg.GroupKey := Msg.GroupKey pMsg;
     Msg.RemotePort := Msg.RemotePort pMsg;
     Msg.CustomDomains := Msg.CustomDomains pMsg;
     Msg.SubDomain := Msg.SubDomain pMsg;
     Msg.Locations := Locations cfg;
     Msg.HttpUser := HttpUser cfg;
     Msg.HttpPwd := HttpPwd cfg;
     Msg.HostHeaderRewrite := HostHeaderRewrite cfg;
     Msg.Headers := Headers cfg;
     Msg.Sk := Msg.Sk pMsg |}.

(** [pMsg.Sk = sk] *)
Definition set_Sk (sk : string) (pMsg : Msg.NewProxy) : Msg.NewProxy :=
  {| Msg.ProxyName := Msg.ProxyName pMsg;
     Msg.ProxyType := Msg.ProxyType pMsg;
     Msg.UseEncryption := Msg.UseEncryption pMsg;
     Msg.UseCompression := Msg.UseCompression pMsg;
     Msg.Group := Msg.Group pMsg;
     Msg.GroupKey := Msg.GroupKey pMsg;
     Msg.RemotePort := Msg.RemotePort pMsg;
     Msg.CustomDomains := Msg.CustomDomains pMsg;
     Msg.SubDomain := Msg.SubDomain pMsg;
     Msg.Locations := Msg.Locations pMsg;
     Msg.HttpUser := Msg.HttpUser pMsg;
     Msg.HttpPwd := Msg.HttpPwd pMsg;
     Msg.HostHeaderRewrite := Msg.HostHeaderRewrite pMsg;
     Msg.Headers := Msg.Headers pMsg;
     Msg.Sk := sk |}.

(** [cfg.MarshalToMsg(pMsg)] through the interface: the message after the
    call. *)
Definition MarshalToMsg (cfg : ProxyConf) (pMsg : Msg.NewProxy) : Msg.NewProxy :=
  match cfg with
  | Tcp c =>
      BindInfoConf_MarshalToMsg (tcp_BindInfoConf c)
        (BaseProxyConf_MarshalToMsg (tcp_BaseProxyConf c) pMsg)
  | Udp c =>
      BindInfoConf_MarshalToMsg (udp_BindInfoConf c)
        (BaseProxyConf_MarshalToMsg (udp_BaseProxyConf c) pMsg)
  | Http c =>
      set_http_fields c
        (DomainConf_MarshalToMsg (http_DomainConf c)
           (BaseProxyConf_MarshalToMsg (http_BaseProxyConf c) pMsg))
  | Https c =>
      DomainConf_MarshalToMsg (https_DomainConf c)
        (BaseProxyConf_MarshalToMsg (https_BaseProxyConf c) pMsg)
  | Stcp c => set_Sk (stcp_Sk c) (BaseProxyConf_MarshalToMsg (stcp_BaseProxyConf c) pMsg)
  | Xtcp c => set_Sk (xtcp_Sk c) (BaseProxyConf_MarshalToMsg (xtcp_BaseProxyConf c) pMsg)
  end.

(** The name of the type a configuration is of. *)
Definition kind (cfg : ProxyConf) : string :=
  match cfg with
  | Tcp _ => consts.TcpProxy
  | Udp _ => consts.UdpProxy
  | Http _ => consts.HttpProxy
  | Https _ => consts.HttpsProxy
  | Stcp _ => consts.StcpProxy
  | Xtcp _ => consts.XtcpProxy
  end.

Lemma NewConfByType_kind (t : string) (cfg : ProxyConf) :
  NewConfByType t = Some cfg -> kind cfg = t.
Proof using Type.
  unfold NewConfByType.
  repeat match goal with
         | |- context [String.eqb t ?x] => destruct (String.eqb_spec t x) as [->|_]
         end; intros [= <-]; reflexivity.
Qed.

Lemma UnmarshalFromMsg_kind (cfg : ProxyConf) (pMsg : Msg.NewProxy) :
  kind (UnmarshalFromMsg cfg pMsg) = kind cfg /\
  ProxyType (GetBaseInfo (UnmarshalFromMsg cfg pMsg)) = Msg.ProxyType pMsg.
Proof using Type. by destruct cfg. Qed.

Lemma UnmarshalFromIni_kind (cfg cfg' : ProxyConf) (prefix name : string)
    (section : Section_) :
  UnmarshalFromIni cfg prefix name section = Ok cfg' ->
  kind cfg' = kind cfg /\
  ProxyType (GetBaseInfo cfg') = get section "type" /\
  ProxyName (GetBaseInfo cfg') = prefix ++ name.
Proof using Type.
  assert (Hbase : forall b b',
             BaseProxyConf_UnmarshalFromIni b prefix name section = Ok b' ->
             ProxyType b' = get section "type" /\ ProxyName b' = prefix ++ name).
  { intros b b'. unfold BaseProxyConf_UnmarshalFromIni.
    destruct (LocalSvrConf_UnmarshalFromIni _ _ _ _); simpl; [|done].
    destruct (HealthCheckConf_UnmarshalFromIni _ _ _ _); simpl; [|done].
    by intros [= <-]. }
  destruct cfg as [c|c|c|c|c|c]; simpl;
    unfold TcpProxyConf_UnmarshalFromIni, UdpProxyConf_UnmarshalFromIni,
      HttpProxyConf_UnmarshalFromIni, HttpsProxyConf_UnmarshalFromIni,
      StcpProxyConf_UnmarshalFromIni, XtcpProxyConf_UnmarshalFromIni;
    (destruct (BaseProxyConf_UnmarshalFromIni _ _ _ _) as [b|] eqn:Hb; simpl; [|done]);
    destruct (Hbase _ _ Hb) as [Ht Hn].
  - destruct (BindInfoConf_UnmarshalFromIni _ _ _ _); simpl; [|done].
    by intros [= <-].
  - destruct (BindInfoConf_UnmarshalFromIni _ _ _ _); simpl; [|done].
    by intros [= <-].
  - by intros [= <-].
  - by intros [= <-].
  - destruct (fail_if _ _); simpl; [|done].
    destruct (LocalSvrConf_UnmarshalFromIni _ _ _ _); simpl; [|done].
    by intros [= <-].
  - destruct (fail_if _ _); simpl; [|done].
    destruct (LocalSvrConf_UnmarshalFromIni _ _ _ _); simpl; [|done].
    by intros [= <-].
Qed.

(** The type written in a configuration is the type the configuration is
    of: both constructors return a configuration whose [ProxyType] field
    names its own type, never the empty text, and from a section the proxy
    name is the prefix followed by the section name. *)
Theorem NewProxyConf_type_field :
  (forall pMsg pMsg' cfg,
      NewProxyConfFromMsg pMsg = (pMsg', Ok cfg) ->
      ProxyType (GetBaseInfo cfg) = kind cfg /\
      Msg.ProxyType pMsg' = kind cfg /\
      ProxyName (GetBaseInfo cfg) = Msg.ProxyName pMsg) /\
  (forall prefix name section section' cfg,
      NewProxyConfFromIni prefix name section = (section', Ok cfg) ->
      ProxyType (GetBaseInfo cfg) = kind cfg /\
      get section' "type" = kind cfg /\
      ProxyName (GetBaseInfo cfg) = prefix ++ name).
Proof using Type.
  split.
  - intros pMsg pMsg' cfg. unfold NewProxyConfFromMsg.
    set (m := if String.eqb (Msg.ProxyType pMsg) "" then _ else _).
    assert (Hname : Msg.ProxyName m = Msg.ProxyName pMsg)
      by (unfold m; by destruct (String.eqb _ _)).
    destruct (NewConfByType (Msg.ProxyType m)) as [z|] eqn:Hz; [|by intros [= _ ?]].
    apply NewConfByType_kind in Hz.
    destruct (UnmarshalFromMsg_kind z m) as [Hk Ht].
    destruct (CheckForSvr _); simpl; [|by intros [= _ ?]].
    intros [= <- <-]. rewrite Hk, Ht, Hz. split; [done|]. split; [done|].
    rewrite <- Hname. by destruct z.
  - intros prefix name section section' cfg. unfold NewProxyConfFromIni.
    destruct (String.eqb_spec (get section "type") "") as [Hty|Hty].
    + destruct (NewConfByType consts.TcpProxy) as [z|] eqn:Hz; [|by intros [= _ ?]].
      apply NewConfByType_kind in Hz.
      destruct (UnmarshalFromIni z prefix name _) as [c|] eqn:Hc; simpl; [|by intros [= _ ?]].
      destruct (UnmarshalFromIni_kind _ _ _ _ _ Hc) as (Hk & Ht & Hn).
      destruct (CheckForCli c); simpl; [|by intros [= _ ?]].
      intros [= <- <-]. rewrite Ht, Hk, Hz, get_insert_eq. done.
    + destruct (NewConfByType (get section "type")) as [z|] eqn:Hz; [|by intros [= _ ?]].
      apply NewConfByType_kind in Hz.
      destruct (UnmarshalFromIni z prefix name _) as [c|] eqn:Hc; simpl; [|by intros [= _ ?]].
      destruct (UnmarshalFromIni_kind _ _ _ _ _ Hc) as (Hk & Ht & Hn).
      destruct (CheckForCli c); simpl; [|by intros [= _ ?]].
      intros [= <- <-]. rewrite Ht, Hk, Hz. done.
Qed.

(** Two configurations of the same type. *)
Definition same_kind (a b : ProxyConf) : Prop := kind a = kind b.

Lemma Unmarshal_Marshal_same (cfg : ProxyConf) (pMsg : Msg.NewProxy) :
  UnmarshalFromMsg cfg (MarshalToMsg cfg pMsg) = cfg.
Proof using Type.
  destruct cfg as [[[] []]|[[] []]|[[] [] ? ? ? ? ?]|[[] []]|[[] ? ?]|[[] ? ?]]; reflexivity.
Qed.

Lemma Marshal_Unmarshal_kind (z cfg : ProxyConf) (pMsg pMsg' : Msg.NewProxy) :
  same_kind z cfg ->
  MarshalToMsg (UnmarshalFromMsg z (MarshalToMsg cfg pMsg)) pMsg' = MarshalToMsg cfg pMsg'.
Proof using Type.
  unfold same_kind. destruct z, cfg; try discriminate; reflexivity.
Qed.

(** What a configuration writes into a message is what reading the message
    back gives: unmarshalling the message a configuration was marshalled to
    into that configuration leaves it as it is, and for a client's
    configuration whose type field names its type, the configuration the
    server builds from the marshalled message is of the same type and
    marshals to the same message as the client's, whatever message it is
    marshalled into. *)
Theorem Marshal_Unmarshal_round_trip (cfg : ProxyConf) (pMsg : Msg.NewProxy) :
  ProxyType (GetBaseInfo cfg) = kind cfg ->
  UnmarshalFromMsg cfg (MarshalToMsg cfg pMsg) = cfg /\
  (NewProxyConfFromMsg (MarshalToMsg cfg pMsg)).1 = MarshalToMsg cfg pMsg /\
  forall cfg',
    (NewProxyConfFromMsg (MarshalToMsg cfg pMsg)).2 = Ok cfg' ->
    same_kind cfg' cfg /\
    forall pMsg', MarshalToMsg cfg' pMsg' = MarshalToMsg cfg pMsg'.
Proof using Type.
  intros Hty. split; [apply Unmarshal_Marshal_same|].
  assert (Hmt : Msg.ProxyType (MarshalToMsg cfg pMsg) = kind cfg)
    by (rewrite <- Hty; by destruct cfg).
  assert (Hne : String.eqb (kind cfg) "" = false) by (by destruct cfg).
  assert (Hz : exists z, NewConfByType (kind cfg) = Some z /\ same_kind z cfg)
    by (destruct cfg; eexists; split; reflexivity).
  destruct Hz as (z & Hz & Hsame).
  unfold NewProxyConfFromMsg. rewrite Hmt, Hne. cbv iota zeta. rewrite Hmt, Hz.
  cbn [fst snd]. split; [done|].
  intros cfg'. destruct (CheckForSvr _); simpl; [|done]. intros [= <-].
  split.
  - unfold same_kind. destruct (UnmarshalFromMsg_kind z (MarshalToMsg cfg pMsg)) as [-> _].
    exact Hsame.
  - intros pMsg'. by apply Marshal_Unmarshal_kind.
Qed.

(** *** What the checks let through *)

Lemma fail_if_Ok (b : bool) (e : string) (u : unit) : fail_if b e = Ok u -> b = false.
Proof using Type. by destruct b. Qed.

Lemma check_Ok {A} (r : result unit) (k : result A) (a : A) :
  (check r; k) = Ok a -> r = Ok tt /\ k = Ok a.
Proof using Type. destruct r as [[]|]; simpl; [done|discriminate]. Qed.

(** What [BaseProxyConf.checkForCli] lets through. *)
Definition base_cli_ok (b : BaseProxyConf) : Prop :=
  In (ProxyProtocolVersion b) [""; "v1"; "v2"] /\
  (Plugin (base_LocalSvrConf b) = "" ->
   LocalIp (base_LocalSvrConf b) <> "" /\ (0 < LocalPort (base_LocalSvrConf b))%Z) /\
  In (HealthCheckType (base_HealthCheckConf b)) [""; "tcp"; "http"] /\
  (HealthCheckType (base_HealthCheckConf b) = "http" ->
   HealthCheckUrl (base_HealthCheckConf b) <> "").

Lemma BaseProxyConf_checkForCli_Ok (b : BaseProxyConf) (u : unit) :
  BaseProxyConf_checkForCli b = Ok u -> base_cli_ok b.
Proof using Type.
  unfold BaseProxyConf_checkForCli.
  intros [Hppv [Hlocal Hhc]%check_Ok]%check_Ok.
  unfold base_cli_ok. split; [|split; [|split]].
  - destruct (String.eqb_spec (ProxyProtocolVersion b) "") as [->|_]; simpl in *; [auto|].
    apply fail_if_Ok, andb_false_iff in Hppv.
    destruct Hppv as [H|H]; apply negb_false_iff, String.eqb_eq in H; rewrite H; auto.
  - intros Hplugin. unfold LocalSvrConf_checkForCli in Hlocal.
    rewrite Hplugin in Hlocal. simpl in Hlocal.
    apply check_Ok in Hlocal as [Hip Hport].
    apply fail_if_Ok, String.eqb_neq in Hip. apply fail_if_Ok, Z.leb_gt in Hport. done.
  - unfold HealthCheckConf_checkForCli in Hhc. apply check_Ok in Hhc as [Hty _].
    apply fail_if_Ok in Hty.
    destruct (String.eqb_spec (HealthCheckType (base_HealthCheckConf b)) "") as [->|_];
      simpl in *; [auto|].
    destruct (String.eqb_spec (HealthCheckType (base_HealthCheckConf b)) "tcp") as [->|_];
      simpl in *; [auto|].
    apply negb_false_iff, String.eqb_eq in Hty. rewrite Hty. auto.
  - intros Hhttp. unfold HealthCheckConf_checkForCli in Hhc. apply check_Ok in Hhc as [_ Hurl].
    rewrite Hhttp in Hurl. simpl in Hurl. by apply fail_if_Ok, String.eqb_neq in Hurl.
Qed.

(** What [CheckForCli] lets through, by type. *)
Definition cli_ok (cfg : ProxyConf) : Prop :=
  base_cli_ok (GetBaseInfo cfg) /\
  match cfg with
  | Tcp _ | Udp _ => True
  | Http c => CustomDomains (http_DomainConf c) <> [] \/ SubDomain (http_DomainConf c) <> ""
  | Https c => CustomDomains (https_DomainConf c) <> [] \/ SubDomain (https_DomainConf c) <> ""
  | Stcp c => stcp_Role c = "server"
  | Xtcp c => xtcp_Role c = "server"
  end.

Lemma DomainConf_check_Ok (d : DomainConf) (u : unit) :
  DomainConf_check d = Ok u -> CustomDomains d <> [] \/ SubDomain d <> "".
Proof using Type.
  unfold DomainConf_check. intros [H|H]%fail_if_Ok%andb_false_iff.
  - left. by destruct (CustomDomains d).
  - right. by apply String.eqb_neq.
Qed.

Lemma CheckForCli_Ok (cfg : ProxyConf) (u : unit) : CheckForCli cfg = Ok u -> cli_ok cfg.
Proof using Type.
  unfold cli_ok. destruct cfg as [c|c|c|c|c|c]; simpl.
  - intros H%BaseProxyConf_checkForCli_Ok. done.
  - intros H%BaseProxyConf_checkForCli_Ok. done.
  - intros [Hb Hd]%check_Ok. split; [by eapply BaseProxyConf_checkForCli_Ok|].
    by eapply DomainConf_check_Ok.
  - intros [Hb Hd]%check_Ok. split; [by eapply BaseProxyConf_checkForCli_Ok|].
    by eapply DomainConf_check_Ok.
  - intros [Hb Hr]%check_Ok. split; [by eapply BaseProxyConf_checkForCli_Ok|].
    by apply fail_if_Ok, negb_false_iff, String.eqb_eq in Hr.
  - intros [Hb Hr]%check_Ok. split; [by eapply BaseProxyConf_checkForCli_Ok|].
    by apply fail_if_Ok, negb_false_iff, String.eqb_eq in Hr.
Qed.

(** Every configuration that [NewProxyConfFromIni] returns has a PROXY
    protocol version that is empty, [v1] or [v2]; without a plugin, a local
    address and a positive local port; a health check type that is empty,
    [tcp] or [http], with a URL when it is [http]; for http and https, a
    custom domain or a subdomain; and for stcp and xtcp, the role
    [server]. *)
Theorem NewProxyConfFromIni_accepted (prefix name : string) (section section' : Section_)
    (cfg : ProxyConf) :
  NewProxyConfFromIni prefix name section = (section', Ok cfg) -> cli_ok cfg.
Proof using Type.
  unfold NewProxyConfFromIni.
  destruct (String.eqb (get section "type") "");
    (destruct (NewConfByType _) as [z|]; [|by intros [= _ ?]]);
    (destruct (UnmarshalFromIni z prefix name _) as [c|]; simpl; [|by intros [= _ ?]]);
    (destruct (CheckForCli c) as [[]|] eqn:Hc; simpl; [|by intros [= _ ?]]);
    intros [= _ <-]; by eapply CheckForCli_Ok.
Qed.

(** What [DomainConf.checkForSvr] lets through. When the server has no
    subdomain host, custom domains are not looked at; when it has one, a
    custom domain passes unless it has more dot-separated parts than the
    subdomain host and contains the subdomain host anywhere in it. *)
Definition domain_svr_ok (d : DomainConf) : Prop :=
  (CustomDomains d <> [] \/ SubDomain d <> "") /\
  Forall (fun domain =>
            subDomainHost = "" \/
            length (Split domain ".") <= length (Split subDomainHost ".") \/
            Contains domain subDomainHost = false) (CustomDomains d) /\
  (SubDomain d <> "" ->
   subDomainHost <> "" /\
   Contains (SubDomain d) "." = false /\ Contains (SubDomain d) "*" = false).

Lemma check_custom_domains_Ok (domains : list string) (u : unit) :
  check_custom_domains domains = Ok u ->
  Forall (fun domain =>
            subDomainHost = "" \/
            length (Split domain ".") <= length (Split subDomainHost ".") \/
            Contains domain subDomainHost = false) domains.
Proof using Type.
  induction domains as [|domain rest IH]; simpl; [by constructor|].
  destruct (negb (String.eqb subDomainHost "") &&
            (length (Split subDomainHost ".") <? length (Split domain "."))%nat &&
            Contains domain subDomainHost) eqn:Hc; [discriminate|].
  intros Hrest. constructor; [|by apply IH].
  apply andb_false_iff in Hc as [Hc|Hc]; [|auto].
  apply andb_false_iff in Hc as [Hc|Hc].
  - left. by apply negb_false_iff, String.eqb_eq in Hc.
  - right. left. apply Nat.ltb_ge in Hc. done.
Qed.

Lemma DomainConf_checkForSvr_Ok (d : DomainConf) (u : unit) :
  DomainConf_checkForSvr d = Ok u -> domain_svr_ok d.
Proof using Type.
  unfold DomainConf_checkForSvr.
  intros [Hcheck [Hdom Hsub]%check_Ok]%check_Ok.
  split; [by eapply DomainConf_check_Ok|]. split; [by eapply check_custom_domains_Ok|].
  intros Hne. apply String.eqb_neq in Hne. rewrite Hne in Hsub. simpl in Hsub.
  apply check_Ok in Hsub as [Hhost Hdots].
  apply fail_if_Ok, String.eqb_neq in Hhost.
  apply fail_if_Ok, orb_false_iff in Hdots. done.
Qed.

(** What [CheckForSvr] lets through, by type. *)
Definition svr_ok (cfg : ProxyConf) : Prop :=
  match cfg with
  | Http c => vhostHttpPort <> 0%Z /\ domain_svr_ok (http_DomainConf c)
  | Https c => vhostHttpsPort <> 0%Z /\ domain_svr_ok (https_DomainConf c)
  | _ => True
  end.

(** On the server, a [NewProxy] message of type tcp, udp, stcp or xtcp, or
    with no type, always gives a configuration. One of type http or https
    gives one only if the vhost port of that type is set; the message names
    a custom domain or a subdomain; a subdomain, if named, has no ['.'] and
    no ['*'] and the server has a subdomain host; and, if the server has a
    subdomain host, no custom domain both has more dot-separated parts than
    that host and contains it. With no subdomain host the custom domains
    are not checked. *)
Theorem NewProxyConfFromMsg_accepted (pMsg : Msg.NewProxy) :
  (In (Msg.ProxyType pMsg) [""; "tcp"; "udp"; "stcp"; "xtcp"] ->
   exists cfg, (NewProxyConfFromMsg pMsg).2 = Ok cfg) /\
  (forall cfg, (NewProxyConfFromMsg pMsg).2 = Ok cfg -> svr_ok cfg).
Proof using Type.
  split.
  - intros Hin. destruct pMsg. simpl in Hin.
    destruct Hin as [H|[H|[H|[H|[H|[]]]]]]; subst; unfold NewProxyConfFromMsg;
      simpl; eauto.
  - intros cfg. unfold NewProxyConfFromMsg. cbn [snd].
    destruct (NewConfByType _) as [z|]; [|done].
    destruct (CheckForSvr _) as [[]|] eqn:Hc; simpl; [|done]. intros [= <-].
    destruct (UnmarshalFromMsg z _) as [c|c|c|c|c|c]; simpl in *; try done.
    + apply check_Ok in Hc as [Hport Hd]. apply fail_if_Ok, Z.eqb_neq in Hport.
      split; [done|].
      destruct (DomainConf_checkForSvr (http_DomainConf c)) as [[]|] eqn:Hd'; [|done].
      by eapply DomainConf_checkForSvr_Ok.
    + apply check_Ok in Hc as [Hport Hd]. apply fail_if_Ok, Z.eqb_neq in Hport.
      split; [done|].
      destruct (DomainConf_checkForSvr (https_DomainConf c)) as [[]|] eqn:Hd'; [|done].
      by eapply DomainConf_checkForSvr_Ok.
Qed.

(** *** Comparing configurations read from INI sections *)

(** A configuration unmarshalled from an INI section into the empty
    configuration of some type, as [NewProxyConfFromIni] does. *)
Definition ini_built (cfg : ProxyConf) : Prop :=
  exists t z prefix name section,
    NewConfByType t = Some z /\ UnmarshalFromIni z prefix name section = Ok cfg.

(** The health-check address that unmarshalling from INI gives. *)
Definition ini_addr (b : BaseProxyConf) : string :=
  if String.eqb (HealthCheckType (base_HealthCheckConf b)) "tcp" &&
     String.eqb (Plugin (base_LocalSvrConf b)) ""
  then LocalIp (base_LocalSvrConf b) ++ ":" ++ fmt_d (LocalPort (base_LocalSvrConf b))
  else "".

Lemma LocalSvrConf_UnmarshalFromIni_again (c l : LocalSvrConf) (prefix name : string)
    (section : Section_) :
  LocalSvrConf_UnmarshalFromIni c prefix name section = Ok l ->
  LocalSvrConf_UnmarshalFromIni l prefix name section = Ok l.
Proof using Type.
  unfold LocalSvrConf_UnmarshalFromIni.
  destruct (negb (String.eqb (get section "plugin") "")).
  - by intros [= <-].
  - destruct (section !! "local_port") as [tmpStr|]; [|done].
    destruct (Atoi tmpStr); [|done]. by intros [= <-].
Qed.

Lemma BaseProxyConf_UnmarshalFromIni_addr (b : BaseProxyConf) (prefix name : string)
    (section : Section_) :
  BaseProxyConf_UnmarshalFromIni BaseProxyConf_zero prefix name section = Ok b ->
  HealthCheckAddr (base_HealthCheckConf b) = ini_addr b.
Proof using Type.
  unfold BaseProxyConf_UnmarshalFromIni.
  destruct (LocalSvrConf_UnmarshalFromIni _ _ _ _) as [l|]; simpl; [|done].
  unfold HealthCheckConf_UnmarshalFromIni.
  repeat (destruct (health_int _ _ _ _); simpl; [|done]).
  intros [= <-]. unfold ini_addr. simpl.
  by destruct (String.eqb _ "tcp" && String.eqb (Plugin l) "").
Qed.

Lemma BaseProxyConf_UnmarshalFromIni_local (z b : BaseProxyConf) (prefix name : string)
    (section : Section_) :
  BaseProxyConf_UnmarshalFromIni z prefix name section = Ok b ->
  LocalSvrConf_UnmarshalFromIni (base_LocalSvrConf b) prefix name section =
    Ok (base_LocalSvrConf b).
Proof using Type.
  unfold BaseProxyConf_UnmarshalFromIni.
  destruct (LocalSvrConf_UnmarshalFromIni (base_LocalSvrConf z) _ _ _) as [l1|] eqn:Hl1;
    simpl; [|done].
  destruct (HealthCheckConf_UnmarshalFromIni _ _ _ _); simpl; [|done].
  intros [= <-]. simpl. by eapply LocalSvrConf_UnmarshalFromIni_again.
Qed.

Lemma ini_built_addr (cfg : ProxyConf) :
  ini_built cfg ->
  HealthCheckAddr (base_HealthCheckConf (GetBaseInfo cfg)) = ini_addr (GetBaseInfo cfg).
Proof using Type.
  intros (t & z & prefix & name & section & Hz & Hcfg).
  assert (Hzero : GetBaseInfo z = BaseProxyConf_zero).
  { revert Hz. unfold NewConfByType.
    repeat match goal with
           | |- context [String.eqb t ?x] => destruct (String.eqb t x)
           end; intros [= <-]; reflexivity. }
  destruct z as [c|c|c|c|c|c]; simpl in Hzero, Hcfg;
    unfold TcpProxyConf_UnmarshalFromIni, UdpProxyConf_UnmarshalFromIni,
      HttpProxyConf_UnmarshalFromIni, HttpsProxyConf_UnmarshalFromIni,
      StcpProxyConf_UnmarshalFromIni, XtcpProxyConf_UnmarshalFromIni in Hcfg;
    rewrite Hzero in Hcfg;
    (destruct (BaseProxyConf_UnmarshalFromIni _ _ _ _) as [b|] eqn:Hb; simpl in Hcfg;
     [|done]);
    pose proof (BaseProxyConf_UnmarshalFromIni_addr _ _ _ _ Hb) as Haddr.
  1,2: destruct (BindInfoConf_UnmarshalFromIni _ _ _ _); simpl in Hcfg; [|done].
  1-4: by injection Hcfg as <-.
  all: destruct (fail_if _ _); simpl in Hcfg; [|done].
  all: destruct (LocalSvrConf_UnmarshalFromIni (base_LocalSvrConf b) _ _ _) as [l|] eqn:Hl;
    simpl in Hcfg; [|done].
  all: rewrite (BaseProxyConf_UnmarshalFromIni_local _ _ _ _ _ Hb) in Hl.
  all: injection Hl as <-; injection Hcfg as <-; simpl; by destruct b.
Qed.

Lemma BaseProxyConf_compared_addr (x y : BaseProxyConf) :
  BaseProxyConf_compared x = BaseProxyConf_compared y ->
  HealthCheckAddr (base_HealthCheckConf x) = ini_addr x ->
  HealthCheckAddr (base_HealthCheckConf y) = ini_addr y ->
  x = y.
Proof using Type.
  destruct x as [? ? ? ? ? ? ? lx [? ? ? ? ? ax]], y as [? ? ? ? ? ? ? ly [? ? ? ? ? ay]].
  unfold BaseProxyConf_compared, HealthCheckConf_compared, ini_addr. simpl.
  intros [= -> -> -> -> -> -> -> -> -> -> -> -> ->] -> ->. reflexivity.
Qed.

(** For two configurations read from INI sections, of a type without domain
    lists (tcp, udp, stcp, xtcp), [Compare] is equality: it returns true
    exactly when all attributes are equal, the health-check address
    included, so a reload sees every change to such a proxy. *)
Theorem Compare_ini_built (a b : ProxyConf) :
  ini_built a -> ini_built b ->
  In (kind a) [consts.TcpProxy; consts.UdpProxy; consts.StcpProxy; consts.XtcpProxy] ->
  (Compare a b = true <-> a = b).
Proof using Type.
  intros Ha Hb Hkind. split; [|intros ->; apply Compare_refl].
  intros Hcmp. pose proof Hcmp as Hc%Compare_true_compared.
  apply ini_built_addr in Ha. apply ini_built_addr in Hb.
  destruct a as [a|a|a|a|a|a], b as [b|b|b|b|b|b]; try discriminate Hcmp;
    simpl in Hkind; try (by decompose [or] Hkind);
    simpl in Ha, Hb, Hc; destruct a, b; simpl in *;
    match goal with
    | Hx : HealthCheckAddr (base_HealthCheckConf ?x) = ini_addr ?x,
      Hy : HealthCheckAddr (base_HealthCheckConf ?y) = ini_addr ?y |- _ =>
        assert (x = y) by (apply BaseProxyConf_compared_addr; [congruence|done|done])
    end; congruence.
Qed.

(** *** A range section, expanded and constructed *)

Lemma LocalSvrConf_UnmarshalFromIni_port (c l : LocalSvrConf) (prefix name : string)
    (section : Section_) (tmpStr : string) (v : Z) :
  LocalSvrConf_UnmarshalFromIni c prefix name section = Ok l ->
  Plugin l = "" ->
  section !! "local_port" = Some tmpStr -> Atoi tmpStr = Some v ->
  LocalPort l = v.
Proof using Type.
  unfold LocalSvrConf_UnmarshalFromIni. intros Hl Hplugin Hkey Hatoi.
  destruct (String.eqb_spec (get section "plugin") "") as [Hp|Hp]; simpl in Hl.
  - rewrite Hkey, Hatoi in Hl. by injection Hl as <-.
  - injection Hl as <-. by simpl in Hplugin.
Qed.

Lemma UnmarshalFromIni_local_port (z cfg : ProxyConf) (prefix name : string)
    (section : Section_) (tmpStr : string) (v : Z) :
  UnmarshalFromIni z prefix name section = Ok cfg ->
  Plugin (base_LocalSvrConf (GetBaseInfo cfg)) = "" ->
  section !! "local_port" = Some tmpStr -> Atoi tmpStr = Some v ->
  LocalPort (base_LocalSvrConf (GetBaseInfo cfg)) = v.
Proof using Type.
  intros Hcfg Hplugin Hkey Hatoi.
  assert (Hbase : forall b b',
             BaseProxyConf_UnmarshalFromIni b prefix name section = Ok b' ->
             Plugin (base_LocalSvrConf b') = "" ->
             LocalPort (base_LocalSvrConf b') = v).
  { intros b b'. unfold BaseProxyConf_UnmarshalFromIni.
    destruct (LocalSvrConf_UnmarshalFromIni _ _ _ _) as [l|] eqn:Hl; simpl; [|done].
    destruct (HealthCheckConf_UnmarshalFromIni _ _ _ _); simpl; [|done].
    intros [= <-]. simpl. intros Hp.
    by eapply LocalSvrConf_UnmarshalFromIni_port. }
  destruct z as [c|c|c|c|c|c]; simpl in Hcfg;
    unfold TcpProxyConf_UnmarshalFromIni, UdpProxyConf_UnmarshalFromIni,
      HttpProxyConf_UnmarshalFromIni, HttpsProxyConf_UnmarshalFromIni,
      StcpProxyConf_UnmarshalFromIni, XtcpProxyConf_UnmarshalFromIni in Hcfg;
    (destruct (BaseProxyConf_UnmarshalFromIni _ _ _ _) as [b|] eqn:Hb; simpl in Hcfg;
     [|done]).
  1,2: destruct (BindInfoConf_UnmarshalFromIni _ _ _ _); simpl in Hcfg; [|done].
  1-4: injection Hcfg as <-; simpl in *; by eapply Hbase.
  all: destruct (fail_if _ _); simpl in Hcfg; [|done].
  all: destruct (LocalSvrConf_UnmarshalFromIni (base_LocalSvrConf b) _ _ _) as [l|] eqn:Hl;
    simpl in Hcfg; [|done].
  all: injection Hcfg as <-; simpl in *; by eapply LocalSvrConf_UnmarshalFromIni_port.
Qed.

Lemma UnmarshalFromIni_remote_port (z cfg : ProxyConf) (prefix name : string)
    (section : Section_) (tmpStr : string) (v : Z) :
  UnmarshalFromIni z prefix name section = Ok cfg ->
  section !! "remote_port" = Some tmpStr -> ParseInt tmpStr = Some v ->
  match cfg with
  | Tcp c => RemotePort (tcp_BindInfoConf c) = v
  | Udp c => RemotePort (udp_BindInfoConf c) = v
  | _ => True
  end.
Proof using Type.
  intros Hcfg Hkey Hparse.
  destruct z as [c|c|c|c|c|c]; simpl in Hcfg;
    unfold TcpProxyConf_UnmarshalFromIni, UdpProxyConf_UnmarshalFromIni,
      HttpProxyConf_UnmarshalFromIni, HttpsProxyConf_UnmarshalFromIni,
      StcpProxyConf_UnmarshalFromIni, XtcpProxyConf_UnmarshalFromIni in Hcfg;
    (destruct (BaseProxyConf_UnmarshalFromIni _ _ _ _) as [b|]; simpl in Hcfg; [|done]).
  1,2: unfold BindInfoConf_UnmarshalFromIni in Hcfg; rewrite Hkey, Hparse in Hcfg;
    simpl in Hcfg; by injection Hcfg as <-.
  1,2: by injection Hcfg as <-.
  all: destruct (fail_if _ _); simpl in Hcfg; [|done].
  all: destruct (LocalSvrConf_UnmarshalFromIni _ _ _ _); simpl in Hcfg; [|done].
  all: by injection Hcfg as <-.
Qed.

(** Expanding a range section and constructing a proxy from each
    sub-section, as loading a configuration file does: when the number
    readers read back the ports that [%d] printed, every configuration
    constructed from sub-section [i] is named by the prefix and [name_i],
    has the [i]-th local port as its local port unless it uses a plugin,
    and, if it is a tcp or udp proxy, the [i]-th remote port as its remote
    port. *)
Theorem range_section_proxies (prefix name : string) (section : Section_)
    (localPorts remotePorts : list Z) (sections : gmap string Section_) :
  ParseRangeNumbers (get section "local_port") = Ok localPorts ->
  ParseRangeNumbers (get section "remote_port") = Ok remotePorts ->
  ParseRangeSection name section = Ok sections ->
  Forall (fun p => Atoi (fmt_d p) = Some p) localPorts ->
  Forall (fun p => ParseInt (fmt_d p) = Some p) remotePorts ->
  forall i port remotePort,
    localPorts !! i = Some port -> remotePorts !! i = Some remotePort ->
    exists sub,
      sections !! subName name i = Some sub /\
      forall sub' cfg,
        NewProxyConfFromIni prefix (subName name i) sub = (sub', Ok cfg) ->
        ProxyName (GetBaseInfo cfg) = prefix ++ subName name i /\
        (Plugin (base_LocalSvrConf (GetBaseInfo cfg)) = "" ->
         LocalPort (base_LocalSvrConf (GetBaseInfo cfg)) = port) /\
        match cfg with
        | Tcp c => RemotePort (tcp_BindInfoConf c) = remotePort
        | Udp c => RemotePort (udp_BindInfoConf c) = remotePort
        | _ => True
        end.
Proof using Type.
  intros Hlp Hrp Hrun Hatoi Hparse i port remotePort Hi Hri.
  assert (Hsub : sections !! subName name i = Some (subSection section port remotePort)).
  { revert Hrun. unfold ParseRangeSection. rewrite Hlp, Hrp.
    destruct (Nat.eqb (length localPorts) (length remotePorts)) eqn:Hlen; [|done].
    apply Nat.eqb_eq in Hlen. simpl.
    destruct (Nat.eqb (length localPorts) 0); [done|]. intros Hloop.
    destruct (range_loop_spec name section remotePorts localPorts 0 ∅)
      as (res & Hres & _ & Hin & _).
    - intros j Hj. apply lookup_lt_is_Some. simpl. lia.
    - intros. apply lookup_empty.
    - rewrite Hres in Hloop. injection Hloop as <-. by apply (Hin i). }
  exists (subSection section port remotePort). split; [done|].
  assert (Hkeys :
             (<["type" := consts.TcpProxy]> (subSection section port remotePort))
               !! "local_port" = Some (fmt_d port) /\
             (<["type" := consts.TcpProxy]> (subSection section port remotePort))
               !! "remote_port" = Some (fmt_d remotePort) /\
             subSection section port remotePort !! "local_port" = Some (fmt_d port) /\
             subSection section port remotePort !! "remote_port" = Some (fmt_d remotePort)).
  { unfold subSection.
    rewrite !lookup_insert_ne by done. rewrite lookup_insert_eq.
    rewrite lookup_insert_ne by done. by rewrite lookup_insert_eq. }
  destruct Hkeys as (Hl1 & Hr1 & Hl2 & Hr2).
  pose proof (proj1 (Forall_lookup _ _) Hatoi i port Hi) as Hport. simpl in Hport.
  pose proof (proj1 (Forall_lookup _ _) Hparse i remotePort Hri) as Hrport. simpl in Hrport.
  intros sub' cfg. unfold NewProxyConfFromIni.
  destruct (String.eqb (get (subSection section port remotePort) "type") "");
    (destruct (NewConfByType _) as [z|]; [|by intros [= _ ?]]);
    (destruct (UnmarshalFromIni z prefix _ _) as [c|] eqn:Hc; simpl; [|by intros [= _ ?]]);
    (destruct (CheckForCli c); simpl; [|by intros [= _ ?]]);
    intros [= _ <-];
    destruct (UnmarshalFromIni_kind _ _ _ _ _ Hc) as (_ & _ & Hname);
    (split; [exact Hname|]); split.
  - intros Hp. by eapply UnmarshalFromIni_local_port.
  - by eapply UnmarshalFromIni_remote_port.
  - intros Hp. by eapply UnmarshalFromIni_local_port.
  - by eapply UnmarshalFromIni_remote_port.
Qed.

(** *** The keys that an INI section is read by *)

Lemma substring_all (s : string) : String.substring 0 (String.length s) s = s.
Proof using Type. induction s as [|c s IH]; simpl; [done|]. by rewrite IH. Qed.

Lemma prefix_split (p k : string) :
  String.prefix p k = true ->
  k = p ++ String.substring (String.length p) (String.length k - String.length p) k.
Proof using Type.
  revert k. induction p as [|c p IH]; intros k.
  - intros _. simpl. by rewrite Nat.sub_0_r, substring_all.
  - destruct k as [|c' k]; simpl; [done|].
    destruct (Ascii.ascii_dec c c') as [->|]; [|done].
    intros Hp. change (String c' k = String c' (p ++ String.substring (String.length p)
                                 (String.length k - String.length p) k)).
    f_equal. by apply IH.
Qed.

Lemma prefix_app (p h : string) : String.prefix p (p ++ h) = true.
Proof using Type.
  induction p as [|c p IH]; simpl; [by destruct h|].
  destruct (Ascii.ascii_dec c c); [exact IH|congruence].
Qed.

Lemma TrimPrefix_app (p h : string) : TrimPrefix (p ++ h) p = h.
Proof using Type.
  unfold TrimPrefix, HasPrefix. rewrite prefix_app.
  pose proof (prefix_split p (p ++ h) (prefix_app p h)) as Hsplit.
  by apply (inj (String.app p)) in Hsplit.
Qed.

Lemma HasPrefix_TrimPrefix (k p : string) :
  HasPrefix k p = true -> k = p ++ TrimPrefix k p.
Proof using Type.
  intros Hp. unfold TrimPrefix. rewrite Hp. by apply prefix_split.
Qed.

Lemma ini_headers_lookup (section : Section_) (h : string) :
  ini_headers section !! h = section !! ("header_" ++ h).
Proof using Type.
  unfold ini_headers.
  apply (map_fold_weak_ind
           (fun (headers : gmap string string) (m : Section_) =>
              headers !! h = m !! ("header_" ++ h))); [done|].
  intros k v m headers Hk IH.
  destruct (HasPrefix k "header_") eqn:Hp.
  - destruct (decide (TrimPrefix k "header_" = h)) as [<-|Hne].
    + rewrite lookup_insert_eq. rewrite <- (HasPrefix_TrimPrefix _ _ Hp).
      by rewrite lookup_insert_eq.
    + rewrite lookup_insert_ne by done. rewrite lookup_insert_ne; [done|].
      intros ->. apply Hne. apply (TrimPrefix_app "header_").
  - rewrite lookup_insert_ne; [done|].
    intros ->. unfold HasPrefix in Hp. by rewrite (prefix_app "header_") in Hp.
Qed.

(** The headers of an http proxy read from an INI section are the keys that
    begin with [header_], each under its name without that prefix and with
    its value: header [h] is set exactly when the section has the key
    [header_h]. The other settings of the section, among them [host_header_rewrite]
    and [http_user], are not headers unless spelled with the prefix. *)
Theorem UnmarshalFromIni_headers (c c' : HttpProxyConf) (prefix name : string)
    (section : Section_) :
  HttpProxyConf_UnmarshalFromIni c prefix name section = Ok c' ->
  (forall h, Headers c' !! h = section !! ("header_" ++ h)) /\
  size (Headers c') <= size section.
Proof using Type.
  unfold HttpProxyConf_UnmarshalFromIni.
  destruct (BaseProxyConf_UnmarshalFromIni _ _ _ _); simpl; [|done].
  intros [= <-]. simpl. split; [apply ini_headers_lookup|].
  unfold ini_headers.
  apply (map_fold_weak_ind
           (fun (headers : gmap string string) (m : Section_) => size headers <= size m)).
  - done.
  - intros k v m headers Hk IH. rewrite (map_size_insert_None k v m) by done.
    destruct (HasPrefix k "header_"); [|lia].
    rewrite map_size_insert. destruct (headers !! TrimPrefix k "header_"); simpl; lia.
Qed.

Lemma UnmarshalFromIni_local (z cfg : ProxyConf) (prefix name : string) (section : Section_) :
  UnmarshalFromIni z prefix name section = Ok cfg ->
  LocalSvrConf_UnmarshalFromIni (base_LocalSvrConf (GetBaseInfo z)) prefix name section =
    Ok (base_LocalSvrConf (GetBaseInfo cfg)).
Proof using Type.
  intros Hcfg.
  assert (Hbase : forall b b',
             BaseProxyConf_UnmarshalFromIni b prefix name section = Ok b' ->
             LocalSvrConf_UnmarshalFromIni (base_LocalSvrConf b) prefix name section =
               Ok (base_LocalSvrConf b')).
  { intros b b'. unfold BaseProxyConf_UnmarshalFromIni.
    destruct (LocalSvrConf_UnmarshalFromIni _ _ _ _) as [l|] eqn:Hl; simpl; [|done].
    destruct (HealthCheckConf_UnmarshalFromIni _ _ _ _); simpl; [|done].
    by intros [= <-]. }
  destruct z as [c|c|c|c|c|c]; simpl in Hcfg |- *;
    unfold TcpProxyConf_UnmarshalFromIni, UdpProxyConf_UnmarshalFromIni,
      HttpProxyConf_UnmarshalFromIni, HttpsProxyConf_UnmarshalFromIni,
      StcpProxyConf_UnmarshalFromIni, XtcpProxyConf_UnmarshalFromIni in Hcfg;
    (destruct (BaseProxyConf_UnmarshalFromIni _ _ _ _) as [b|] eqn:Hb; simpl in Hcfg;
     [|done]).
  1,2: destruct (BindInfoConf_UnmarshalFromIni _ _ _ _); simpl in Hcfg; [|done].
  1-4: injection Hcfg as <-; simpl; by apply Hbase.
  all: destruct (fail_if _ _); simpl in Hcfg; [|done].
  all: rewrite (BaseProxyConf_UnmarshalFromIni_local _ _ _ _ _ Hb) in Hcfg; simpl in Hcfg.
  all: injection Hcfg as <-; simpl; rewrite (Hbase _ _ Hb); by destruct b.
Qed.

Lemma NewConfByType_zero (t : string) (z : ProxyConf) :
  NewConfByType t = Some z -> GetBaseInfo z = BaseProxyConf_zero.
Proof using Type.
  unfold NewConfByType.
  repeat match goal with
         | |- context [String.eqb t ?x] => destruct (String.eqb t x)
         end; intros [= <-]; reflexivity.
Qed.

(** The local service of a proxy read from an INI section. With a plugin,
    [local_ip] and [local_port] are not read: the address stays empty and
    the port 0 whatever the section says, and the plugin parameters are
    exactly the keys of the section that begin with [plugin_]. Without a
    plugin there are no plugin parameters, the local port is the number that
    [local_port] holds, and a section whose [local_port] is missing or is
    not a number gives no configuration, whatever its type. *)
Theorem NewProxyConfFromIni_local_service (prefix name : string) (section : Section_) :
  (get section "plugin" = "" ->
   (forall tmpStr v, section !! "local_port" = Some tmpStr -> Atoi tmpStr <> Some v) ->
   exists e, (NewProxyConfFromIni prefix name section).2 = Err e) /\
  (forall cfg,
      (NewProxyConfFromIni prefix name section).2 = Ok cfg ->
      let l := base_LocalSvrConf (GetBaseInfo cfg) in
      Plugin l = get section "plugin" /\
      (Plugin l <> "" ->
       LocalIp l = "" /\ LocalPort l = 0%Z /\
       forall k v, PluginParams l !! k = Some v <->
                   section !! k = Some v /\ HasPrefix k "plugin_" = true) /\
      (Plugin l = "" ->
       PluginParams l = ∅ /\
       exists tmpStr, section !! "local_port" = Some tmpStr /\
                      Atoi tmpStr = Some (LocalPort l))).
Proof using Type.
  assert (Hrun : exists section',
             (section' = section \/ section' = <["type" := consts.TcpProxy]> section) /\
             forall cfg, (NewProxyConfFromIni prefix name section).2 = Ok cfg ->
               LocalSvrConf_UnmarshalFromIni LocalSvrConf_zero prefix name section' =
                 Ok (base_LocalSvrConf (GetBaseInfo cfg))).
  { unfold NewProxyConfFromIni.
    destruct (String.eqb (get section "type") "");
      [exists (<["type" := consts.TcpProxy]> section)|exists section];
      (split; [auto|]); intros cfg; cbn [snd];
      (destruct (NewConfByType _) as [z|] eqn:Hz; [|done]);
      (destruct (UnmarshalFromIni z prefix name _) as [c|] eqn:Hc; simpl; [|done]);
      (destruct (CheckForCli c); simpl; [|done]); intros [= <-];
      apply UnmarshalFromIni_local in Hc;
      by rewrite (NewConfByType_zero _ _ Hz) in Hc. }
  destruct Hrun as (section' & Hsec & Hrun).
  assert (Hkeys : forall k, k <> "type" -> section' !! k = section !! k).
  { intros k Hk. destruct Hsec as [->| ->]; [done|]. by rewrite lookup_insert_ne. }
  assert (Hplugin : get section' "plugin" = get section "plugin")
    by (unfold get; by rewrite Hkeys).
  split.
  - intros Hp Hbad.
    destruct ((NewProxyConfFromIni prefix name section).2) as [cfg|e] eqn:Hr; [|eauto].
    specialize (Hrun cfg eq_refl). exfalso. revert Hrun.
    unfold LocalSvrConf_UnmarshalFromIni. rewrite Hplugin, Hp. simpl.
    rewrite Hkeys by done.
    destruct (section !! "local_port") as [tmpStr|] eqn:Hkey; [|done].
    destruct (Atoi tmpStr) as [v|] eqn:Hv; [|done].
    by destruct (Hbad tmpStr v).
  - intros cfg Hcfg. specialize (Hrun cfg Hcfg). revert Hrun.
    generalize (base_LocalSvrConf (GetBaseInfo cfg)). intros l. cbv zeta.
    unfold LocalSvrConf_UnmarshalFromIni. rewrite Hplugin.
    destruct (String.eqb_spec (get section "plugin") "") as [Hp|Hp]; simpl.
    + rewrite Hkeys by done.
      destruct (section !! "local_port") as [tmpStr|] eqn:Hkey; [|done].
      destruct (Atoi tmpStr) as [v|] eqn:Hv; [|done].
      intros [= <-]. simpl. split; [done|]. split; [by rewrite Hp|].
      intros _. split; [done|]. eauto.
    + intros [= <-]. simpl. split; [done|]. split; [|done].
      intros _. split; [done|]. split; [done|].
      intros k v. rewrite map_lookup_filter_Some. simpl. split.
      * intros [Hk Hpre]. apply Is_true_true in Hpre. split; [|done].
        rewrite <- Hkeys; [done|]. intros ->. discriminate Hpre.
      * intros [Hk Hpre]. split; [|by apply Is_true_true].
        rewrite Hkeys; [done|]. intros ->. discriminate Hpre.
Qed.

End Construction.

(** *** Concrete instances for the examples

    The examples below run the construction on concrete sections; they need
    a concrete number reader and a concrete range parser. *)

Fixpoint read_digits (s : string) (acc : Z) : option Z :=
  match s with
  | EmptyString => Some acc
  | String c rest =>
      match digit_value c with
      | Some d => read_digits rest (10 * acc + d)%Z
      | None => None
      end
  end.

(** A reader of decimal numbers with an optional minus sign, standing in for
    [strconv.Atoi] and [strconv.ParseInt] on the example sections. *)
Definition sample_Atoi (s : string) : option Z :=
  match s with
  | EmptyString => None
  | String c rest =>
      if Ascii.eqb c "-" then
        (if String.eqb rest "" then None else Z.opp <$> read_digits rest 0)
      else read_digits s 0
  end.

Definition sample_range (item : string) : result (list Z) :=
  match Split item "-" with
  | [n] =>
      match sample_Atoi n with
      | Some v => Ok [v]
      | None => Err "range number is invalid"
      end
  | [lo; hi] =>
      match sample_Atoi lo, sample_Atoi hi with
      | Some a, Some b =>
          if (b <? a)%Z then Err "range number is invalid"
          else Ok (map (fun k => (a + Z.of_nat k)%Z) (seq 0 (Z.to_nat (b - a + 1))))
      | _, _ => Err "range number is invalid"
      end
  | _ => Err "range number is invalid"
  end.

Fixpoint sample_ranges (items : list string) : result (list Z) :=
  match items with
  | [] => Ok []
  | item :: rest =>
      do a <- sample_range item;
      do b <- sample_ranges rest;
      Ok (a ++ b)%list
  end.

(** Modelled from the spec: [util.ParseRangeNumbers] is not among the
    embedded files; the spec gives its input by the example
    [local_port=7000-7002,8000], numbers and [lo-hi] ranges separated by
    commas. The theorems above hold for any range parser; this one is used
    in the examples only. *)
Definition sample_ParseRangeNumbers (s : string) : result (list Z) :=
  sample_ranges (Split s ",").

Definition sampleRange : Section_ :=
  <["type" := "tcp"]> (<["local_port" := "7000-7002,8000"]>
    (<["remote_port" := "6000-6002,9000"]> ∅)).

Definition sampleRangeUneven : Section_ :=
  <["local_port" := "7000-7002"]> (<["remote_port" := "6000"]> ∅).

Definition sampleRangeBad : Section_ :=
  <["local_port" := "7000-"]> (<["remote_port" := "6000"]> ∅).

Example sampleRange_local :
  sample_ParseRangeNumbers (get sampleRange "local_port") = Ok [7000; 7001; 7002; 8000]%Z.
Proof. by vm_compute. Qed.

Example sampleRange_web_3 :
  match ParseRangeSection sample_ParseRangeNumbers "web" sampleRange with
  | Ok sections =>
      sub ← sections !! "web_3"; Some (get sub "local_port", get sub "remote_port")
  | Err _ => None
  end = Some ("8000", "9000").
Proof. by vm_compute. Qed.

(** The first part at [sampleRange], the second at [sampleRangeBad] and the
    third at [sampleRangeUneven]. *)
Lemma ParseRangeSection_pairs_witness :
  (exists sections,
      ParseRangeSection sample_ParseRangeNumbers "web" sampleRange = Ok sections /\
      size sections = 4 /\
      sections !! "web_3" =
        Some (<["remote_port" := "9000"]> (<["local_port" := "8000"]> sampleRange))) /\
  is_Ok (ParseRangeSection sample_ParseRangeNumbers "web" sampleRangeBad) = false /\
  is_Ok (ParseRangeSection sample_ParseRangeNumbers "web" sampleRangeUneven) = false.
Proof.
  split; [|split].
  - destruct (ParseRangeSection_pairs sample_ParseRangeNumbers "web" sampleRange)
      as (Hok & _ & _).
    destruct (Hok [7000; 7001; 7002; 8000]%Z [6000; 6001; 6002; 9000]%Z)
      as (sections & Hrun & Hsize & Hsub & _).
    + by vm_compute.
    + by vm_compute.
    + reflexivity.
    + discriminate.
    + exists sections. split; [exact Hrun|]. split; [exact Hsize|].
      apply (Hsub 3 8000%Z 9000%Z); reflexivity.
  - destruct (ParseRangeSection_pairs sample_ParseRangeNumbers "web" sampleRangeBad)
      as (_ & Hparse & _).
    apply Hparse. left. by vm_compute.
  - destruct (ParseRangeSection_pairs sample_ParseRangeNumbers "web" sampleRangeUneven)
      as (_ & _ & Hlen).
    apply (Hlen [7000; 7001; 7002]%Z [6000]%Z).
    + by vm_compute.
    + by vm_compute.
    + left. discriminate.
Defined.

(** A [NewProxy] message of the given type for a proxy named [ssh]. *)
Definition sampleMsg (proxyType : string) : Msg.NewProxy :=
  {| Msg.ProxyName := "ssh"; Msg.ProxyType := proxyType;
     Msg.UseEncryption := false; Msg.UseCompression := false;
     Msg.Group := ""; Msg.GroupKey := ""; Msg.RemotePort := 6000;
     Msg.CustomDomains := []; Msg.SubDomain := ""; Msg.Locations := [];
     Msg.HttpUser := ""; Msg.HttpPwd := ""; Msg.HostHeaderRewrite := "";
     Msg.Headers := ∅; Msg.Sk := "" |}.

(** The section [local_port = 22], [remote_port = 6000] with no [type], and
    the same with [type = ftp]. *)
Definition sampleSsh : Section_ :=
  <["local_port" := "22"]> (<["remote_port" := "6000"]> ∅).

Definition sampleFtp : Section_ := <["type" := "ftp"]> sampleSsh.

Example sampleSsh_is_tcp :
  (NewProxyConfFromIni sample_Atoi sample_Atoi id id "" "ssh" sampleSsh).2 =
  Ok (Tcp {| tcp_BaseProxyConf :=
               {| ProxyName := "ssh"; ProxyType := "tcp";
                  UseEncryption := false; UseCompression := false;
                  Group := ""; GroupKey := ""; ProxyProtocolVersion := "";
                  base_LocalSvrConf :=
                    {| LocalIp := "127.0.0.1"; LocalPort := 22; Plugin := "";
                       PluginParams := ∅ |};
                  base_HealthCheckConf := HealthCheckConf_zero |};
             tcp_BindInfoConf := {| RemotePort := 6000 |} |}).
Proof. by vm_compute. Qed.

(** The three parts at [sampleMsg ""], at [sampleSsh], and at the type
    [ftp]. *)
Lemma NewProxyConf_empty_type_is_tcp_witness :
  NewProxyConfFromMsg "" 0 0 (sampleMsg "") = NewProxyConfFromMsg "" 0 0 (sampleMsg "tcp") /\
  NewProxyConfFromIni sample_Atoi sample_Atoi id id "" "ssh" sampleSsh =
    NewProxyConfFromIni sample_Atoi sample_Atoi id id "" "ssh" (<["type" := "tcp"]> sampleSsh) /\
  NewProxyConfFromMsg "" 0 0 (sampleMsg "ftp") = (sampleMsg "ftp", Err (type_error "ssh" "ftp")) /\
  NewProxyConfFromIni sample_Atoi sample_Atoi id id "" "ssh" sampleFtp =
    (sampleFtp, Err (type_error "ssh" "ftp")).
Proof.
  destruct (NewProxyConf_empty_type_is_tcp sample_Atoi sample_Atoi id id "" 0%Z 0%Z)
    as (Hmsg & Hini & Hunknown).
  split; [|split; [|split]].
  - apply (Hmsg (sampleMsg "")). reflexivity.
  - apply (Hini "" "ssh" sampleSsh). by vm_compute.
  - apply (Hunknown "ftp"); [discriminate| |reflexivity].
    unfold known_types; simpl; intros H; decompose [or] H; discriminate || done.
  - apply (Hunknown "ftp"); [discriminate| |by vm_compute].
    unfold known_types; simpl; intros H; decompose [or] H; discriminate || done.
Defined.

(** *** Instances of the construction theorems *)

(** The configuration that [sampleSsh] gives, see [sampleSsh_is_tcp]. *)
Definition sampleSshConf : ProxyConf :=
  Tcp {| tcp_BaseProxyConf :=
           {| ProxyName := "ssh"; ProxyType := "tcp";
              UseEncryption := false; UseCompression := false;
              Group := ""; GroupKey := ""; ProxyProtocolVersion := "";
              base_LocalSvrConf :=
                {| LocalIp := "127.0.0.1"; LocalPort := 22; Plugin := "";
                   PluginParams := ∅ |};
              base_HealthCheckConf := HealthCheckConf_zero |};
         tcp_BindInfoConf := {| RemotePort := 6000 |} |}.

(** A web proxy with one custom domain and one header to set, as section
    and as message. *)
Definition sampleWeb : Section_ :=
  <["type" := "http"]> (<["local_port" := "80"]>
    (<["custom_domains" := "example.com"]> (<["header_X-From" := "frp"]> ∅))).

Definition sampleWebMsg : Msg.NewProxy :=
  {| Msg.ProxyName := "web"; Msg.ProxyType := "http";
     Msg.UseEncryption := false; Msg.UseCompression := false;
     Msg.Group := ""; Msg.GroupKey := ""; Msg.RemotePort := 0;
     Msg.CustomDomains := ["example.com"]; Msg.SubDomain := ""; Msg.Locations := [];
     Msg.HttpUser := ""; Msg.HttpPwd := ""; Msg.HostHeaderRewrite := "";
     Msg.Headers := ∅; Msg.Sk := "" |}.

Definition from_Ok {A} (d : A) (r : result A) : A :=
  match r with Ok a => a | Err _ => d end.

Definition sampleWebZero : HttpProxyConf :=
  {| http_BaseProxyConf := BaseProxyConf_zero; http_DomainConf := DomainConf_zero;
     Locations := []; HttpUser := ""; HttpPwd := ""; HostHeaderRewrite := "";
     Headers := ∅ |}.

Definition sampleWebConf : HttpProxyConf :=
  from_Ok sampleWebZero
    (HttpProxyConf_UnmarshalFromIni sample_Atoi id id sampleWebZero "" "web" sampleWeb).

Definition sampleWebSvrConf : ProxyConf :=
  from_Ok sampleSshConf (NewProxyConfFromMsg "frps.com" 80 0 sampleWebMsg).2.

Definition sampleRangeSections : gmap string Section_ :=
  from_Ok ∅ (ParseRangeSection sample_ParseRangeNumbers "web" sampleRange).

Lemma NewProxyConf_type_field_witness :
  ProxyType (GetBaseInfo sampleSshConf) = kind sampleSshConf /\
  get (<["type" := "tcp"]> sampleSsh) "type" = kind sampleSshConf /\
  ProxyName (GetBaseInfo sampleSshConf) = "" ++ "ssh".
Proof.
  apply (proj2 (NewProxyConf_type_field sample_Atoi sample_Atoi id id "" 0%Z 0%Z)
           "" "ssh" sampleSsh (<["type" := "tcp"]> sampleSsh) sampleSshConf).
  by vm_compute.
Defined.

Lemma Marshal_Unmarshal_round_trip_witness :
  UnmarshalFromMsg sampleSshConf (MarshalToMsg sampleSshConf (sampleMsg "")) = sampleSshConf /\
  (NewProxyConfFromMsg "" 0 0 (MarshalToMsg sampleSshConf (sampleMsg ""))).1 =
    MarshalToMsg sampleSshConf (sampleMsg "").
Proof.
  destruct (Marshal_Unmarshal_round_trip "" 0%Z 0%Z sampleSshConf (sampleMsg ""))
    as (Hback & Hmsg & _).
  - reflexivity.
  - split; [exact Hback|exact Hmsg].
Defined.

Lemma NewProxyConfFromIni_accepted_witness : cli_ok sampleSshConf.
Proof.
  apply (NewProxyConfFromIni_accepted sample_Atoi sample_Atoi id id
           "" "ssh" sampleSsh (<["type" := "tcp"]> sampleSsh)).
  by vm_compute.
Defined.

Lemma NewProxyConfFromMsg_accepted_witness :
  (exists cfg, (NewProxyConfFromMsg "frps.com" 80 0 (sampleMsg "udp")).2 = Ok cfg) /\
  svr_ok "frps.com" 80 0 sampleWebSvrConf.
Proof.
  split.
  - apply (proj1 (NewProxyConfFromMsg_accepted "frps.com" 80%Z 0%Z (sampleMsg "udp"))).
    simpl. auto.
  - apply (proj2 (NewProxyConfFromMsg_accepted "frps.com" 80%Z 0%Z sampleWebMsg)).
    by vm_compute.
Defined.

(** A tcp proxy with a tcp health check on the local port [port]. *)
Definition sampleHealth (port : string) : Section_ :=
  <["type" := "tcp"]> (<["health_check_type" := "tcp"]>
    (<["local_port" := port]> (<["remote_port" := "6000"]> ∅))).

Definition sampleHealthConf (port : string) : ProxyConf :=
  from_Ok sampleSshConf
    (UnmarshalFromIni sample_Atoi sample_Atoi id id (Tcp TcpProxyConf_zero)
       "" "ssh" (sampleHealth port)).

Lemma sampleHealthConf_built (port : string) :
  In port ["22"; "23"] -> ini_built sample_Atoi sample_Atoi id id (sampleHealthConf port).
Proof.
  intros Hport.
  exists "tcp", (Tcp TcpProxyConf_zero), "", "ssh", (sampleHealth port).
  simpl in Hport. destruct Hport as [<-|[<-|[]]]; split; by vm_compute.
Qed.

(** Two configurations read from sections that differ in the local port
    only: their health-check addresses differ with the port, and [Compare]
    sees the change. *)
Lemma Compare_ini_built_witness :
  HealthCheckAddr (base_HealthCheckConf (GetBaseInfo (sampleHealthConf "22"))) =
    "127.0.0.1:22" /\
  HealthCheckAddr (base_HealthCheckConf (GetBaseInfo (sampleHealthConf "23"))) =
    "127.0.0.1:23" /\
  Compare (sampleHealthConf "22") (sampleHealthConf "23") = false /\
  (Compare (sampleHealthConf "22") (sampleHealthConf "23") = true <->
   sampleHealthConf "22" = sampleHealthConf "23") /\
  (Compare (sampleHealthConf "22") (sampleHealthConf "22") = true <->
   sampleHealthConf "22" = sampleHealthConf "22").
Proof.
  split; [by vm_compute|]. split; [by vm_compute|]. split; [by vm_compute|]. split.
  - apply (Compare_ini_built sample_Atoi sample_Atoi id id
             (sampleHealthConf "22") (sampleHealthConf "23")).
    + apply sampleHealthConf_built. simpl. auto.
    + apply sampleHealthConf_built. simpl. auto.
    + simpl. auto.
  - apply (Compare_ini_built sample_Atoi sample_Atoi id id
             (sampleHealthConf "22") (sampleHealthConf "22")).
    + apply sampleHealthConf_built. simpl. auto.
    + apply sampleHealthConf_built. simpl. auto.
    + simpl. auto.
Defined.

Lemma range_section_proxies_witness :
  exists sub,
    sampleRangeSections !! subName "web" 3 = Some sub /\
    forall sub' cfg,
      NewProxyConfFromIni sample_Atoi sample_Atoi id id "" (subName "web" 3) sub =
        (sub', Ok cfg) ->
      ProxyName (GetBaseInfo cfg) = "" ++ subName "web" 3 /\
      (Plugin (base_LocalSvrConf (GetBaseInfo cfg)) = "" ->
       LocalPort (base_LocalSvrConf (GetBaseInfo cfg)) = 8000%Z) /\
      match cfg with
      | Tcp c => RemotePort (tcp_BindInfoConf c) = 9000%Z
      | Udp c => RemotePort (udp_BindInfoConf c) = 9000%Z
      | _ => True
      end.
Proof.
  apply (range_section_proxies sample_Atoi sample_Atoi id id sample_ParseRangeNumbers
           "" "web" sampleRange [7000; 7001; 7002; 8000]%Z [6000; 6001; 6002; 9000]%Z
           sampleRangeSections).
  - by vm_compute.
  - by vm_compute.
  - by vm_compute.
  - repeat constructor; by vm_compute.
  - repeat constructor; by vm_compute.
  - reflexivity.
  - reflexivity.
Defined.

Lemma UnmarshalFromIni_headers_witness :
  (forall h, Headers sampleWebConf !! h = sampleWeb !! ("header_" ++ h)) /\
  size (Headers sampleWebConf) <= size sampleWeb.
Proof.
  apply (UnmarshalFromIni_headers sample_Atoi id id sampleWebZero sampleWebConf
           "" "web" sampleWeb).
  by vm_compute.
Defined.

Lemma NewProxyConfFromIni_local_service_witness :
  (exists e, (NewProxyConfFromIni sample_Atoi sample_Atoi id id "" "ssh" ∅).2 = Err e) /\
  exists tmpStr, sampleSsh !! "local_port" = Some tmpStr /\
                 sample_Atoi tmpStr = Some (LocalPort (base_LocalSvrConf (GetBaseInfo sampleSshConf))).
Proof.
  split.
  - apply (proj1 (NewProxyConfFromIni_local_service sample_Atoi sample_Atoi id id "" "ssh" ∅)).
    + reflexivity.
    + intros tmpStr v Hkey. discriminate Hkey.
  - apply (proj2 (NewProxyConfFromIni_local_service sample_Atoi sample_Atoi id id
                    "" "ssh" sampleSsh) sampleSshConf).
    + by vm_compute.
    + reflexivity.
Defined.

(** *** Reload and lists with a space

    Two sections for the web proxy [web] that differ in [custom_domains]
    and in [locations]: one entry with a space in the first, two entries in
    the second. *)
Definition sampleWebSpace : Section_ :=
  <["type" := "http"]> (<["local_port" := "80"]>
    (<["custom_domains" := "a.com b.com"]> (<["locations" := "/a /b"]> ∅))).

Definition sampleWebComma : Section_ :=
  <["type" := "http"]> (<["local_port" := "80"]>
    (<["custom_domains" := "a.com,b.com"]> (<["locations" := "/a,/b"]> ∅))).

(** C4: [Compare] is to return true only for configurations with equal
    attributes, and never for two HTTP proxies with distinct
    [custom_domains] or [locations] lists. At the configurations that the
    client reads from [sampleWebSpace] and from [sampleWebComma] it returns
    true, although the first has the one custom domain [a.com b.com] and the
    one location [/a /b] and the second has two of each. *)
Theorem Compare_misses_list_change :
  match (NewProxyConfFromIni sample_Atoi sample_Atoi id id "" "web" sampleWebSpace).2,
        (NewProxyConfFromIni sample_Atoi sample_Atoi id id "" "web" sampleWebComma).2 with
  | Ok (Http c), Ok (Http d) =>
      CustomDomains (http_DomainConf c) = ["a.com b.com"] /\
      CustomDomains (http_DomainConf d) = ["a.com"; "b.com"] /\
      Locations c = ["/a /b"] /\
      Locations d = ["/a"; "/b"] /\
      Http c <> Http d /\
      Compare (Http c) (Http d) = true /\
      Compare (Http d) (Http c) = true
  | _, _ => False
  end.
Proof.
  vm_compute. repeat split; discriminate.
Qed.

End Config.

(** ** client/proxy: the client's proxy handlers *)

Module ClientProxy.

(** *** The UDP proxy and its [Close]

    A connection and a channel are shared objects that the proxy refers to;
    the store records which of them were closed. Closing a connection again
    only returns an error, which [Close] drops; closing a channel again
    panics. *)

Record Store := {
  closedConns : gset nat;
  closedPacketChans : gset nat;   (* chan *msg.UdpPacket *)
  closedMessageChans : gset nat   (* chan msg.Message *)
}.

(** [UdpProxy] with the [closed] flag of its [BaseProxy]; [None] is [nil]. *)
Record UdpProxy := {
  closed : bool;
  workConn : option nat;
  readCh : option nat;
  sendCh : option nat
}.

Record World := { pxy : UdpProxy; store : Store }.

(** [conn.Close()] *)
Definition conn_Close (c : nat) (st : Store) : Store :=
  {| closedConns := {[c]} ∪ closedConns st;
     closedPacketChans := closedPacketChans st;
     closedMessageChans := closedMessageChans st |}.

(** [close(ch)] on a channel of packets and on a channel of messages. *)
Definition close_packet_chan (ch : nat) (st : Store) : result Store :=
  if decide (ch ∈ closedPacketChans st) then Err "panic: close of closed channel"
  else Ok {| closedConns := closedConns st;
             closedPacketChans := {[ch]} ∪ closedPacketChans st;
             closedMessageChans := closedMessageChans st |}.

Definition close_message_chan (ch : nat) (st : Store) : result Store :=
  if decide (ch ∈ closedMessageChans st) then Err "panic: close of closed channel"
  else Ok {| closedConns := closedConns st;
             closedPacketChans := closedPacketChans st;
             closedMessageChans := {[ch]} ∪ closedMessageChans st |}.

(** [UdpProxy.Close]; the mutex makes the body one step. *)
Definition Close (w : World) : result World :=
  if negb (closed (pxy w)) then
    let p := {| closed := true; workConn := workConn (pxy w);
                readCh := readCh (pxy w); sendCh := sendCh (pxy w) |} in
    let st := match workConn p with
              | Some c => conn_Close c (store w)
              | None => store w
              end in
    do st <- match readCh p with
             | Some ch => close_packet_chan ch st
             | None => Ok st
             end;
    do st <- match sendCh p with
             | Some ch => close_message_chan ch st
             | None => Ok st
             end;
    Ok {| pxy := p; store := st |}
  else Ok w.

(** The first steps of [UdpProxy.InWorkConn]: close what belongs to the old
    work connection, then take the new connection and two new channels. *)
Definition InWorkConn_install (conn newReadCh newSendCh : nat) (w : World) : result World :=
  do w <- Close w;
  Ok {| pxy := {| closed := false; workConn := Some conn;
                  readCh := Some newReadCh; sendCh := Some newSendCh |};
        store := store w |}.

(** An open proxy holds channels that were not closed. *)
Definition channels_open (w : World) : Prop :=
  closed (pxy w) = false ->
  (forall ch, readCh (pxy w) = Some ch -> ch ∉ closedPacketChans (store w)) /\
  (forall ch, sendCh (pxy w) = Some ch -> ch ∉ closedMessageChans (store w)).

Lemma Close_closed (w : World) : closed (pxy w) = true -> Close w = Ok w.
Proof. intros H. unfold Close. by rewrite H. Qed.

Lemma Close_sets_closed (w w' : World) : Close w = Ok w' -> closed (pxy w') = true.
Proof.
  unfold Close. destruct (closed (pxy w)) eqn:Hc; simpl.
  - by intros [= <-].
  - destruct (match readCh (pxy w) with Some _ => _ | None => _ end); simpl; [|done].
    destruct (match sendCh (pxy w) with Some _ => _ | None => _ end); simpl; [|done].
    by intros [= <-].
Qed.

(** From a state whose channels are open, [Close] does not panic. *)
Lemma Close_total (w : World) : channels_open w -> exists w', Close w = Ok w'.
Proof.
  intros Hopen. unfold Close. destruct (closed (pxy w)) eqn:Hc; simpl; [eauto|].
  destruct (Hopen Hc) as [Hr Hs].
  destruct (readCh (pxy w)) as [r|] eqn:Hrd, (sendCh (pxy w)) as [s|] eqn:Hsd;
    unfold close_packet_chan, close_message_chan; simpl;
    repeat (case_decide; simpl); eauto;
    try (exfalso; by eapply Hr); try (exfalso; by eapply Hs);
    destruct (workConn (pxy w)); simpl in *;
    try (exfalso; by eapply Hr); try (exfalso; by eapply Hs).
Qed.

(** What the first [Close] of an open proxy closes. *)
Lemma Close_open_closes (w w' : World) :
  closed (pxy w) = false -> Close w = Ok w' ->
  (forall c, workConn (pxy w) = Some c -> c ∈ closedConns (store w')) /\
  (forall ch, readCh (pxy w) = Some ch -> ch ∈ closedPacketChans (store w')) /\
  (forall ch, sendCh (pxy w) = Some ch -> ch ∈ closedMessageChans (store w')).
Proof.
  intros Hc. unfold Close. rewrite Hc. simpl.
  destruct (workConn (pxy w)) as [c|], (readCh (pxy w)) as [r|], (sendCh (pxy w)) as [s|];
    unfold close_packet_chan, close_message_chan; simpl;
    repeat (case_decide; simpl); try discriminate;
    intros [= <-]; simpl; repeat split; intros ? [= <-] || intros ? [=]; set_solver.
Qed.

(** [Close] closes no channel but the two of the proxy. *)
Lemma Close_closes_only (w w' : World) :
  Close w = Ok w' ->
  (forall ch, ch ∈ closedPacketChans (store w') ->
              ch ∈ closedPacketChans (store w) \/ readCh (pxy w) = Some ch) /\
  (forall ch, ch ∈ closedMessageChans (store w') ->
              ch ∈ closedMessageChans (store w) \/ sendCh (pxy w) = Some ch).
Proof.
  unfold Close. destruct (closed (pxy w)); simpl.
  - intros [= <-]. by split; left.
  - destruct (workConn (pxy w)) as [c|], (readCh (pxy w)) as [r|],
      (sendCh (pxy w)) as [sd|];
      unfold close_packet_chan, close_message_chan; simpl;
      repeat (case_decide; simpl); try discriminate;
      intros [= <-]; simpl; split; intros ch;
      rewrite ?elem_of_union, ?elem_of_singleton;
      try (intros [->|?]); auto.
Qed.

(** Taking a new work connection with channels that were never closed
    leaves the proxy open with open channels, so the next [Close] does not
    panic either. *)
Lemma InWorkConn_install_open (conn newReadCh newSendCh : nat) (w w' : World) :
  newReadCh ∉ closedPacketChans (store w) ->
  newSendCh ∉ closedMessageChans (store w) ->
  readCh (pxy w) <> Some newReadCh ->
  sendCh (pxy w) <> Some newSendCh ->
  InWorkConn_install conn newReadCh newSendCh w = Ok w' ->
  channels_open w' /\ closed (pxy w') = false.
Proof.
  intros Hr Hs Hrne Hsne. unfold InWorkConn_install.
  destruct (Close w) as [w1|e] eqn:Hw; simpl; [|done].
  destruct (Close_closes_only _ _ Hw) as [Hpk Hmsg].
  intros Hw'. injection Hw' as <-. split; [|done]. intros _. simpl. split.
  - intros ch Hch. injection Hch as <-. intros [?|?]%Hpk; done.
  - intros ch Hch. injection Hch as <-. intros [?|?]%Hmsg; done.
Qed.

(** C9: [Close] on a UDP proxy is idempotent. [Close] followed by [Close] is
    [Close]; on a proxy that is already closed it changes nothing; the state
    a [Close] leaves is closed, and a further [Close] leaves it as it is;
    the first [Close] of an open proxy closes its work connection and both
    its channels, and it does not panic when those channels are open. *)
Theorem Close_idempotent (w : World) :
  (do w1 <- Close w; Close w1) = Close w /\
  (closed (pxy w) = true -> Close w = Ok w) /\
  (forall w', Close w = Ok w' ->
     closed (pxy w') = true /\
     Close w' = Ok w' /\
     (closed (pxy w) = false ->
        (forall c, workConn (pxy w) = Some c -> c ∈ closedConns (store w')) /\
        (forall ch, readCh (pxy w) = Some ch -> ch ∈ closedPacketChans (store w')) /\
        (forall ch, sendCh (pxy w) = Some ch -> ch ∈ closedMessageChans (store w')))) /\
  (channels_open w -> exists w', Close w = Ok w').
Proof.
  split; [|split; [|split]].
  - destruct (Close w) as [w1|e] eqn:Hw; simpl; [|done].
    apply Close_closed. by eapply Close_sets_closed.
  - apply Close_closed.
  - intros w' Hw. split; [by eapply Close_sets_closed|]. split.
    + apply Close_closed. by eapply Close_sets_closed.
    + intros Hc. by apply Close_open_closes.
  - apply Close_total.
Qed.

(** An open UDP proxy on connection 1 with channels 2 and 3, nothing closed
    yet. *)
Definition sampleWorld : World :=
  {| pxy := {| closed := false; workConn := Some 1; readCh := Some 2; sendCh := Some 3 |};
     store := {| closedConns := ∅; closedPacketChans := ∅; closedMessageChans := ∅ |} |}.

Definition sampleWorldClosed : World :=
  {| pxy := {| closed := true; workConn := Some 1; readCh := Some 2; sendCh := Some 3 |};
     store := {| closedConns := {[1]} ∪ ∅; closedPacketChans := {[2]} ∪ ∅;
                 closedMessageChans := {[3]} ∪ ∅ |} |}.

Example Close_sampleWorld : Close sampleWorld = Ok sampleWorldClosed.
Proof. reflexivity. Qed.

Lemma Close_idempotent_witness :
  Close sampleWorldClosed = Ok sampleWorldClosed /\
  1 ∈ closedConns (store sampleWorldClosed) /\
  2 ∈ closedPacketChans (store sampleWorldClosed) /\
  3 ∈ closedMessageChans (store sampleWorldClosed) /\
  exists w', Close sampleWorld = Ok w'.
Proof.
  destruct (Close_idempotent sampleWorld) as (_ & _ & Hrun & Htotal).
  destruct (Hrun sampleWorldClosed eq_refl) as (_ & Hagain & Hclosed).
  destruct (Hclosed eq_refl) as (Hconn & Hread & Hsend).
  split; [exact Hagain|].
  split; [apply Hconn; reflexivity|].
  split; [apply Hread; reflexivity|].
  split; [apply Hsend; reflexivity|].
  apply Htotal. intros _. simpl. split; intros ? _; set_solver.
Defined.

(** [InWorkConn] on a proxy whose channels are open, with a new connection
    and two channels made for it: it does not panic; an open proxy has its
    old work connection and both old channels closed, a closed one has
    nothing closed again; the proxy is left open on the new connection and
    the new channels, which are open, so that the next [Close] or
    [InWorkConn] does not panic either. *)
Theorem InWorkConn_install_replaces (conn newReadCh newSendCh : nat) (w : World) :
  channels_open w ->
  newReadCh ∉ closedPacketChans (store w) ->
  newSendCh ∉ closedMessageChans (store w) ->
  readCh (pxy w) <> Some newReadCh ->
  sendCh (pxy w) <> Some newSendCh ->
  exists w',
    InWorkConn_install conn newReadCh newSendCh w = Ok w' /\
    pxy w' = {| closed := false; workConn := Some conn;
                readCh := Some newReadCh; sendCh := Some newSendCh |} /\
    channels_open w' /\
    (closed (pxy w) = false ->
     (forall c, workConn (pxy w) = Some c -> c ∈ closedConns (store w')) /\
     (forall ch, readCh (pxy w) = Some ch -> ch ∈ closedPacketChans (store w')) /\
     (forall ch, sendCh (pxy w) = Some ch -> ch ∈ closedMessageChans (store w'))) /\
    (closed (pxy w) = true -> store w' = store w) /\
    (exists w'', Close w' = Ok w'').
Proof.
  intros Hopen Hr Hs Hrne Hsne.
  destruct (Close_total w Hopen) as [w1 Hclose].
  assert (Hrun : InWorkConn_install conn newReadCh newSendCh w =
                 Ok {| pxy := {| closed := false; workConn := Some conn;
                                 readCh := Some newReadCh; sendCh := Some newSendCh |};
                       store := store w1 |}).
  { unfold InWorkConn_install. by rewrite Hclose. }
  eexists. split; [exact Hrun|]. split; [done|].
  destruct (InWorkConn_install_open _ _ _ _ _ Hr Hs Hrne Hsne Hrun) as [Hopen' _].
  split; [exact Hopen'|]. split; [|split].
  - intros Hc. simpl. by apply Close_open_closes.
  - intros Hc. rewrite (Close_closed w Hc) in Hclose. by injection Hclose as <-.
  - by apply Close_total.
Qed.

(** A second work connection 4 with channels 5 and 6 for [sampleWorld]:
    connection 1 and channels 2 and 3 are closed. *)
Lemma InWorkConn_install_replaces_witness :
  exists w',
    InWorkConn_install 4 5 6 sampleWorld = Ok w' /\
    pxy w' = {| closed := false; workConn := Some 4; readCh := Some 5; sendCh := Some 6 |} /\
    1 ∈ closedConns (store w') /\
    2 ∈ closedPacketChans (store w') /\
    3 ∈ closedMessageChans (store w').
Proof.
  destruct (InWorkConn_install_replaces 4 5 6 sampleWorld)
    as (w' & Hrun & Hpxy & _ & Hold & _ & _).
  - intros _. simpl. split; intros ? _; set_solver.
  - simpl. set_solver.
  - simpl. set_solver.
  - discriminate.
  - discriminate.
  - destruct (Hold eq_refl) as (Hconn & Hread & Hsend).
    exists w'. split; [exact Hrun|]. split; [exact Hpxy|].
    split; [by apply Hconn|]. split; [by apply Hread|by apply Hsend].
Defined.


(** *** Go's [net.IP]

    [net.ParseIP] and [IP.To16] belong to Go's library, not to the
    repository; they are written here after the library, an address being
    its list of bytes and [nil] the empty list. An IPv4 address is parsed
    into the 16 bytes of its IPv4-in-IPv6 form. The IPv6 reader is left
    open: the handler depends on it only through the length of what it
    returns. *)

Definition IP := list Z.

Definition v4InV6Prefix : list Z := [0; 0; 0; 0; 0; 0; 0; 0; 0; 0; 255; 255]%Z.

Definition IPv4 (a b c d : Z) : IP := (v4InV6Prefix ++ [a; b; c; d])%list.

Definition To16 (ip : IP) : IP :=
  match ip with
  | [a; b; c; d] => IPv4 a b c d
  | _ => if Nat.eqb (length ip) 16 then ip else []
  end.

Definition big : Z := 16777215.

(** [dtoi]: the decimal number at the start of [s], how many bytes it takes,
    and the rest of [s]; it fails on no digit and on a number that gets too
    big. *)
Fixpoint dtoi_loop (s : string) (n : Z) (i : nat) : option (Z * nat * string) :=
  match s with
  | EmptyString => Some (n, i, s)
  | String c rest =>
      match Strings.digit_value c with
      | Some d =>
          let n := (n * 10 + d)%Z in
          if (big <=? n)%Z then None else dtoi_loop rest n (S i)
      | None => Some (n, i, s)
      end
  end.

Definition dtoi (s : string) : option (Z * string) :=
  match dtoi_loop s 0 0 with
  | Some (n, i, rest) => if Nat.eqb i 0 then None else Some (n, rest)
  | None => None
  end.

(** The loop of [parseIPv4] over the [k] octets still to read. *)
Fixpoint parseIPv4_loop (k : nat) (first : bool) (s : string) (p : list Z)
  : option (list Z * string) :=
  match k with
  | 0 => Some (p, s)
  | S k =>
      match s with
      | EmptyString => None (* missing octets *)
      | String c rest =>
          let after_dot :=
            if first then Some s
            else if Ascii.eqb c "." then Some rest else None in
          match after_dot with
          | None => None
          | Some s =>
              match dtoi s with
              | Some (n, s) =>
                  if (255 <? n)%Z then None
                  else parseIPv4_loop k false s (p ++ [n])%list
              | None => None
              end
          end
      end
  end.

Definition parseIPv4 (s : string) : IP :=
  match parseIPv4_loop 4 true s [] with
  | Some ([a; b; c; d], EmptyString) => IPv4 a b c d
  | _ => []
  end.

(** *** PROXY protocol headers and the handler of TCP work connections *)

(** [pp.Header] of go-proxyproto; the zero transport protocol is [UNSPEC]. *)
Inductive AddressFamilyAndProtocol := UNSPEC | TCPv4 | TCPv6.

Record Header := {
  Version : Z;
  TransportProtocol : AddressFamilyAndProtocol;
  SourceAddress : IP;
  DestinationAddress : IP;
  SourcePort : Z;
  DestinationPort : Z
}.

(** What the handler does to the world, in order. *)
Inductive event :=
| WorkConnClose
| PluginHandle (extraInfo : list Z)
| LocalWrite (data : list Z)
| Join.

Section WorkConn.

(** Taken from outside: the IPv6 reader of Go's library and the encoder of
    go-proxyproto. *)
Variable parseIPv6 : string -> IP.
Variable Header_WriteTo : Header -> list Z.

(** [net.ParseIP]: the first ['.'] or [':'] decides the reader. *)
Fixpoint ParseIP_scan (s rest : string) : IP :=
  match rest with
  | EmptyString => []
  | String c rest =>
      if Ascii.eqb c "." then parseIPv4 s
      else if Ascii.eqb c ":" then parseIPv6 s
      else ParseIP_scan s rest
  end.

Definition ParseIP (s : string) : IP := ParseIP_scan s s.

(** [m.DstAddr = addr] *)
Definition set_DstAddr (m : Msg.StartWorkConn) (addr : string) : Msg.StartWorkConn :=
  {| Msg.swc_ProxyName := Msg.swc_ProxyName m;
     Msg.SrcAddr := Msg.SrcAddr m;
     Msg.DstAddr := addr;
     Msg.SrcPort := Msg.SrcPort m;
     Msg.DstPort := Msg.DstPort m |}.

(** The header the handler builds once it has decided to send one. *)
Definition build_header (baseInfo : Config.BaseProxyConf) (m : Msg.StartWorkConn) : Header :=
  let src := ParseIP (Msg.SrcAddr m) in
  {| Version :=
       if String.eqb (Config.ProxyProtocolVersion baseInfo) "v1" then 1
       else if String.eqb (Config.ProxyProtocolVersion baseInfo) "v2" then 2
       else 0;
     TransportProtocol :=
       match To16 src with
       | [] => TCPv4
       | _ => TCPv6
       end;
     SourceAddress := src;
     DestinationAddress := ParseIP (Msg.DstAddr m);
     SourcePort := Msg.SrcPort m;
     DestinationPort := Msg.DstPort m |}.

(** "check if we need to send proxy protocol info": the message as the
    handler leaves it, and the header if one is built. *)
Definition proxy_protocol_info (baseInfo : Config.BaseProxyConf) (m : Msg.StartWorkConn)
  : Msg.StartWorkConn * option Header :=
  if negb (String.eqb (Config.ProxyProtocolVersion baseInfo) "") then
    if negb (String.eqb (Msg.SrcAddr m) "") && negb (Msg.SrcPort m =? 0)%Z then
      let m := if String.eqb (Msg.DstAddr m) "" then set_DstAddr m "127.0.0.1" else m in
      (m, Some (build_header baseInfo m))
    else (m, None)
  else (m, None).

(** [HandleTcpWorkConnection]. [proxyPlugin] is the plugin, if one is set;
    [encryption_fails] and [dial_fails] say whether wrapping the work
    connection and connecting to the local service return an error. The
    result is the message as the handler leaves it and what the handler
    did. *)
Definition HandleTcpWorkConnection (localInfo : Config.LocalSvrConf)
    (proxyPlugin : option string) (baseInfo : Config.BaseProxyConf)
    (encryption_fails dial_fails : bool) (m : Msg.StartWorkConn)
  : Msg.StartWorkConn * list event :=
  if Config.UseEncryption baseInfo && encryption_fails then (m, [WorkConnClose])
  else
    let '(m, h) := proxy_protocol_info baseInfo m in
    let extraInfo := match h with
                     | Some h => Header_WriteTo h
                     | None => []
                     end in
    match proxyPlugin with
    | Some _ =>
        (* if plugin is set, let plugin handle connections first *)
        (m, [PluginHandle extraInfo])
    | None =>
        if dial_fails then (m, [WorkConnClose])
        else if (0 <? length extraInfo)%nat then (m, [LocalWrite extraInfo; Join])
        else (m, [Join])
    end.

(** A work connection for a user at 1.2.3.4:1234, and a proxy with the
    given PROXY protocol version and a local service at 127.0.0.1:80. *)
Definition sampleStart : Msg.StartWorkConn :=
  {| Msg.swc_ProxyName := "web"; Msg.SrcAddr := "1.2.3.4"; Msg.DstAddr := "";
     Msg.SrcPort := 1234; Msg.DstPort := 80 |}.

Definition sampleLocal : Config.LocalSvrConf :=
  {| Config.LocalIp := "127.0.0.1"; Config.LocalPort := 80;
     Config.Plugin := ""; Config.PluginParams := ∅ |}.

Definition sampleBaseInfo (version : string) : Config.BaseProxyConf :=
  {| Config.ProxyName := "web"; Config.ProxyType := "tcp";
     Config.UseEncryption := false; Config.UseCompression := false;
     Config.Group := ""; Config.GroupKey := "";
     Config.ProxyProtocolVersion := version;
     Config.base_LocalSvrConf := sampleLocal;
     Config.base_HealthCheckConf := Config.HealthCheckConf_zero |}.

(** The header the handler builds for [sampleStart]. *)
Definition sampleHeader (version : Z) : Header :=
  {| Version := version;
     TransportProtocol := TCPv6;
     SourceAddress := IPv4 1 2 3 4;
     DestinationAddress := IPv4 127 0 0 1;
     SourcePort := 1234;
     DestinationPort := 80 |}.

(** *** Facts about the handler *)

Lemma parseIPv4_nil_or_16 (s : string) :
  parseIPv4 s = [] \/ length (parseIPv4 s) = 16.
Proof.
  unfold parseIPv4. destruct (parseIPv4_loop 4 true s []) as [[p rest]|]; [|by left].
  destruct p as [|a [|b [|c [|d [|e p]]]]]; try by left.
  destruct rest; [by right | by left].
Qed.

(** The handler chooses [TCPv4] exactly when [To16] of the parsed source
    address is [nil]. *)
Lemma build_header_TCPv4_iff (baseInfo : Config.BaseProxyConf) (m : Msg.StartWorkConn) :
  TransportProtocol (build_header baseInfo m) = TCPv4 <->
  To16 (ParseIP (Msg.SrcAddr m)) = [].
Proof.
  unfold build_header. simpl. destruct (To16 _); split; done.
Qed.

(** An address of 16 bytes, which is what parsing an IPv4 address gives,
    gets [TCPv6]. *)
Lemma build_header_16_TCPv6 (baseInfo : Config.BaseProxyConf) (m : Msg.StartWorkConn) :
  length (ParseIP (Msg.SrcAddr m)) = 16 ->
  TransportProtocol (build_header baseInfo m) = TCPv6.
Proof.
  intros Hlen. unfold build_header. simpl.
  destruct (ParseIP (Msg.SrcAddr m)) as [|a [|b [|c [|d [|e p]]]]]; try discriminate.
  unfold To16. rewrite Hlen. done.
Qed.

(** No header is built without a source address or without a source port,
    and none without a PROXY protocol version. *)
Lemma proxy_protocol_info_unknown_source (baseInfo : Config.BaseProxyConf)
    (m : Msg.StartWorkConn) :
  Msg.SrcAddr m = "" \/ Msg.SrcPort m = 0%Z \/ Config.ProxyProtocolVersion baseInfo = "" ->
  proxy_protocol_info baseInfo m = (m, None).
Proof.
  unfold proxy_protocol_info. intros [H|[H|H]]; rewrite H; simpl.
  - by destruct (negb _).
  - rewrite andb_false_r. by destruct (negb _).
  - done.
Qed.

(** With no plugin and a local service that accepts the connection, the
    header is written to the local connection before the two connections
    are joined, and nothing is written when there is no header. *)
Lemma HandleTcpWorkConnection_header_first (localInfo : Config.LocalSvrConf)
    (baseInfo : Config.BaseProxyConf) (m : Msg.StartWorkConn) :
  Config.UseEncryption baseInfo = false ->
  (HandleTcpWorkConnection localInfo None baseInfo false false m).2 =
  match (proxy_protocol_info baseInfo m).2 with
  | Some h => if (0 <? length (Header_WriteTo h))%nat
              then [LocalWrite (Header_WriteTo h); Join] else [Join]
  | None => [Join]
  end.
Proof.
  intros Henc. unfold HandleTcpWorkConnection. rewrite Henc. simpl.
  destruct (proxy_protocol_info baseInfo m) as [m' [h|]]; simpl; [|done].
  by destruct (0 <? _)%nat.
Qed.

(** C3 (the code at the failing input): for a work connection whose source
    is the IPv4 address 1.2.3.4, port 1234, the handler builds a header of
    the configured version, 1 for [v1] and 2 for [v2], whose transport
    protocol is [TCPv6], not [TCPv4], and writes it to the local connection
    before joining. *)
Theorem HandleTcpWorkConnection_ipv4_source_TCPv6 :
  proxy_protocol_info (sampleBaseInfo "v1") sampleStart =
    (set_DstAddr sampleStart "127.0.0.1", Some (sampleHeader 1)) /\
  proxy_protocol_info (sampleBaseInfo "v2") sampleStart =
    (set_DstAddr sampleStart "127.0.0.1", Some (sampleHeader 2)) /\
  TransportProtocol (sampleHeader 1) <> TCPv4 /\
  (HandleTcpWorkConnection sampleLocal None (sampleBaseInfo "v1") false false sampleStart).2 =
    if (0 <? length (Header_WriteTo (sampleHeader 1)))%nat
    then [LocalWrite (Header_WriteTo (sampleHeader 1)); Join] else [Join].
Proof.
  split; [by vm_compute|]. split; [by vm_compute|]. split; [done|].
  by rewrite HandleTcpWorkConnection_header_first.
Qed.

(** *** The header for any work connection *)

Lemma ParseIP_nil_or_16 (s : string) :
  (forall t, parseIPv6 t = [] \/ length (parseIPv6 t) = 16) ->
  ParseIP s = [] \/ length (ParseIP s) = 16.
Proof using Type.
  intros Hv6. unfold ParseIP. generalize s at 1 3. intros whole.
  induction s as [|c rest IH]; simpl; [by left|].
  destruct (Ascii.eqb c "."); [apply parseIPv4_nil_or_16|].
  destruct (Ascii.eqb c ":"); [apply Hv6|]. apply IH.
Qed.

(** The header that the handler builds for a proxy whose configuration
    passed the client check, given that the IPv6 reader returns 16 bytes or
    [nil] as Go's does. Its version is 1 for [v1] and 2 for [v2]; source and
    destination are the parsed addresses of the message, the destination
    127.0.0.1 when the message names none, and the ports are those of the
    message. Its transport protocol is [TCPv6] for every source address
    that parses, of either IP version, and [TCPv4] exactly when the source
    address does not parse. *)
Theorem proxy_protocol_header (baseInfo : Config.BaseProxyConf) (u : unit)
    (m m' : Msg.StartWorkConn) (h : Header) :
  (forall t, parseIPv6 t = [] \/ length (parseIPv6 t) = 16) ->
  Config.BaseProxyConf_checkForCli baseInfo = Ok u ->
  proxy_protocol_info baseInfo m = (m', Some h) ->
  let dst := if String.eqb (Msg.DstAddr m) "" then "127.0.0.1" else Msg.DstAddr m in
  (Config.ProxyProtocolVersion baseInfo = "v1" /\ Version h = 1%Z \/
   Config.ProxyProtocolVersion baseInfo = "v2" /\ Version h = 2%Z) /\
  Msg.SrcAddr m <> "" /\ Msg.SrcPort m <> 0%Z /\
  m' = set_DstAddr m dst /\
  SourceAddress h = ParseIP (Msg.SrcAddr m) /\
  DestinationAddress h = ParseIP dst /\
  SourcePort h = Msg.SrcPort m /\
  DestinationPort h = Msg.DstPort m /\
  (TransportProtocol h = TCPv6 <-> length (ParseIP (Msg.SrcAddr m)) = 16) /\
  (TransportProtocol h = TCPv4 <-> ParseIP (Msg.SrcAddr m) = []).
Proof using Type.
  intros Hv6 Hcheck. apply Config.BaseProxyConf_checkForCli_Ok in Hcheck as [Hversion _].
  unfold proxy_protocol_info.
  destruct (String.eqb_spec (Config.ProxyProtocolVersion baseInfo) "") as [|Hne];
    simpl; [discriminate|].
  destruct (String.eqb_spec (Msg.SrcAddr m) "") as [|Hsrc]; simpl; [discriminate|].
  destruct (Z.eqb_spec (Msg.SrcPort m) 0) as [|Hport]; simpl; [discriminate|].
  intros [= <- <-]. cbv zeta.
  assert (Hm : (if String.eqb (Msg.DstAddr m) "" then set_DstAddr m "127.0.0.1" else m) =
               set_DstAddr m (if String.eqb (Msg.DstAddr m) "" then "127.0.0.1"
                              else Msg.DstAddr m)).
  { destruct (String.eqb (Msg.DstAddr m) ""); [done|]. by destruct m. }
  rewrite Hm. unfold build_header. simpl. split.
  { simpl in Hversion. destruct Hversion as [H|[H|[H|[]]]]; [congruence| |].
    - left. by rewrite <- H.
    - right. by rewrite <- H. }
  repeat (split; [done|]).
  destruct (ParseIP_nil_or_16 (Msg.SrcAddr m) Hv6) as [Hnil|Hlen].
  - rewrite Hnil. simpl. split; split; done.
  - destruct (ParseIP (Msg.SrcAddr m)) as [|a [|b [|c [|d [|e p]]]]] eqn:Hp;
      try discriminate Hlen.
    unfold To16. rewrite Hlen. simpl. split; split; done.
Qed.

End WorkConn.

(** The header for [sampleStart] under version [v2], with an IPv6 reader
    that reads nothing. *)
Lemma proxy_protocol_header_witness :
  (Config.ProxyProtocolVersion (sampleBaseInfo "v2") = "v1" /\ Version (sampleHeader 2) = 1%Z \/
   Config.ProxyProtocolVersion (sampleBaseInfo "v2") = "v2" /\ Version (sampleHeader 2) = 2%Z) /\
  (TransportProtocol (sampleHeader 2) = TCPv6 <->
   length (ParseIP (fun _ => []) (Msg.SrcAddr sampleStart)) = 16) /\
  (TransportProtocol (sampleHeader 2) = TCPv4 <->
   ParseIP (fun _ => []) (Msg.SrcAddr sampleStart) = []).
Proof.
  destruct (proxy_protocol_header (fun _ => []) (sampleBaseInfo "v2") tt sampleStart
              (set_DstAddr sampleStart "127.0.0.1") (sampleHeader 2))
    as (Hversion & _ & _ & _ & _ & _ & _ & _ & Hv6 & Hv4).
  - intros t. by left.
  - by vm_compute.
  - by vm_compute.
  - split; [exact Hversion|]. split; [exact Hv6|exact Hv4].
Defined.


End ClientProxy.

(** ** client: the control loop of the client *)

Module ClientControl.

(** The messages the handler tells apart, and the one it sends. *)
Inductive Message :=
| ReqWorkConn
| NewProxyResp (ProxyName RemoteAddr Error : string)
| Pong
| Ping
| OtherMessage.

(** What one round of the [select] in [msgHandler] receives: a tick of the
    heartbeat sender, a tick of the one-second heartbeat check, or a read
    from [readCh], which gives [None] once [readCh] is closed. *)
Inductive select_case :=
| hbSend
| hbCheck
| readCh (rawMsg : option Message).

(** The part of [Control] the handler reads and writes. Times and durations
    are in nanoseconds, as in Go. [sendCh] holds the messages put on the
    channel so far (the channel has room for 100 messages and the writer
    takes them off; a handler blocked on a full channel is not modelled);
    [workConnRequests] counts the [HandleReqWorkConn] goroutines started,
    and [proxyResponses] lists the responses passed to
    [HandleNewProxyResp]. *)
Record Control := {
  lastPong : Z;
  sendCh : list Message;
  connClosed : bool;
  workConnRequests : nat;
  proxyResponses : list (string * string * string)
}.

Definition Second : Z := 1000000000.

(** 64-bit two's complement wrap-around. *)
Definition wrap64 (x : Z) : Z :=
  ((x + 2 ^ 63) mod 2 ^ 64 - 2 ^ 63)%Z.

Definition minDuration : Z := (- 2 ^ 63)%Z.
Definition maxDuration : Z := (2 ^ 63 - 1)%Z.

(** [time.Since(t)] at the time [now]: the difference, kept within the
    range of a [Duration]. *)
Definition time_Since (now t : Z) : Z :=
  Z.max minDuration (Z.min maxDuration (now - t)).

Section Handler.

(** [g.GlbClientCfg.HeartBeatTimeout], in seconds. *)
Variable HeartBeatTimeout : Z.

(** [time.Duration(g.GlbClientCfg.HeartBeatTimeout) * time.Second] *)
Definition heartbeat_timeout : Z := wrap64 (HeartBeatTimeout * Second).

Definition set_lastPong (ctl : Control) (t : Z) : Control :=
  {| lastPong := t; sendCh := sendCh ctl; connClosed := connClosed ctl;
     workConnRequests := workConnRequests ctl;
     proxyResponses := proxyResponses ctl |}.

Definition send (ctl : Control) (m : Message) : Control :=
  {| lastPong := lastPong ctl; sendCh := sendCh ctl ++ [m];
     connClosed := connClosed ctl;
     workConnRequests := workConnRequests ctl;
     proxyResponses := proxyResponses ctl |}.

Definition conn_Close (ctl : Control) : Control :=
  {| lastPong := lastPong ctl; sendCh := sendCh ctl; connClosed := true;
     workConnRequests := workConnRequests ctl;
     proxyResponses := proxyResponses ctl |}.

Definition go_HandleReqWorkConn (ctl : Control) : Control :=
  {| lastPong := lastPong ctl; sendCh := sendCh ctl; connClosed := connClosed ctl;
     workConnRequests := S (workConnRequests ctl);
     proxyResponses := proxyResponses ctl |}.

Definition HandleNewProxyResp (ctl : Control) (name addr err : string) : Control :=
  {| lastPong := lastPong ctl; sendCh := sendCh ctl; connClosed := connClosed ctl;
     workConnRequests := workConnRequests ctl;
     proxyResponses := proxyResponses ctl ++ [(name, addr, err)] |}.

(** One round of the loop either goes on or returns. *)
Inductive round :=
| Continue (ctl : Control)
| Return (ctl : Control).

(** The body of the [for] loop for the case that [select] takes at the time
    [now]. *)
Definition msgHandler_round (now : Z) (c : select_case) (ctl : Control) : round :=
  match c with
  | hbSend =>
      (* send heartbeat to server *)
      Continue (send ctl Ping)
  | hbCheck =>
      if (heartbeat_timeout <? time_Since now (lastPong ctl))%Z then
        (* let reader() stop *)
        Return (conn_Close ctl)
      else Continue ctl
  | readCh None => Return ctl
  | readCh (Some ReqWorkConn) => Continue (go_HandleReqWorkConn ctl)
  | readCh (Some (NewProxyResp name addr err)) => Continue (HandleNewProxyResp ctl name addr err)
  | readCh (Some Pong) => Continue (set_lastPong ctl now)
  | readCh (Some _) => Continue ctl
  end.

(** The loop over the cases that arrive, each with its time. It ends with
    [true] when the handler returned, and then the cases that are left are
    not looked at; it ends with [false] when the cases ran out with the
    handler still in its loop. *)
Fixpoint msgHandler_loop (cases : list (Z * select_case)) (ctl : Control) : Control * bool :=
  match cases with
  | [] => (ctl, false)
  | (now, c) :: rest =>
      match msgHandler_round now c ctl with
      | Continue ctl => msgHandler_loop rest ctl
      | Return ctl => (ctl, true)
      end
  end.

(** [msgHandler], entered at the time [start]. *)
Definition msgHandler (start : Z) (cases : list (Z * select_case)) (ctl : Control)
  : Control * bool :=
  msgHandler_loop cases (set_lastPong ctl start).

(** *** Facts about the heartbeat *)

Lemma msgHandler_loop_app (before rest : list (Z * select_case)) (ctl ctl' : Control) :
  msgHandler_loop before ctl = (ctl', false) ->
  msgHandler_loop (before ++ rest) ctl = msgHandler_loop rest ctl'.
Proof.
  revert ctl. induction before as [|[now c] before IH]; intros ctl; simpl.
  - by intros [= <-].
  - destruct (msgHandler_round now c ctl); [apply IH | discriminate].
Qed.

(** For a timeout of up to 292 years the duration is the seconds times
    [Second], and for times less than 292 years apart [time.Since] is the
    difference. *)
Lemma heartbeat_timeout_seconds :
  (0 <= HeartBeatTimeout <= 9223372036)%Z ->
  heartbeat_timeout = (HeartBeatTimeout * Second)%Z.
Proof.
  intros H. unfold heartbeat_timeout, wrap64, Second.
  rewrite Z.mod_small; lia.
Qed.

Lemma time_Since_sub (now t : Z) :
  (minDuration <= now - t <= maxDuration)%Z -> time_Since now t = (now - t)%Z.
Proof. unfold time_Since. lia. Qed.

(** In seconds: with a timeout of up to 292 years and a last Pong less than
    292 years back, the check closes the connection exactly when more than
    [HeartBeatTimeout] seconds have passed since the last Pong. *)
Lemma hbCheck_closes_iff (now : Z) (ctl : Control) :
  (0 <= HeartBeatTimeout <= 9223372036)%Z ->
  (minDuration <= now - lastPong ctl <= maxDuration)%Z ->
  msgHandler_round now hbCheck ctl = Return (conn_Close ctl) <->
  (HeartBeatTimeout * Second < now - lastPong ctl)%Z.
Proof.
  intros Hcfg Hnow. simpl.
  rewrite heartbeat_timeout_seconds, time_Since_sub by done.
  destruct (Z.ltb_spec (HeartBeatTimeout * Second) (now - lastPong ctl)); split;
    try done; lia.
Qed.

(** C7: on every tick of the one-second check the handler compares the time
    since the last Pong with the heartbeat timeout: if it is more, the
    handler closes the control connection and returns, and if not, the
    handler goes on with nothing changed. Once the handler has returned on
    such a tick, whatever arrives later is not handled: no further Ping is
    put on [sendCh]. Receiving a Pong sets the time of the last Pong to the
    time of receipt, so a check within the timeout after it does not close
    the connection. *)
Theorem msgHandler_heartbeat :
  (forall now ctl,
      (heartbeat_timeout < time_Since now (lastPong ctl))%Z ->
      msgHandler_round now hbCheck ctl = Return (conn_Close ctl)) /\
  (forall now ctl,
      (time_Since now (lastPong ctl) <= heartbeat_timeout)%Z ->
      msgHandler_round now hbCheck ctl = Continue ctl) /\
  (forall before now after ctl ctl',
      msgHandler_loop before ctl = (ctl', false) ->
      (heartbeat_timeout < time_Since now (lastPong ctl'))%Z ->
      msgHandler_loop (before ++ (now, hbCheck) :: after) ctl = (conn_Close ctl', true) /\
      connClosed (conn_Close ctl') = true /\
      sendCh (conn_Close ctl') = sendCh ctl') /\
  (forall now ctl,
      msgHandler_round now (readCh (Some Pong)) ctl = Continue (set_lastPong ctl now) /\
      lastPong (set_lastPong ctl now) = now /\
      forall later,
        (time_Since later now <= heartbeat_timeout)%Z ->
        msgHandler_round later hbCheck (set_lastPong ctl now) =
          Continue (set_lastPong ctl now)).
Proof.
  assert (Hover : forall now ctl,
             (heartbeat_timeout < time_Since now (lastPong ctl))%Z ->
             msgHandler_round now hbCheck ctl = Return (conn_Close ctl)).
  { intros now ctl H. simpl. apply Z.ltb_lt in H. by rewrite H. }
  assert (Hwithin : forall now ctl,
             (time_Since now (lastPong ctl) <= heartbeat_timeout)%Z ->
             msgHandler_round now hbCheck ctl = Continue ctl).
  { intros now ctl H. simpl. apply Z.ltb_ge in H. by rewrite H. }
  split; [exact Hover|]. split; [exact Hwithin|]. split.
  - intros before now after ctl ctl' Hbefore Hlate.
    rewrite (msgHandler_loop_app _ _ _ _ Hbefore).
    cbn [msgHandler_loop]. rewrite (Hover _ _ Hlate). done.
  - intros now ctl. split; [done|]. split; [done|].
    intros later Hlater. by apply Hwithin.
Qed.

(** *** A whole run of the handler *)

(** The time of the last Pong among [cases], or [t] when there is none. *)
Fixpoint pong_time (t : Z) (cases : list (Z * select_case)) : Z :=
  match cases with
  | [] => t
  | (now, readCh (Some Pong)) :: rest => pong_time now rest
  | _ :: rest => pong_time t rest
  end.

(** None of [cases] ends the handler that starts them with the last Pong
    at [t]: [readCh] is not closed, and at every check the last Pong is
    not older than the timeout. *)
Fixpoint passes (t : Z) (cases : list (Z * select_case)) : Prop :=
  match cases with
  | [] => True
  | (now, hbCheck) :: rest =>
      (time_Since now t <= heartbeat_timeout)%Z /\ passes t rest
  | (_, readCh None) :: _ => False
  | (now, readCh (Some Pong)) :: rest => passes now rest
  | _ :: rest => passes t rest
  end.

Fixpoint ticks (cases : list (Z * select_case)) : nat :=
  match cases with
  | [] => 0
  | (_, hbSend) :: rest => S (ticks rest)
  | _ :: rest => ticks rest
  end.

Fixpoint requests (cases : list (Z * select_case)) : nat :=
  match cases with
  | [] => 0
  | (_, readCh (Some ReqWorkConn)) :: rest => S (requests rest)
  | _ :: rest => requests rest
  end.

Fixpoint responses (cases : list (Z * select_case)) : list (string * string * string) :=
  match cases with
  | [] => []
  | (_, readCh (Some (NewProxyResp name addr err))) :: rest =>
      (name, addr, err) :: responses rest
  | _ :: rest => responses rest
  end.

(** What the handled cases [before] have done to [ctl]. *)
Definition handled (before : list (Z * select_case)) (ctl : Control) : Control :=
  {| lastPong := pong_time (lastPong ctl) before;
     sendCh := sendCh ctl ++ replicate (ticks before) Ping;
     connClosed := connClosed ctl;
     workConnRequests := workConnRequests ctl + requests before;
     proxyResponses := proxyResponses ctl ++ responses before |}.

Lemma handled_cons (now : Z) (c : select_case) (before : list (Z * select_case))
    (ctl ctl' : Control) :
  msgHandler_round now c ctl = Continue ctl' ->
  handled ((now, c) :: before) ctl = handled before ctl'.
Proof using Type.
  destruct ctl as [t s k w p].
  destruct c as [| |[[]|]]; simpl;
    try (destruct (heartbeat_timeout <? _)%Z; [discriminate|]);
    intros [= <-]; unfold handled; simpl;
    rewrite <- ?app_assoc, ?Nat.add_succ_r; done.
Qed.

Lemma msgHandler_loop_run (cases : list (Z * select_case)) (ctl : Control) :
  exists before,
    passes (lastPong ctl) before /\
    ((before = cases /\ msgHandler_loop cases ctl = (handled before ctl, false)) \/
     (exists now after,
         cases = (before ++ (now, readCh None) :: after)%list /\
         msgHandler_loop cases ctl = (handled before ctl, true)) \/
     (exists now after,
         cases = (before ++ (now, hbCheck) :: after)%list /\
         (heartbeat_timeout < time_Since now (pong_time (lastPong ctl) before))%Z /\
         msgHandler_loop cases ctl = (conn_Close (handled before ctl), true))).
Proof using Type.
  revert ctl. induction cases as [|[now c] cases IH]; intros ctl.
  - exists []. split; [done|]. left. split; [done|].
    destruct ctl. unfold handled. simpl.
    by rewrite !app_nil_r, Nat.add_0_r.
  - cbn [msgHandler_loop].
    destruct (msgHandler_round now c ctl) as [ctl'|ctl'] eqn:Hround.
    + destruct (IH ctl') as (before & Hpass & Hres).
      exists ((now, c) :: before).
      rewrite (handled_cons _ _ _ _ _ Hround).
      assert (Hstep : passes (lastPong ctl) ((now, c) :: before) /\
                      pong_time (lastPong ctl) ((now, c) :: before) =
                        pong_time (lastPong ctl') before).
      { destruct c as [| |[[]|]]; simpl in Hround |- *;
          try (destruct (Z.ltb_spec heartbeat_timeout (time_Since now (lastPong ctl)));
               [discriminate|]);
          try discriminate; injection Hround as <-; simpl; auto. }
      destruct Hstep as [Hpass' Htime]. split; [exact Hpass'|].
      destruct Hres as [[-> Hrun]|[(now' & after & -> & Hrun)|(now' & after & -> & Hlate & Hrun)]].
      * left. done.
      * right. left. exists now', after. done.
      * right. right. exists now', after. rewrite Htime. done.
    + exists []. split; [done|].
      assert (Hnil : handled [] ctl = ctl).
      { destruct ctl. unfold handled. simpl.
        by rewrite !app_nil_r, Nat.add_0_r. }
      rewrite Hnil.
      destruct c as [| |[[]|]]; simpl in Hround; try discriminate.
      * destruct (Z.ltb_spec heartbeat_timeout (time_Since now (lastPong ctl)));
          [|discriminate].
        injection Hround as <-. right. right. exists now, cases. done.
      * injection Hround as <-. right. left. exists now, cases. done.
Qed.

(** A run of [msgHandler] that starts at [start] handles a first part
    [before] of the cases, none of which ends it, and then either the cases
    have run out, or [readCh] is closed and it returns, or a check finds
    the last Pong, or the start when no Pong came, older than the timeout,
    and it closes the connection and returns. Up to there it has put one
    Ping on [sendCh] for each tick of the heartbeat sender and nothing
    else, started one [HandleReqWorkConn] for each request, passed on each
    [NewProxyResp] in order, and the connection is closed by the handler in
    the last case only. *)
Theorem msgHandler_run (start : Z) (cases : list (Z * select_case)) (ctl : Control) :
  exists before,
    passes start before /\
    ((before = cases /\
      msgHandler start cases ctl = (handled before (set_lastPong ctl start), false)) \/
     (exists now after,
         cases = (before ++ (now, readCh None) :: after)%list /\
         msgHandler start cases ctl = (handled before (set_lastPong ctl start), true)) \/
     (exists now after,
         cases = (before ++ (now, hbCheck) :: after)%list /\
         (heartbeat_timeout < time_Since now (pong_time start before))%Z /\
         msgHandler start cases ctl =
           (conn_Close (handled before (set_lastPong ctl start)), true))).
Proof using Type.
  apply (msgHandler_loop_run cases (set_lastPong ctl start)).
Qed.

End Handler.

(** A control whose handler starts at time 0, with a heartbeat timeout of
    90 seconds: a Ping goes out at 30 s, a Pong comes in at 31 s, and the
    check at 122 s finds the last Pong 91 s old. *)
Definition sampleControl : Control :=
  {| lastPong := 0; sendCh := []; connClosed := false;
     workConnRequests := 0; proxyResponses := [] |}.

Definition sampleBefore : list (Z * select_case) :=
  [(30 * Second, hbSend); (31 * Second, readCh (Some Pong)); (121 * Second, hbCheck)]%Z.

Definition sampleAfter : list (Z * select_case) :=
  [(150 * Second, hbSend); (151 * Second, readCh (Some Pong))]%Z.

Example sample_run :
  msgHandler 90 0 (sampleBefore ++ (122 * Second, hbCheck)%Z :: sampleAfter) sampleControl =
  ({| lastPong := 31 * Second; sendCh := [Ping]; connClosed := true;
      workConnRequests := 0; proxyResponses := [] |}, true).
Proof. reflexivity. Qed.

Lemma msgHandler_heartbeat_witness :
  msgHandler_loop 90 (sampleBefore ++ (122 * Second, hbCheck)%Z :: sampleAfter) sampleControl =
    ({| lastPong := 31 * Second; sendCh := [Ping]; connClosed := true;
        workConnRequests := 0; proxyResponses := [] |}, true) /\
  msgHandler_round 90 (100 * Second) hbCheck (set_lastPong sampleControl (31 * Second)) =
    Continue (set_lastPong sampleControl (31 * Second)).
Proof.
  destruct (msgHandler_heartbeat 90) as (_ & _ & Hexit & Hpong).
  split.
  - apply (Hexit sampleBefore (122 * Second)%Z sampleAfter sampleControl
             {| lastPong := 31 * Second; sendCh := [Ping]; connClosed := false;
                workConnRequests := 0; proxyResponses := [] |}).
    + reflexivity.
    + by vm_compute.
  - apply (Hpong (31 * Second)%Z sampleControl). by vm_compute.
Defined.

End ClientControl.

(** ** server: login and the registry of control sessions *)

Module Server.

(** Modelled from the spec: the server's [Control] type is not among the
    embedded files. The spec gives a session the lifecycle
    "Login → Active → Draining → Closed" and the fields [run_id], control
    socket and per-direction byte limits. A session is created in [Login],
    [Start] makes it [Active], starting its shutdown makes it [Draining],
    and its shutdown is complete when it is [Closed]. *)
Inductive phase := Login | Active | Draining | Closed.

(** Modelled from the spec: a control session with its run id, its control
    socket, its two byte limits and its place in the lifecycle. *)
Record Control := {
  runId : string;
  conn : nat;
  inLimit : Z;
  outLimit : Z;
  state : phase
}.

(** The service: the control manager's map from run id to control, and the
    controls themselves, a control being referred to by its index. *)
Record Service := {
  ctlsByRunId : gmap string nat;
  controls : list Control
}.

Definition set_state (st : phase) (c : Control) : Control :=
  {| runId := runId c; conn := conn c; inLimit := inLimit c; outLimit := outLimit c;
     state := st |}.

(** [allShutdown.Start()]: a session that is in [Login] or [Active] begins
    to drain. *)
Definition start_shutdown (c : Control) : Control :=
  match state c with
  | Login | Active => set_state Draining c
  | Draining | Closed => c
  end.

(** Modelled from the spec: the server's [NewControl] is not among the
    embedded files; it makes a session for the login, which begins its
    lifecycle in [Login]. The new control is put after the existing ones. *)
Definition NewControl (svc : Service) (ctlConn : nat) (loginMsg : Msg.Login)
    (inLimit outLimit : Z) : Service * nat :=
  ({| ctlsByRunId := ctlsByRunId svc;
      controls := controls svc ++
                  [{| runId := Msg.RunId loginMsg; conn := ctlConn;
                      inLimit := inLimit; outLimit := outLimit; state := Login |}] |},
   length (controls svc)).

(** Modelled from the spec: [ControlManager.Add] is not among the embedded
    files. [RegisterControl] hands it the run id and the new control and
    gets the previous control of that run id back, and nothing else in
    [RegisterControl] puts the new control into the manager, so [Add] is
    the map update; the spec adds that a prior session's shutdown is
    started ("start its shutdown and wait for completion"). *)
Definition ControlManager_Add (runId : string) (ctl : nat) (svc : Service)
  : Service * option nat :=
  let oldCtl := ctlsByRunId svc !! runId in
  ({| ctlsByRunId := <[runId := ctl]> (ctlsByRunId svc);
      controls := match oldCtl with
                  | Some old => alter start_shutdown old (controls svc)
                  | None => controls svc
                  end |},
   oldCtl).

(** Modelled from the spec: [oldCtl.allShutdown.WaitDone()] is the [wait()]
    of the spec's shutdown coordinator. It blocks the caller until the prior
    session has finished its shutdown, which the session's own goroutines
    do; [drains] says whether they ever finish. [None] is a caller that
    stays blocked; otherwise the caller goes on in a state where the prior
    session is [Closed]. *)
Definition allShutdown_WaitDone (drains : bool) (old : nat) (svc : Service)
  : option Service :=
  match controls svc !! old with
  | Some c =>
      match state c with
      | Closed => Some svc
      | _ => if drains
             then Some {| ctlsByRunId := ctlsByRunId svc;
                          controls := alter (set_state Closed) old (controls svc) |}
             else None
      end
  | None => Some svc
  end.

(** Modelled from the spec: [Control.Start] is not among the embedded
    files; by the lifecycle of the spec it makes the session [Active]. *)
Definition Control_Start (ctl : nat) (svc : Service) : Service :=
  {| ctlsByRunId := ctlsByRunId svc;
     controls := alter (set_state Active) ctl (controls svc) |}.

(** The part of [g.GlbServerCfg] that the login path reads. *)
Record ServerCommonConf := {
  Token : string;
  EnableApi : bool;
  ApiBaseUrl : string;
  ApiToken : string
}.

(** The user names the pattern [^[A-Za-z0-9]{1,32}$] finds. *)
Definition is_alnum (c : ascii) : bool :=
  let n := nat_of_ascii c in
  ((48 <=? n) && (n <=? 57) || (65 <=? n) && (n <=? 90) || (97 <=? n) && (n <=? 122))%nat.

Definition valid_username (user : string) : bool :=
  ((1 <=? String.length user) && (String.length user <=? 32))%nat &&
  forallb is_alnum (list_ascii_of_string user).

(** How [RegisterControl] ends: the new control is registered and started,
    the login is refused with an error, or the caller stays blocked waiting
    for the prior session. *)
Inductive outcome :=
| Registered (ctl : nat)
| Failed (err : string)
| Blocked (ctl : nat).

(** What [HandleListener] does on the connection after a login. *)
Inductive conn_event :=
| WriteLoginResp (Version Error : string)
| ConnClose.

Definition set_RunId (loginMsg : Msg.Login) (runId : string) : Msg.Login :=
  {| Msg.Version := Msg.Version loginMsg; Msg.User := Msg.User loginMsg;
     Msg.PrivilegeKey := Msg.PrivilegeKey loginMsg;
     Msg.Timestamp := Msg.Timestamp loginMsg;
     Msg.RunId := runId |}.

Section Register.

(** Taken from outside the embedded files: [version.Compat],
    [version.Full], [util.GetAuthKey], the server's configuration and the
    three calls of the external token-validation API. *)
Variable Compat : string -> bool * string.
Variable version_Full : string.
Variable GetAuthKey : string -> Z -> string.
Variable cfg : ServerCommonConf.
Variable api_NewService : string -> option string.
Variable api_CheckToken : string -> string -> Z -> string -> result bool.
Variable api_GetProxyLimit : string -> Z -> string -> result (Z * Z).

(** The checks of [RegisterControl] at the time [nowTime]; they give the
    two byte limits. *)
Definition check_login (nowTime : Z) (loginMsg : Msg.Login) : result (Z * Z) :=
  (* Check client version. *)
  let '(ok, msg) := Compat (Msg.Version loginMsg) in
  if negb ok then Err msg
  (* Check auth. *)
  else if negb (String.eqb (GetAuthKey (Token cfg) (Msg.Timestamp loginMsg))
                           (Msg.PrivilegeKey loginMsg))
  then Err "authorization failed"
  else if EnableApi cfg then
    match api_NewService (ApiBaseUrl cfg) with
    | Some err => Err err
    | None =>
        if negb (valid_username (Msg.User loginMsg)) then Err "invalid username"
        else
          (* Connect to API server and verify the user. *)
          do valid <- api_CheckToken (Msg.User loginMsg) (Msg.PrivilegeKey loginMsg)
                        nowTime (ApiToken cfg);
          if negb valid then Err "authorization failed"
          else api_GetProxyLimit (Msg.User loginMsg) nowTime (ApiToken cfg)
    end
  else Ok (0, 0)%Z.

(** "If client's RunId is empty, it's a new client": [randid] is what
    [util.RandId] returns if it is called. *)
Definition issue_run_id (randid : result string) (loginMsg : Msg.Login)
  : result Msg.Login :=
  if String.eqb (Msg.RunId loginMsg) "" then
    do randid <- randid;
    Ok (set_RunId loginMsg (Msg.User loginMsg ++ "-" ++ randid))
  else Ok loginMsg.

(** [RegisterControl]. The result is the state of the service after each
    step that changes it, in order, how the call ends, and the login
    message as the call leaves it. The goroutine that removes the control
    from the manager once it has closed runs after the call and is not part
    of it, and neither is that goroutine of the prior session:
    [ControlManager.Del] is not among the embedded files. *)
Definition RegisterControl (svc : Service) (ctlConn : nat) (loginMsg : Msg.Login)
    (nowTime : Z) (randid : result string) (drains : bool)
  : list Service * outcome * Msg.Login :=
  match check_login nowTime loginMsg with
  | Err err => ([], Failed err, loginMsg)
  | Ok (inLimit, outLimit) =>
      match issue_run_id randid loginMsg with
      | Err err => ([], Failed err, loginMsg)
      | Ok loginMsg =>
          let '(created, ctl) := NewControl svc ctlConn loginMsg inLimit outLimit in
          let '(added, oldCtl) := ControlManager_Add (Msg.RunId loginMsg) ctl created in
          match oldCtl with
          | Some old =>
              match allShutdown_WaitDone drains old added with
              | Some waited =>
                  ([created; added; waited; Control_Start ctl waited], Registered ctl, loginMsg)
              | None => ([created; added], Blocked ctl, loginMsg)
              end
          | None => ([created; added; Control_Start ctl added], Registered ctl, loginMsg)
          end
      end
  end.

(** The [*msg.Login] case of [dealFn] in [HandleListener]: "If login failed,
    send error message there. Otherwise send success message in control's
    work goroutine." *)
Definition dealFn_Login (svc : Service) (conn : nat) (m : Msg.Login)
    (nowTime : Z) (randid : result string) (drains : bool)
  : list Service * outcome * list conn_event :=
  let '(instants, out, _) := RegisterControl svc conn m nowTime randid drains in
  match out with
  | Failed err => (instants, out, [WriteLoginResp version_Full err; ConnClose])
  | _ => (instants, out, [])
  end.

(** *** The invariant of the registry

    Every active control is the one the manager holds for its run id, so no
    two active controls have the same run id. *)

Definition state_of (svc : Service) (ctl : nat) : option phase :=
  state <$> controls svc !! ctl.

Definition one_active (svc : Service) : Prop :=
  forall c ctl, controls svc !! c = Some ctl -> state ctl = Active ->
                ctlsByRunId svc !! runId ctl = Some c.

Definition at_most_one_active (svc : Service) : Prop :=
  forall c1 c2 ctl1 ctl2,
    controls svc !! c1 = Some ctl1 -> controls svc !! c2 = Some ctl2 ->
    state ctl1 = Active -> state ctl2 = Active ->
    runId ctl1 = runId ctl2 -> c1 = c2.

Lemma one_active_unique (svc : Service) : one_active svc -> at_most_one_active svc.
Proof.
  intros Hinv c1 c2 ctl1 ctl2 H1 H2 Ha1 Ha2 Hid.
  pose proof (Hinv _ _ H1 Ha1) as Hm1. pose proof (Hinv _ _ H2 Ha2) as Hm2.
  rewrite Hid in Hm1. congruence.
Qed.

Lemma start_shutdown_not_Active (c : Control) : state (start_shutdown c) <> Active.
Proof. unfold start_shutdown. by destruct (state c) eqn:H; simpl; rewrite ?H. Qed.

Lemma state_start_shutdown (c : Control) :
  state (start_shutdown c) = match state c with Closed => Closed | _ => Draining end.
Proof. unfold start_shutdown. by destruct (state c) eqn:H; simpl; rewrite ?H. Qed.

Lemma start_shutdown_runId (c : Control) : runId (start_shutdown c) = runId c.
Proof. unfold start_shutdown. by destruct (state c). Qed.

(** Changing one control into one that is not active keeps the invariant. *)
Lemma one_active_alter (f : Control -> Control) (i : nat) (svc : Service) :
  (forall c, state (f c) <> Active) ->
  one_active svc ->
  one_active {| ctlsByRunId := ctlsByRunId svc; controls := alter f i (controls svc) |}.
Proof.
  intros Hf Hinv c ctl. simpl. destruct (decide (i = c)) as [->|Hne].
  - rewrite list_lookup_alter_eq. destruct (controls svc !! c); simpl; [|done].
    intros [= <-] Ha. by destruct (Hf _ Ha).
  - rewrite list_lookup_alter_ne by done. apply Hinv.
Qed.

Lemma one_active_NewControl (svc : Service) (ctlConn : nat) (loginMsg : Msg.Login)
    (inL outL : Z) :
  one_active svc -> one_active (NewControl svc ctlConn loginMsg inL outL).1.
Proof.
  intros Hinv c ctl. simpl. intros Hc Ha.
  apply lookup_app_Some in Hc as [Hc|[_ Hc]]; [by apply Hinv|].
  apply list_lookup_singleton_Some in Hc as [_ <-]. discriminate Ha.
Qed.

Lemma one_active_Add (rid : string) (new : nat) (svc : Service) :
  one_active svc -> one_active (ControlManager_Add rid new svc).1.
Proof.
  intros Hinv c ctl. simpl. destruct (ctlsByRunId svc !! rid) as [old|] eqn:Hold.
  - destruct (decide (old = c)) as [->|Hne].
    + rewrite list_lookup_alter_eq. destruct (controls svc !! c); simpl; [|done].
      intros [= <-] Ha. by destruct (start_shutdown_not_Active _ Ha).
    + rewrite list_lookup_alter_ne by done. intros Hc Ha.
      pose proof (Hinv _ _ Hc Ha) as Hm.
      rewrite lookup_insert_ne; [done|]. intros ->. congruence.
  - intros Hc Ha. pose proof (Hinv _ _ Hc Ha) as Hm.
    rewrite lookup_insert_ne; [done|]. intros ->. congruence.
Qed.

Lemma one_active_WaitDone (drains : bool) (old : nat) (svc svc' : Service) :
  allShutdown_WaitDone drains old svc = Some svc' -> one_active svc -> one_active svc'.
Proof.
  unfold allShutdown_WaitDone.
  destruct (controls svc !! old) as [c|]; [|by intros [= <-]].
  destruct (state c), drains; try discriminate; intros [= <-]; try done;
    by apply one_active_alter.
Qed.

Lemma one_active_Start (ctl : nat) (svc : Service) (c : Control) :
  controls svc !! ctl = Some c ->
  ctlsByRunId svc !! runId c = Some ctl ->
  one_active svc -> one_active (Control_Start ctl svc).
Proof.
  intros Hc Hm Hinv c' x. simpl. destruct (decide (ctl = c')) as [<-|Hne].
  - rewrite list_lookup_alter_eq, Hc. simpl. by intros [= <-] _.
  - rewrite list_lookup_alter_ne by done. apply Hinv.
Qed.

(** *** A login that finds a prior session *)

(** The control a login creates. *)
Definition new_control (ctlConn : nat) (loginMsg : Msg.Login) (limits : Z * Z) : Control :=
  {| runId := Msg.RunId loginMsg; conn := ctlConn;
     inLimit := limits.1; outLimit := limits.2; state := Login |}.

(** The states a login goes through when its checks pass: the control is
    created, then added to the manager. *)
Definition created_state (svc : Service) (ctlConn : nat) (loginMsg : Msg.Login)
    (limits : Z * Z) : Service :=
  {| ctlsByRunId := ctlsByRunId svc;
     controls := controls svc ++ [new_control ctlConn loginMsg limits] |}.

Definition added_state (svc : Service) (ctlConn : nat) (loginMsg : Msg.Login)
    (limits : Z * Z) : Service :=
  (ControlManager_Add (Msg.RunId loginMsg) (length (controls svc))
     (created_state svc ctlConn loginMsg limits)).1.

Lemma RegisterControl_steps (svc : Service) (ctlConn : nat) (m m' : Msg.Login)
    (nowTime : Z) (randid : result string) (drains : bool) (limits : Z * Z) :
  check_login nowTime m = Ok limits ->
  issue_run_id randid m = Ok m' ->
  RegisterControl svc ctlConn m nowTime randid drains =
  let new := length (controls svc) in
  let created := created_state svc ctlConn m' limits in
  let added := added_state svc ctlConn m' limits in
  match ctlsByRunId svc !! Msg.RunId m' with
  | Some old =>
      match allShutdown_WaitDone drains old added with
      | Some waited =>
          ([created; added; waited; Control_Start new waited], Registered new, m')
      | None => ([created; added], Blocked new, m')
      end
  | None => ([created; added; Control_Start new added], Registered new, m')
  end.
Proof.
  intros Hcheck Hid. unfold RegisterControl. rewrite Hcheck, Hid.
  destruct limits as [inL outL].
  unfold added_state, created_state, new_control, ControlManager_Add, NewControl. simpl.
  by destruct (ctlsByRunId svc !! Msg.RunId m').
Qed.

Section Replace.

Variables (svc : Service) (ctlConn : nat) (m' : Msg.Login) (limits : Z * Z).
Variables (old : nat) (oldc : Control).
Hypothesis Hmgr : ctlsByRunId svc !! Msg.RunId m' = Some old.
Hypothesis Hold : controls svc !! old = Some oldc.

Let new := length (controls svc).
Let created := created_state svc ctlConn m' limits.
Let added := added_state svc ctlConn m' limits.

Lemma old_lt_new : old < new.
Proof using Hold. unfold new. by eapply lookup_lt_Some. Qed.

Lemma added_controls :
  controls added =
  (alter start_shutdown old (controls svc) ++ [new_control ctlConn m' limits])%list.
Proof using Hmgr Hold.
  unfold added, added_state, ControlManager_Add. simpl. rewrite Hmgr.
  rewrite alter_app_l; [done|]. apply old_lt_new.
Qed.

Lemma added_facts :
  ctlsByRunId added !! Msg.RunId m' = Some new /\
  controls added !! old = Some (start_shutdown oldc) /\
  controls added !! new = Some (new_control ctlConn m' limits).
Proof using Hmgr Hold.
  split; [apply lookup_insert_eq|]. rewrite added_controls. split.
  - rewrite lookup_app_l by (rewrite length_alter; apply old_lt_new).
    by rewrite list_lookup_alter_eq, Hold.
  - rewrite lookup_app_r by (rewrite length_alter; done).
    rewrite length_alter. fold new. by rewrite Nat.sub_diag.
Qed.

(** The wait returns exactly when the prior session drains or had already
    closed; it leaves the prior session closed and the new one as it
    was. *)
Lemma waited_facts (drains : bool) :
  (drains = true \/ state oldc = Closed ->
   exists waited,
     allShutdown_WaitDone drains old added = Some waited /\
     ctlsByRunId waited = ctlsByRunId added /\
     state_of waited old = Some Closed /\
     controls waited !! new = Some (new_control ctlConn m' limits)) /\
  (drains = false -> state oldc <> Closed ->
   allShutdown_WaitDone drains old added = None).
Proof using Hmgr Hold.
  destruct added_facts as (Hm & Ho & Hn).
  pose proof old_lt_new as Hlt.
  unfold allShutdown_WaitDone. rewrite Ho, state_start_shutdown. split.
  - intros Hd.
    assert (Hcase : state oldc = Closed \/ (state oldc <> Closed /\ drains = true)).
    { destruct (state oldc); destruct Hd as [?|?]; auto; right; done. }
    destruct Hcase as [Hc|[Hc ->]].
    + rewrite Hc. exists added. unfold state_of.
      rewrite Ho. simpl. rewrite state_start_shutdown, Hc. done.
    + exists {| ctlsByRunId := ctlsByRunId added;
                controls := alter (set_state Closed) old (controls added) |}.
      split; [by destruct (state oldc)|]. split; [done|].
      unfold state_of. cbn [controls]. split.
      * by rewrite list_lookup_alter_eq, Ho.
      * rewrite list_lookup_alter_ne by lia. done.
  - intros -> Hst. by destruct (state oldc).
Qed.

Lemma created_facts :
  ctlsByRunId created !! Msg.RunId m' = Some old /\
  state_of created old = Some (state oldc) /\
  state_of created new = Some Login.
Proof using Hmgr Hold.
  unfold created, created_state, state_of. cbn [controls ctlsByRunId].
  split; [done|]. split.
  - rewrite lookup_app_l by apply old_lt_new. by rewrite Hold.
  - rewrite lookup_app_r by done. fold new. by rewrite Nat.sub_diag.
Qed.

(** Starting the new control leaves the prior one as it is. *)
Lemma started_facts (waited : Service) :
  ctlsByRunId waited = ctlsByRunId added ->
  state_of waited old = Some Closed ->
  controls waited !! new = Some (new_control ctlConn m' limits) ->
  ctlsByRunId (Control_Start new waited) !! Msg.RunId m' = Some new /\
  state_of (Control_Start new waited) old = Some Closed /\
  state_of (Control_Start new waited) new = Some Active.
Proof using Hmgr Hold.
  intros Hm Ho Hn. destruct added_facts as (Hma & _ & _).
  pose proof old_lt_new as Hlt.
  unfold Control_Start, state_of. cbn [controls ctlsByRunId].
  split; [by rewrite Hm|]. split.
  - rewrite list_lookup_alter_ne by lia. exact Ho.
  - by rewrite list_lookup_alter_eq, Hn.
Qed.

(** Every state the login goes through keeps the invariant, and in none of
    them is the new control active while the prior one is not closed. *)
Lemma instants_safe (waited : Service) (drains : bool) :
  one_active svc ->
  allShutdown_WaitDone drains old added = Some waited ->
  forall s, s ∈ [created; added; waited; Control_Start new waited] ->
    one_active s /\
    (state_of s new = Some Active -> state_of s old = Some Closed).
Proof using Hmgr Hold.
  intros Hinv Hw.
  destruct created_facts as (_ & _ & Hcn).
  destruct added_facts as (Hma & Hao & Han).
  assert (Hd : drains = true \/ state oldc = Closed).
  { destruct drains; [by left|]. right.
    destruct (waited_facts false) as [_ Hblocked].
    destruct (state oldc) eqn:Hst; try done; rewrite Hblocked in Hw; done. }
  destruct (waited_facts drains) as [Hsome _].
  destruct (Hsome Hd) as (waited' & Hw' & Hwm & Hwo & Hwn).
  rewrite Hw in Hw'. injection Hw' as <-.
  destruct (started_facts waited Hwm Hwo Hwn) as (Hsm & Hso & Hsn).
  assert (Hic : one_active created) by (by apply (one_active_NewControl svc)).
  assert (Hia : one_active added) by (by apply one_active_Add).
  assert (Hiw : one_active waited) by (by eapply one_active_WaitDone).
  intros s Hs. repeat (apply elem_of_cons in Hs as [->|Hs]).
  - split; [done|]. rewrite Hcn. done.
  - split; [done|]. unfold state_of. rewrite Han. done.
  - split; [done|]. unfold state_of. rewrite Hwn. done.
  - split; [|done]. eapply one_active_Start; [exact Hwn| |done].
    simpl. by rewrite Hwm.
  - by apply elem_of_nil in Hs.
Qed.

Lemma instants_blocked_safe :
  one_active svc ->
  forall s, s ∈ [created; added] ->
    one_active s /\ state_of s new = Some Login.
Proof using Hmgr Hold.
  intros Hinv.
  destruct created_facts as (_ & _ & Hcn).
  destruct added_facts as (_ & _ & Han).
  assert (Hic : one_active created) by (by apply (one_active_NewControl svc)).
  assert (Hia : one_active added) by (by apply one_active_Add).
  intros s Hs. repeat (apply elem_of_cons in Hs as [->|Hs]).
  - split; [done|exact Hcn].
  - split; [done|]. unfold state_of. by rewrite Han.
  - by apply elem_of_nil in Hs.
Qed.

End Replace.

(** C1 (as amended): for a login that passes the checks and whose run id
    is that of an existing control session, [RegisterControl] first puts the
    new control into the manager in place of the prior one, which starts the
    prior session's shutdown, then waits for that shutdown to complete, and
    only then starts the new control: if the prior session drains, the
    login goes through the four states [created], [added], [waited] and
    [started] described below, and if it does not, the login stays blocked
    with the new control not started. In every state the login goes
    through no two active controls have the same run id, and the new
    control is active only when the prior one is closed. *)
Theorem RegisterControl_replaces_prior_session
    (svc : Service) (ctlConn : nat) (m m' : Msg.Login) (nowTime : Z)
    (randid : result string) (limits : Z * Z) (old : nat) (oldc : Control) :
  check_login nowTime m = Ok limits ->
  issue_run_id randid m = Ok m' ->
  ctlsByRunId svc !! Msg.RunId m' = Some old ->
  controls svc !! old = Some oldc ->
  one_active svc ->
  let new := length (controls svc) in
  (exists created added waited started,
      RegisterControl svc ctlConn m nowTime randid true =
        ([created; added; waited; started], Registered new, m') /\
      ctlsByRunId created !! Msg.RunId m' = Some old /\
      (ctlsByRunId added !! Msg.RunId m' = Some new /\
       state_of added old =
         Some (match state oldc with Closed => Closed | _ => Draining end) /\
       state_of added new = Some Login) /\
      (state_of waited old = Some Closed /\ state_of waited new = Some Login) /\
      (ctlsByRunId started !! Msg.RunId m' = Some new /\
       state_of started old = Some Closed /\
       state_of started new = Some Active)) /\
  (forall drains s,
      s ∈ (RegisterControl svc ctlConn m nowTime randid drains).1.1 ->
      at_most_one_active s /\
      (state_of s new = Some Active -> state_of s old = Some Closed)) /\
  (state oldc <> Closed ->
   exists created added,
     RegisterControl svc ctlConn m nowTime randid false =
       ([created; added], Blocked new, m') /\
     state_of added new = Some Login).
Proof.
  intros Hcheck Hid Hmgr Hold Hinv. cbv zeta.
  pose proof (created_facts svc ctlConn m' limits old oldc Hmgr Hold) as (Hcm & _ & Hcn).
  pose proof (added_facts svc ctlConn m' limits old oldc Hmgr Hold) as (Ham & Hao & Han).
  split; [|split].
  - destruct (waited_facts svc ctlConn m' limits old oldc Hmgr Hold true) as [Hsome _].
    destruct (Hsome (or_introl eq_refl)) as (waited & Hw & Hwm & Hwo & Hwn).
    destruct (started_facts svc ctlConn m' limits old oldc Hmgr Hold waited Hwm Hwo Hwn)
      as (Hsm & Hso & Hsn).
    eexists _, _, waited, _. split.
    { rewrite (RegisterControl_steps _ _ _ _ _ _ _ _ Hcheck Hid), Hmgr. cbv zeta.
      rewrite Hw. reflexivity. }
    split; [exact Hcm|]. split; [|split; [|by repeat split]].
    + split; [exact Ham|]. unfold state_of. rewrite Hao, Han. simpl.
      by rewrite state_start_shutdown.
    + split; [exact Hwo|]. unfold state_of. by rewrite Hwn.
  - intros drains s.
    rewrite (RegisterControl_steps _ _ _ _ _ _ _ _ Hcheck Hid), Hmgr. cbv zeta.
    destruct (allShutdown_WaitDone drains old _) as [waited|] eqn:Hw; simpl; intros Hs.
    + destruct (instants_safe svc ctlConn m' limits old oldc Hmgr Hold waited drains
                  Hinv Hw s Hs) as [Hi Ho].
      split; [by apply one_active_unique|done].
    + destruct (instants_blocked_safe svc ctlConn m' limits old oldc Hmgr Hold
                  Hinv s Hs) as [Hi Hl].
      split; [by apply one_active_unique|]. by rewrite Hl.
  - intros Hst.
    destruct (waited_facts svc ctlConn m' limits old oldc Hmgr Hold false) as [_ Hnone].
    eexists _, _. split.
    { rewrite (RegisterControl_steps _ _ _ _ _ _ _ _ Hcheck Hid), Hmgr. cbv zeta.
      rewrite (Hnone eq_refl Hst). reflexivity. }
    unfold state_of. by rewrite Han.
Qed.

(** *** Refused logins *)

(** A refused login has not touched the service or the login message. *)
Lemma RegisterControl_Failed (svc : Service) (ctlConn : nat) (m m' : Msg.Login)
    (nowTime : Z) (randid : result string) (drains : bool)
    (instants : list Service) (err : string) :
  RegisterControl svc ctlConn m nowTime randid drains = (instants, Failed err, m') ->
  instants = [] /\ m' = m.
Proof.
  unfold RegisterControl.
  destruct (check_login nowTime m) as [[inL outL]|e]; [|by intros [= <- _ <-]].
  destruct (issue_run_id randid m) as [m1|e]; [|by intros [= <- _ <-]].
  simpl. destruct (ctlsByRunId svc !! Msg.RunId m1) as [old|]; [|discriminate].
  destruct (allShutdown_WaitDone _ _ _); discriminate.
Qed.

(** C2 (as amended): registration fails whenever the client version is
    incompatible or the supplied key differs from the authentication key of
    the token and the login's timestamp; whenever registration fails, the
    server has created and installed no control, and it sends a LoginResp
    carrying the error text and then closes the connection. *)
Theorem login_refused (svc : Service) (conn : nat) (m : Msg.Login)
    (nowTime : Z) (randid : result string) (drains : bool) :
  ((Compat (Msg.Version m)).1 = false \/
   GetAuthKey (Token cfg) (Msg.Timestamp m) <> Msg.PrivilegeKey m ->
   exists err,
     RegisterControl svc conn m nowTime randid drains = ([], Failed err, m)) /\
  (forall err,
     (RegisterControl svc conn m nowTime randid drains).1.2 = Failed err ->
     dealFn_Login svc conn m nowTime randid drains =
       ([], Failed err, [WriteLoginResp version_Full err; ConnClose])).
Proof.
  split.
  - intros Hbad. unfold RegisterControl, check_login.
    destruct (Compat (Msg.Version m)) as [ok msg]. simpl in Hbad.
    destruct ok; simpl; [|eauto].
    destruct Hbad as [?|Hkey]; [done|].
    apply String.eqb_neq in Hkey. rewrite Hkey. simpl. eauto.
  - intros err Hout. unfold dealFn_Login.
    destruct (RegisterControl svc conn m nowTime randid drains)
      as [[instants out] m'] eqn:Hrun.
    simpl in Hout. subst out.
    by destruct (RegisterControl_Failed _ _ _ _ _ _ _ _ _ Hrun) as [-> _].
Qed.

(** *** The run id of a login *)

Definition runId_of (svc : Service) (ctl : nat) : option string :=
  runId <$> controls svc !! ctl.

(** The call leaves the login message with the run id [rid], and the
    control it has created, registered or still waiting, is the manager's
    entry for [rid] and carries [rid]. *)
Definition registers_under (svc : Service) (run : list Service * outcome * Msg.Login)
    (rid : string) : Prop :=
  let new := length (controls svc) in
  Msg.RunId run.2 = rid /\
  (run.1.2 = Registered new \/ run.1.2 = Blocked new) /\
  exists final,
    last run.1.1 = Some final /\
    ctlsByRunId final !! rid = Some new /\
    runId_of final new = Some rid.

Lemma runId_of_alter (f : Control -> Control) (i j : nat) (l : list Control) :
  (forall c, runId (f c) = runId c) ->
  runId <$> alter f i l !! j = runId <$> l !! j.
Proof.
  intros Hf. destruct (decide (i = j)) as [->|Hne].
  - rewrite list_lookup_alter_eq. destruct (l !! j); simpl; [|done]. by rewrite Hf.
  - by rewrite list_lookup_alter_ne.
Qed.

Lemma WaitDone_keeps (drains : bool) (old : nat) (svc waited : Service) :
  allShutdown_WaitDone drains old svc = Some waited ->
  ctlsByRunId waited = ctlsByRunId svc /\
  forall j, runId_of waited j = runId_of svc j.
Proof.
  unfold allShutdown_WaitDone.
  destruct (controls svc !! old) as [c|]; [|by intros [= <-]].
  destruct (state c), drains; try discriminate; intros [= <-]; try done;
    (split; [done|]); intros j; unfold runId_of; simpl; by apply runId_of_alter.
Qed.

Lemma RegisterControl_registers_under (svc : Service) (ctlConn : nat) (m m' : Msg.Login)
    (nowTime : Z) (randid : result string) (drains : bool) (limits : Z * Z) :
  check_login nowTime m = Ok limits ->
  issue_run_id randid m = Ok m' ->
  registers_under svc (RegisterControl svc ctlConn m nowTime randid drains) (Msg.RunId m').
Proof.
  intros Hcheck Hid. rewrite (RegisterControl_steps _ _ _ _ _ _ _ _ Hcheck Hid). cbv zeta.
  assert (Hadded : ctlsByRunId (added_state svc ctlConn m' limits) !! Msg.RunId m'
                   = Some (length (controls svc)) /\
                   runId_of (added_state svc ctlConn m' limits) (length (controls svc))
                   = Some (Msg.RunId m')).
  { unfold added_state, ControlManager_Add, runId_of. cbn [fst ctlsByRunId controls].
    split; [apply lookup_insert_eq|].
    cbn [created_state ctlsByRunId controls].
    assert (Hnew : runId <$> (controls svc ++ [new_control ctlConn m' limits])%list
                             !! length (controls svc) = Some (Msg.RunId m')).
    { rewrite lookup_app_r by done. by rewrite Nat.sub_diag. }
    destruct (ctlsByRunId svc !! Msg.RunId m'); [|done].
    rewrite runId_of_alter; [done|]. apply start_shutdown_runId. }
  destruct Hadded as [Ham Har].
  assert (Hstart : forall s,
             ctlsByRunId s !! Msg.RunId m' = Some (length (controls svc)) ->
             runId_of s (length (controls svc)) = Some (Msg.RunId m') ->
             ctlsByRunId (Control_Start (length (controls svc)) s) !! Msg.RunId m'
               = Some (length (controls svc)) /\
             runId_of (Control_Start (length (controls svc)) s) (length (controls svc))
               = Some (Msg.RunId m')).
  { intros s Hm Hr. split; [done|]. unfold runId_of, Control_Start. simpl.
    rewrite runId_of_alter; done. }
  unfold registers_under.
  destruct (ctlsByRunId svc !! Msg.RunId m') as [old|].
  - destruct (allShutdown_WaitDone drains old _) as [waited|] eqn:Hw; simpl.
    + destruct (WaitDone_keeps _ _ _ _ Hw) as [Hwm Hwr].
      split; [done|]. split; [by left|]. eexists. split; [done|].
      apply Hstart; [by rewrite Hwm | by rewrite Hwr].
    + split; [done|]. split; [by right|]. eexists. split; [done|]. done.
  - simpl. split; [done|]. split; [by left|]. eexists. split; [done|].
    by apply Hstart.
Qed.

(** C6: when the checks pass, a login whose run id is empty is given the
    run id made of its user name, a ["-"] and the identifier that
    [util.RandId] returned, and a login with a run id keeps it: that is the
    run id in the login message after the call, the run id of the new
    control, and the key under which the manager holds the new control. *)
Theorem RegisterControl_run_id (svc : Service) (ctlConn : nat) (m : Msg.Login)
    (nowTime : Z) (randid : result string) (drains : bool) (limits : Z * Z) :
  check_login nowTime m = Ok limits ->
  (Msg.RunId m = "" -> forall r, randid = Ok r ->
   registers_under svc (RegisterControl svc ctlConn m nowTime randid drains)
     (Msg.User m ++ "-" ++ r)) /\
  (Msg.RunId m <> "" ->
   registers_under svc (RegisterControl svc ctlConn m nowTime randid drains)
     (Msg.RunId m)).
Proof.
  intros Hcheck. split.
  - intros Hempty r ->.
    apply (RegisterControl_registers_under svc ctlConn m
             (set_RunId m (Msg.User m ++ "-" ++ r)) nowTime (Ok r) drains limits Hcheck).
    unfold issue_run_id. by rewrite Hempty.
  - intros Hid%String.eqb_neq.
    apply (RegisterControl_registers_under svc ctlConn m m nowTime randid drains limits Hcheck).
    unfold issue_run_id. by rewrite Hid.
Qed.

End Register.

(** *** Concrete logins

    A server with the token [secret] and without the token-validation API.
    The version check accepts the versions that begin with [0.2], and the
    authentication key of a token and a timestamp is the two joined by a
    [/], which stands in for the digest that [util.GetAuthKey] computes. *)

Definition sample_Compat (v : string) : bool * string :=
  if String.prefix "0.2" v then (true, "")
  else (false, "your version " ++ v ++ " is not supported").

Definition sample_GetAuthKey (token : string) (timestamp : Z) : string :=
  token ++ "/" ++ pretty timestamp.

Definition sample_cfg : ServerCommonConf :=
  {| Token := "secret"; EnableApi := false; ApiBaseUrl := ""; ApiToken := "" |}.

Definition sample_RegisterControl :=
  RegisterControl sample_Compat sample_GetAuthKey sample_cfg
    (fun _ => None) (fun _ _ _ _ => Ok true) (fun _ _ _ => Ok (0, 0)%Z).

Definition sample_dealFn_Login :=
  dealFn_Login sample_Compat "0.29.0" sample_GetAuthKey sample_cfg
    (fun _ => None) (fun _ _ _ _ => Ok true) (fun _ _ _ => Ok (0, 0)%Z).

Definition sample_login (key : string) (timestamp : Z) (runId : string) : Msg.Login :=
  {| Msg.Version := "0.29.0"; Msg.User := "alice"; Msg.PrivilegeKey := key;
     Msg.Timestamp := timestamp; Msg.RunId := runId |}.

Definition emptyService : Service := {| ctlsByRunId := ∅; controls := [] |}.

(** A service with one active session, control 0 under the run id [r1]. *)
Definition oneSession : Service :=
  {| ctlsByRunId := <["r1" := 0]> ∅;
     controls := [{| runId := "r1"; conn := 3; inLimit := 0; outLimit := 0;
                     state := Active |}] |}.

Lemma one_active_oneSession : one_active oneSession.
Proof.
  intros c ctl Hc Ha. destruct c as [|c]; simpl in Hc.
  - by injection Hc as <-.
  - by destruct c.
Qed.

(** C2 (as stated) fails: a login whose timestamp is more than 15 minutes
    older than the server's clock, with the key that belongs to that
    timestamp and a compatible version, is registered, and no error
    response is sent. *)
Lemma stale_login_registers :
  (15 * 60 < 1000000 - Msg.Timestamp (sample_login "secret/0" 0 ""))%Z /\
  (sample_RegisterControl emptyService 7 (sample_login "secret/0" 0 "")
     1000000 (Ok "abcd") true).1.2 = Registered 0 /\
  (sample_dealFn_Login emptyService 7 (sample_login "secret/0" 0 "")
     1000000 (Ok "abcd") true).2 = [].
Proof. split; [done|]. split; by vm_compute. Qed.

(** C1 (as stated) fails: after the second step of a login with the run id
    [r1] on [oneSession] the manager already holds the new control 1 for
    [r1], while the prior control 0 is draining: its shutdown has only been
    started. Before that step the manager still held control 0. *)
Lemma new_control_installed_before_wait :
  exists created added,
    (sample_RegisterControl oneSession 7 (sample_login "secret/5" 5 "r1")
       1000000 (Ok "abcd") true).1.1 !! 0 = Some created /\
    (sample_RegisterControl oneSession 7 (sample_login "secret/5" 5 "r1")
       1000000 (Ok "abcd") true).1.1 !! 1 = Some added /\
    ctlsByRunId created !! "r1" = Some 0 /\
    ctlsByRunId added !! "r1" = Some 1 /\
    state_of added 0 = Some Draining /\
    state_of added 0 <> Some Closed.
Proof.
  eexists _, _. split; [by vm_compute|]. split; [by vm_compute|].
  split; [by vm_compute|]. split; [by vm_compute|]. split; [by vm_compute|].
  discriminate.
Qed.

Lemma RegisterControl_replaces_prior_session_witness :
  exists created added waited started,
    sample_RegisterControl oneSession 7 (sample_login "secret/5" 5 "r1")
      1000000 (Ok "abcd") true =
      ([created; added; waited; started], Registered 1, sample_login "secret/5" 5 "r1") /\
    state_of waited 0 = Some Closed /\ state_of waited 1 = Some Login /\
    state_of started 0 = Some Closed /\ state_of started 1 = Some Active.
Proof.
  destruct (RegisterControl_replaces_prior_session sample_Compat sample_GetAuthKey
              sample_cfg (fun _ => None) (fun _ _ _ _ => Ok true)
              (fun _ _ _ => Ok (0, 0)%Z)
              oneSession 7 (sample_login "secret/5" 5 "r1")
              (sample_login "secret/5" 5 "r1") 1000000 (Ok "abcd") (0, 0)%Z 0
              {| runId := "r1"; conn := 3; inLimit := 0; outLimit := 0; state := Active |})
    as ((created & added & waited & started & Hrun & _ & _ & (Hw0 & Hw1) & (_ & Hs0 & Hs1))
        & _ & _).
  - by vm_compute.
  - reflexivity.
  - by vm_compute.
  - reflexivity.
  - exact one_active_oneSession.
  - exists created, added, waited, started. done.
Defined.

(** A login with the key of another timestamp, and one with a version the
    server does not accept. *)
Lemma login_refused_witness :
  sample_dealFn_Login oneSession 7 (sample_login "secret/4" 5 "r1") 1000000 (Ok "abcd") true =
    ([], Failed "authorization failed",
     [WriteLoginResp "0.29.0" "authorization failed"; ConnClose]) /\
  exists err,
    sample_RegisterControl oneSession 7
      {| Msg.Version := "0.9.0"; Msg.User := "alice"; Msg.PrivilegeKey := "secret/5";
         Msg.Timestamp := 5; Msg.RunId := "" |} 1000000 (Ok "abcd") true =
    ([], Failed err,
     {| Msg.Version := "0.9.0"; Msg.User := "alice"; Msg.PrivilegeKey := "secret/5";
        Msg.Timestamp := 5; Msg.RunId := "" |}).
Proof.
  split.
  - destruct (login_refused sample_Compat "0.29.0" sample_GetAuthKey sample_cfg
                (fun _ => None) (fun _ _ _ _ => Ok true) (fun _ _ _ => Ok (0, 0)%Z)
                oneSession 7 (sample_login "secret/4" 5 "r1") 1000000 (Ok "abcd") true)
      as [_ Hresp].
    apply Hresp. by vm_compute.
  - destruct (login_refused sample_Compat "0.29.0" sample_GetAuthKey sample_cfg
                (fun _ => None) (fun _ _ _ _ => Ok true) (fun _ _ _ => Ok (0, 0)%Z)
                oneSession 7
                {| Msg.Version := "0.9.0"; Msg.User := "alice"; Msg.PrivilegeKey := "secret/5";
                   Msg.Timestamp := 5; Msg.RunId := "" |} 1000000 (Ok "abcd") true)
      as [Hfail _].
    apply Hfail. left. by vm_compute.
Defined.

Example new_client_run_id :
  (sample_RegisterControl emptyService 7 (sample_login "secret/5" 5 "")
     1000000 (Ok "abcd") true).2 = sample_login "secret/5" 5 "alice-abcd".
Proof. by vm_compute. Qed.

(** A new client on the empty service, and a client that comes back with
    the run id [r1]. *)
Lemma RegisterControl_run_id_witness :
  registers_under emptyService
    (sample_RegisterControl emptyService 7 (sample_login "secret/5" 5 "")
       1000000 (Ok "abcd") true) "alice-abcd" /\
  registers_under oneSession
    (sample_RegisterControl oneSession 7 (sample_login "secret/5" 5 "r1")
       1000000 (Ok "abcd") true) "r1".
Proof.
  split.
  - destruct (RegisterControl_run_id sample_Compat sample_GetAuthKey sample_cfg
                (fun _ => None) (fun _ _ _ _ => Ok true) (fun _ _ _ => Ok (0, 0)%Z)
                emptyService 7 (sample_login "secret/5" 5 "") 1000000 (Ok "abcd") true
                (0, 0)%Z) as [Hnew _].
    + by vm_compute.
    + apply (Hnew eq_refl "abcd" eq_refl).
  - destruct (RegisterControl_run_id sample_Compat sample_GetAuthKey sample_cfg
                (fun _ => None) (fun _ _ _ _ => Ok true) (fun _ _ _ => Ok (0, 0)%Z)
                oneSession 7 (sample_login "secret/5" 5 "r1") 1000000 (Ok "abcd") true
                (0, 0)%Z) as [_ Hkeep].
    + by vm_compute.
    + apply Hkeep. discriminate.
Defined.

End Server.

(** ** server/proxy: work connections for user connections *)

Module BaseProxy.

Local Open Scope list_scope.

(** Go's conversion [uint16(v)] of an [int]. *)
Definition uint16 (v : Z) : Z := (v mod 65536)%Z.

(** What is marked on the statistics collector. *)
Inductive stat :=
| OpenConnection (name : string)
| CloseConnection (name : string)
| AddTrafficIn (name : string) (bytes : Z)
| AddTrafficOut (name : string) (bytes : Z).

(** What a handler does to the outside, in order. Connections are numbers;
    [Join] carries whether the work connection was wrapped with encryption
    and with compression. *)
Inductive event :=
| GetWorkConn
| WriteStart (c : nat) (m : Msg.StartWorkConn)
| ConnClose (c : nat)
| Mark (s : stat)
| Join (workConn userConn : nat) (encrypted compressed : bool).

(** The fields of [BaseProxy] that the handlers read. [getWorkConnFn] is
    the closure that takes a work connection of the client; [i] counts its
    calls, and it gives a connection or an error. *)
Record BaseProxy := {
  name : string;
  poolCount : Z;
  getWorkConnFn : nat -> result nat
}.

Inductive outcome := Returned | Panicked.

(** A user connection with the texts of its two addresses. *)
Record UserConn := {
  conn : nat;
  RemoteAddr : string;
  LocalAddr : string
}.

Section Pool.

(** From outside the embedded files: [net.SplitHostPort] and
    [strconv.Atoi], of which the code keeps the values and drops the
    errors, and [msg.WriteMsg] on a work connection, [None] for Go's [nil]
    error. *)
Variable SplitHostPort : string -> string * string.
Variable Atoi : string -> Z.
Variable WriteMsg : nat -> Msg.StartWorkConn -> option string.

(** Address and port of [src] or [dst]; [None] is Go's [nil] address. *)
Definition addr_fields (a : option string) : string * Z :=
  match a with
  | Some s => let '(host, portStr) := SplitHostPort s in (host, Atoi portStr)
  | None => ("", 0%Z)
  end.

Definition start_msg (pxy : BaseProxy) (src dst : option string) : Msg.StartWorkConn :=
  let '(srcAddr, srcPort) := addr_fields src in
  let '(dstAddr, dstPort) := addr_fields dst in
  {| Msg.swc_ProxyName := name pxy;
     Msg.SrcAddr := srcAddr; Msg.SrcPort := uint16 srcPort;
     Msg.DstAddr := dstAddr; Msg.DstPort := uint16 dstPort |}.

(** The loop of [GetWorkConnFromPool] with [n] rounds left, in round [i].
    The result [err] is assigned by the call of [getWorkConnFn] only: the
    [err] that receives the result of [msg.WriteMsg] is declared by [:=]
    in the loop body and is another variable. So the test after the loop
    reads what the last call of [getWorkConnFn] returned, which is [nil]
    when the loop was not left by [return]. *)
Fixpoint pool_loop (pxy : BaseProxy) (m : Msg.StartWorkConn) (n i : nat)
    (workConn : option nat) (tr : list event) : option nat * option string * list event :=
  match n with
  | O => (workConn, None, tr)
  | S n' =>
      match getWorkConnFn pxy i with
      | Err e => (None, Some e, tr ++ [GetWorkConn])
      | Ok c =>
          match WriteMsg c m with
          | Some _ =>
              pool_loop pxy m n' (S i) (Some c)
                (tr ++ [GetWorkConn; WriteStart c m; ConnClose c])
          | None => (Some c, None, tr ++ [GetWorkConn; WriteStart c m])
          end
      end
  end.

(** [GetWorkConnFromPool]: the connection, the error and what was done. The
    bound [poolCount+1] is computed in 64 bits. *)
Definition GetWorkConnFromPool (pxy : BaseProxy) (src dst : option string)
  : option nat * option string * list event :=
  pool_loop pxy (start_msg pxy src dst)
    (Z.to_nat (ClientControl.wrap64 (poolCount pxy + 1))) 0 None [].

(** [HandleUserTcpConnection] for a proxy with the base configuration
    [cfg]. [WithEncryption_err] is the error of [frpIo.WithEncryption],
    [inCount] and [outCount] are what [frpIo.Join] returns. The deferred
    calls run last, the later one first; [defer workConn.Close()] on a
    [nil] connection panics, and the first deferred call still runs. *)
Definition HandleUserTcpConnection (pxy : BaseProxy) (cfg : Config.BaseProxyConf)
    (userConn : UserConn) (WithEncryption_err : option string) (inCount outCount : Z)
  : outcome * list event :=
  let '(workConn, err, tr) :=
    GetWorkConnFromPool pxy (Some (RemoteAddr userConn)) (Some (LocalAddr userConn)) in
  match err with
  | Some _ => (Returned, tr ++ [ConnClose (conn userConn)])
  | None =>
      match workConn with
      | None => (Panicked, tr ++ [ConnClose (conn userConn)])
      | Some c =>
          if Config.UseEncryption cfg && bool_decide (WithEncryption_err <> None) then
            (Returned, tr ++ [ConnClose c; ConnClose (conn userConn)])
          else
            (Returned,
             tr ++ [Mark (OpenConnection (name pxy));
                    Join c (conn userConn) (Config.UseEncryption cfg)
                      (Config.UseCompression cfg);
                    Mark (CloseConnection (name pxy));
                    Mark (AddTrafficIn (name pxy) inCount);
                    Mark (AddTrafficOut (name pxy) outCount);
                    ConnClose c; ConnClose (conn userConn)])
      end
  end.

(** The events of one round that took [c] and failed to write to it. *)
Definition failed_round (m : Msg.StartWorkConn) (c : nat) : list event :=
  [GetWorkConn; WriteStart c m; ConnClose c].

(** [cs] are the connections of rounds [i], [i+1], ..., each taken without
    error and each failing the write. *)
Definition failed_rounds (pxy : BaseProxy) (m : Msg.StartWorkConn) (i : nat)
    (cs : list nat) : Prop :=
  forall j c, cs !! j = Some c ->
              getWorkConnFn pxy (i + j) = Ok c /\ WriteMsg c m <> None.

Definition marks (tr : list event) : list stat :=
  omap (fun e => match e with Mark s => Some s | _ => None end) tr.

Definition closes (tr : list event) : list nat :=
  omap (fun e => match e with ConnClose c => Some c | _ => None end) tr.

Lemma pool_loop_spec (pxy : BaseProxy) (m : Msg.StartWorkConn) (n i : nat)
    (workConn : option nat) (tr : list event) :
  exists cs,
    failed_rounds pxy m i cs /\
    ((length cs = n /\
      pool_loop pxy m n i workConn tr =
        (from_option Some workConn (last cs), None,
         tr ++ concat (failed_round m <$> cs))) \/
     (length cs < n /\ exists e,
      getWorkConnFn pxy (i + length cs) = Err e /\
      pool_loop pxy m n i workConn tr =
        (None, Some e, tr ++ concat (failed_round m <$> cs) ++ [GetWorkConn])) \/
     (length cs < n /\ exists c,
      getWorkConnFn pxy (i + length cs) = Ok c /\ WriteMsg c m = None /\
      pool_loop pxy m n i workConn tr =
        (Some c, None,
         tr ++ concat (failed_round m <$> cs) ++ [GetWorkConn; WriteStart c m]))).
Proof using Type.
  revert i workConn tr. induction n as [|n IH]; intros i workConn tr.
  - exists []. split; [intros j c Hj; discriminate Hj|]. left. simpl.
    by rewrite app_nil_r.
  - simpl. destruct (getWorkConnFn pxy i) as [c|e] eqn:Hget.
    + destruct (WriteMsg c m) as [we|] eqn:Hwrite.
      * destruct (IH (S i) (Some c) (tr ++ [GetWorkConn; WriteStart c m; ConnClose c]))
          as (cs & Hcs & Hres).
        exists (c :: cs). split.
        { intros [|j] c' Hj; simpl in Hj.
          - injection Hj as <-. rewrite Nat.add_0_r, Hget, Hwrite. done.
          - replace (i + S j) with (S i + j) by lia. by apply Hcs. }
        simpl length.
        replace (i + S (length cs)) with (S i + length cs) by lia.
        assert (Hlast : from_option Some workConn (last (c :: cs)) =
                        from_option Some (Some c) (last cs)).
        { destruct cs as [|c' cs']; [done|]. rewrite last_cons.
          by destruct (last (c' :: cs')). }
        rewrite Hlast. rewrite fmap_cons. cbn [concat]. unfold failed_round at 1 3 5.
        destruct Hres as [(Hlen & Hrun)|[(Hlen & e & Hget' & Hrun)|(Hlen & c' & Hget' & Hw & Hrun)]].
        -- left. split; [lia|]. rewrite Hrun. f_equal. by rewrite <- ?app_assoc.
        -- right. left. split; [lia|]. exists e. split; [done|].
           rewrite Hrun. f_equal. by rewrite <- ?app_assoc.
        -- right. right. split; [lia|]. exists c'. split; [done|]. split; [done|].
           rewrite Hrun. f_equal. by rewrite <- ?app_assoc.
      * exists []. split; [intros j c' Hj; discriminate Hj|]. right. right.
        split; [simpl; lia|]. exists c. simpl. rewrite Nat.add_0_r. done.
    + exists []. split; [intros j c' Hj; discriminate Hj|]. right. left.
      split; [simpl; lia|]. exists e. simpl. rewrite Nat.add_0_r. done.
Qed.

Lemma closes_app (tr1 tr2 : list event) : closes (tr1 ++ tr2) = closes tr1 ++ closes tr2.
Proof using Type. apply omap_app. Qed.

Lemma marks_app (tr1 tr2 : list event) : marks (tr1 ++ tr2) = marks tr1 ++ marks tr2.
Proof using Type. apply omap_app. Qed.

Lemma closes_failed_rounds (m : Msg.StartWorkConn) (cs : list nat) :
  closes (concat (failed_round m <$> cs)) = cs.
Proof using Type.
  induction cs as [|c cs IH]; [done|].
  rewrite fmap_cons. cbn [concat]. rewrite closes_app, IH. done.
Qed.

Lemma marks_failed_rounds (m : Msg.StartWorkConn) (cs : list nat) :
  marks (concat (failed_round m <$> cs)) = [].
Proof using Type.
  induction cs as [|c cs IH]; [done|].
  rewrite fmap_cons. cbn [concat]. rewrite marks_app, IH. done.
Qed.

(** [GetWorkConnFromPool] takes connections until one accepts the
    [StartWorkConn] message, at most [poolCount+1] of them, and closes
    exactly those that refused it. Its error is always an error of
    [getWorkConnFn]: when every connection refused the message it returns
    the last one, which it has closed, and no error; when [poolCount+1] is
    not positive it returns neither a connection nor an error. Otherwise
    the first round that does not fail decides: the error of
    [getWorkConnFn], or the connection, to which the message was the last
    thing written. *)
Theorem GetWorkConnFromPool_outcome (pxy : BaseProxy) (src dst : option string) :
  let m := start_msg pxy src dst in
  let n := Z.to_nat (ClientControl.wrap64 (poolCount pxy + 1)) in
  exists cs,
    failed_rounds pxy m 0 cs /\ length cs <= n /\
    closes (GetWorkConnFromPool pxy src dst).2 = cs /\
    marks (GetWorkConnFromPool pxy src dst).2 = [] /\
    match GetWorkConnFromPool pxy src dst with
    | (workConn, err, tr) =>
        (length cs = n -> workConn = last cs /\ err = None) /\
        (length cs < n ->
         match getWorkConnFn pxy (length cs) with
         | Err e => workConn = None /\ err = Some e
         | Ok c => WriteMsg c m = None /\ workConn = Some c /\ err = None /\
                   last tr = Some (WriteStart c m)
         end)
    end.
Proof using Type.
  intros m n. unfold GetWorkConnFromPool. fold m n.
  destruct (pool_loop_spec pxy m n 0 None []) as (cs & Hcs & Hres).
  exists cs. split; [exact Hcs|].
  destruct Hres as [(Hlen & ->)|[(Hlen & e & Hget & ->)|(Hlen & c & Hget & Hw & ->)]];
    cbn [fst snd app]; try (simpl in Hget).
  - split; [lia|]. rewrite closes_failed_rounds, marks_failed_rounds.
    repeat split; try done; try lia. by destruct (last cs).
  - split; [lia|]. rewrite closes_app, marks_app, closes_failed_rounds, marks_failed_rounds.
    split; [by rewrite app_nil_r|]. split; [done|]. split; [lia|].
    intros _. by rewrite Hget.
  - split; [lia|]. rewrite closes_app, marks_app, closes_failed_rounds, marks_failed_rounds.
    split; [by rewrite app_nil_r|]. split; [done|]. split; [lia|].
    intros _. rewrite Hget. repeat split; try done.
    change [GetWorkConn; WriteStart c m] with ([GetWorkConn] ++ [WriteStart c m]).
    rewrite app_assoc. apply last_snoc.
Qed.

(** Every connection of the [n] rounds is taken without error and refuses
    the message. *)
Definition all_writes_fail (pxy : BaseProxy) (m : Msg.StartWorkConn) (n : nat) : Prop :=
  forall j, j < n -> exists c, getWorkConnFn pxy j = Ok c /\ WriteMsg c m <> None.

Lemma pool_loop_all_fail (pxy : BaseProxy) (m : Msg.StartWorkConn) (n : nat) :
  all_writes_fail pxy m (S n) ->
  exists c tr,
    getWorkConnFn pxy n = Ok c /\
    pool_loop pxy m (S n) 0 None [] = (Some c, None, tr ++ [ConnClose c]).
Proof using Type.
  intros Hall.
  destruct (pool_loop_spec pxy m (S n) 0 None []) as (cs & Hcs & Hres).
  destruct Hres as [(Hlen & ->)|[(Hlen & e & Hget & _)|(Hlen & c & Hget & Hw & _)]].
  - destruct (lookup_lt_is_Some_2 cs n) as [c Hc]; [lia|].
    destruct (Hcs n c Hc) as [Hget _]. simpl in Hget.
    assert (Hsplit : cs = take n cs ++ [c]).
    { rewrite <- (take_drop n cs) at 1. f_equal.
      apply list_eq. intros [|k].
      - rewrite lookup_drop, Nat.add_0_r. done.
      - rewrite lookup_drop. simpl. apply lookup_ge_None_2. lia. }
    exists c, (concat (failed_round m <$> take n cs) ++ [GetWorkConn; WriteStart c m]).
    split; [done|]. rewrite Hsplit at 1 2. rewrite last_snoc. simpl. f_equal.
    rewrite fmap_app, concat_app. simpl. rewrite <- !app_assoc. done.
  - destruct (Hall (length cs)) as (c & Hget' & _); [lia|]. simpl in Hget. congruence.
  - destruct (Hall (length cs)) as (c' & Hget' & Hw'); [lia|]. simpl in Hget. congruence.
Qed.

Lemma pool_loop_nil (pxy : BaseProxy) (m : Msg.StartWorkConn) (n : nat) :
  (exists tr, pool_loop pxy m n 0 None [] = (None, None, tr)) <-> n = 0.
Proof using Type.
  split; [|intros ->; by exists []].
  intros [tr Hrun]. destruct n as [|n]; [done|]. exfalso.
  destruct (pool_loop_spec pxy m (S n) 0 None []) as (cs & Hcs & Hres).
  destruct Hres as [(Hlen & Heq)|[(Hlen & e & Hget & Heq)|(Hlen & c & Hget & Hw & Heq)]];
    rewrite Heq in Hrun; try congruence.
  destruct cs as [|c cs] using rev_ind; [discriminate Hlen|].
  rewrite last_snoc in Hrun. discriminate Hrun.
Qed.

Lemma failed_rounds_no_join (m : Msg.StartWorkConn) (cs : list nat) (c u : nat) (e k : bool) :
  ~ In (Join c u e k) (concat (failed_round m <$> cs)).
Proof using Type.
  induction cs as [|c' cs IH]; [intros []|]. simpl.
  intros [H|[H|[H|H]]]; try discriminate H. by apply IH.
Qed.

Lemma GetWorkConnFromPool_marks_joins (pxy : BaseProxy) (src dst : option string) :
  marks (GetWorkConnFromPool pxy src dst).2 = [] /\
  forall c u e k, ~ In (Join c u e k) (GetWorkConnFromPool pxy src dst).2.
Proof using Type.
  unfold GetWorkConnFromPool.
  destruct (pool_loop_spec pxy (start_msg pxy src dst)
              (Z.to_nat (ClientControl.wrap64 (poolCount pxy + 1))) 0 None [])
    as (cs & Hcs & Hres).
  destruct Hres as [(Hlen & ->)|[(Hlen & e & Hget & ->)|(Hlen & c & Hget & Hw & ->)]];
    cbn [fst snd app]; rewrite ?marks_app, marks_failed_rounds; (split; [done|]);
    intros c0 u e0 k Hin; try apply in_app_or in Hin as [Hin|Hin];
    try (by apply failed_rounds_no_join in Hin);
    simpl in Hin; decompose [or] Hin; discriminate || done.
Qed.

(** [HandleUserTcpConnection] closes the user connection as the last thing
    it does, in every run. It marks nothing on the statistics, or an open
    connection, its close and the two traffic counts, in this order. It
    joins at most once, and the work connection it joined is closed
    afterwards, before the user connection. It panics exactly when
    [poolCount+1] is not positive. *)
Theorem HandleUserTcpConnection_trace (pxy : BaseProxy) (cfg : Config.BaseProxyConf)
    (userConn : UserConn) (WithEncryption_err : option string) (inCount outCount : Z) :
  match HandleUserTcpConnection pxy cfg userConn WithEncryption_err inCount outCount with
  | (o, tr) =>
      last tr = Some (ConnClose (conn userConn)) /\
      (marks tr = [] \/
       marks tr = [OpenConnection (name pxy); CloseConnection (name pxy);
                   AddTrafficIn (name pxy) inCount; AddTrafficOut (name pxy) outCount]) /\
      (forall c e k,
          In (Join c (conn userConn) e k) tr ->
          exists tr1,
            marks tr1 = [] /\
            tr = tr1 ++ [Mark (OpenConnection (name pxy)); Join c (conn userConn) e k;
                         Mark (CloseConnection (name pxy));
                         Mark (AddTrafficIn (name pxy) inCount);
                         Mark (AddTrafficOut (name pxy) outCount);
                         ConnClose c; ConnClose (conn userConn)]) /\
      (o = Panicked <-> (ClientControl.wrap64 (poolCount pxy + 1) <= 0)%Z)
  end.
Proof using Type.
  unfold HandleUserTcpConnection.
  pose proof (GetWorkConnFromPool_marks_joins pxy (Some (RemoteAddr userConn))
                (Some (LocalAddr userConn))) as Hpool.
  pose proof (pool_loop_nil pxy
                (start_msg pxy (Some (RemoteAddr userConn)) (Some (LocalAddr userConn)))
                (Z.to_nat (ClientControl.wrap64 (poolCount pxy + 1)))) as Hnil.
  fold (GetWorkConnFromPool pxy (Some (RemoteAddr userConn)) (Some (LocalAddr userConn)))
    in Hnil.
  destruct (GetWorkConnFromPool pxy _ _) as [[workConn err] tr].
  destruct Hpool as [Hmarks Hjoins]. cbn [snd] in Hmarks, Hjoins.
  assert (Hpanic : (workConn = None /\ err = None) <->
                   (ClientControl.wrap64 (poolCount pxy + 1) <= 0)%Z).
  { transitivity (Z.to_nat (ClientControl.wrap64 (poolCount pxy + 1)) = 0); [|lia].
    rewrite <- Hnil. split.
    - intros [-> ->]. by exists tr.
    - intros [tr' [= -> -> _]]. done. }
  destruct err as [e|].
  - split; [apply last_snoc|]. split; [left; by rewrite marks_app, Hmarks|]. split.
    + intros c e' k Hin. apply in_app_or in Hin as [Hin|[Hin|[]]]; [|discriminate Hin].
      by destruct (Hjoins _ _ _ _ Hin).
    + split; [discriminate|]. intros Hle. apply Hpanic in Hle as [_ Hle]. discriminate Hle.
  - destruct workConn as [c|].
    + destruct (Config.UseEncryption cfg && bool_decide (WithEncryption_err <> None)).
      * split.
        { match goal with
          | |- last (tr ++ ?l) = _ =>
              change l with ((removelast l) ++ [ConnClose (conn userConn)])
          end.
          rewrite app_assoc. apply last_snoc. }
        split; [left; by rewrite marks_app, Hmarks|]. split.
        -- intros c' e' k Hin. apply in_app_or in Hin as [Hin|Hin].
           ++ by destruct (Hjoins _ _ _ _ Hin).
           ++ simpl in Hin. decompose [or] Hin; discriminate || done.
        -- split; [discriminate|]. intros Hle. apply Hpanic in Hle as [Hle _].
           discriminate Hle.
      * split.
        { match goal with
          | |- last (tr ++ ?l) = _ =>
              change l with ((removelast l) ++ [ConnClose (conn userConn)])
          end.
          rewrite app_assoc. apply last_snoc. }
        split; [right; by rewrite marks_app, Hmarks|]. split.
        -- intros c' e' k Hin. apply in_app_or in Hin as [Hin|Hin].
           ++ by destruct (Hjoins _ _ _ _ Hin).
           ++ simpl in Hin. decompose [or] Hin; try discriminate; try done.
              match goal with H : Join _ _ _ _ = Join _ _ _ _ |- _ => injection H as <- <- <- end.
              exists tr. done.
        -- split; [discriminate|]. intros Hle. apply Hpanic in Hle as [Hle _].
           discriminate Hle.
    + split; [apply last_snoc|]. split; [left; by rewrite marks_app, Hmarks|]. split.
      * intros c e' k Hin. apply in_app_or in Hin as [Hin|[Hin|[]]]; [|discriminate Hin].
        by destruct (Hjoins _ _ _ _ Hin).
      * split; [intros _; by apply Hpanic|done].
Qed.

(** When each of the [poolCount+1] work connections refuses the
    [StartWorkConn] message, [HandleUserTcpConnection] does not give up:
    unless setting up encryption fails, it joins the user connection to the
    last work connection, which [GetWorkConnFromPool] has closed already. *)
Theorem HandleUserTcpConnection_all_writes_fail (pxy : BaseProxy)
    (cfg : Config.BaseProxyConf) (userConn : UserConn)
    (WithEncryption_err : option string) (inCount outCount : Z) :
  let m := start_msg pxy (Some (RemoteAddr userConn)) (Some (LocalAddr userConn)) in
  let n := Z.to_nat (ClientControl.wrap64 (poolCount pxy + 1)) in
  0 < n ->
  all_writes_fail pxy m n ->
  Config.UseEncryption cfg = false \/ WithEncryption_err = None ->
  exists c tr1 tr2,
    getWorkConnFn pxy (n - 1) = Ok c /\
    HandleUserTcpConnection pxy cfg userConn WithEncryption_err inCount outCount =
      (Returned,
       tr1 ++ [ConnClose c; Mark (OpenConnection (name pxy));
               Join c (conn userConn) (Config.UseEncryption cfg)
                 (Config.UseCompression cfg)] ++ tr2).
Proof using Type.
  intros m n Hn Hall Henc.
  unfold HandleUserTcpConnection, GetWorkConnFromPool. fold m n.
  destruct n as [|n']; [lia|].
  destruct (pool_loop_all_fail pxy m n' Hall) as (c & tr & Hget & ->).
  exists c, tr. eexists. split; [by replace (S n' - 1) with n' by lia|].
  assert (Hgo : Config.UseEncryption cfg && bool_decide (WithEncryption_err <> None) = false).
  { destruct Henc as [->| ->]; [done|]. rewrite bool_decide_eq_false_2 by auto.
    apply andb_false_r. }
  rewrite Hgo. rewrite <- app_assoc. reflexivity.
Qed.

End Pool.

(** *** A sample pool

    Work connections 10, 11, ... come out of the pool in this order; the
    connections below [first_good] refuse the message. *)
Definition sample_SplitHostPort (s : string) : string * string :=
  match Strings.Split s ":" with
  | [host; port] => (host, port)
  | _ => ("", "")
  end.

Definition sample_Atoi (s : string) : Z := default 0%Z (Config.sample_Atoi s).

Definition sample_WriteMsg (first_good c : nat) (m : Msg.StartWorkConn) : option string :=
  if Nat.ltb c first_good then Some "broken pipe"%string else None.

Definition samplePool (poolCount : Z) : BaseProxy :=
  {| name := "ssh"; poolCount := poolCount; getWorkConnFn := fun i => Ok (10 + i) |}.

Definition sampleUser : UserConn :=
  {| conn := 1; RemoteAddr := "1.2.3.4:5678"; LocalAddr := "10.0.0.1:6000" |}.

Definition sampleStart : Msg.StartWorkConn :=
  {| Msg.swc_ProxyName := "ssh";
     Msg.SrcAddr := "1.2.3.4"; Msg.SrcPort := 5678;
     Msg.DstAddr := "10.0.0.1"; Msg.DstPort := 6000 |}.

(** With a pool count of 1 and a first connection that refuses the message,
    the second connection is returned and the first is closed. *)
Example GetWorkConnFromPool_second :
  GetWorkConnFromPool sample_SplitHostPort sample_Atoi (sample_WriteMsg 11) (samplePool 1)
    (Some (RemoteAddr sampleUser)) (Some (LocalAddr sampleUser)) =
  (Some 11, None,
   [GetWorkConn; WriteStart 10 sampleStart; ConnClose 10;
    GetWorkConn; WriteStart 11 sampleStart]).
Proof. by vm_compute. Qed.

(** With both connections refusing, the second is returned closed, without
    error. *)
Example GetWorkConnFromPool_all_refuse :
  GetWorkConnFromPool sample_SplitHostPort sample_Atoi (sample_WriteMsg 100) (samplePool 1)
    (Some (RemoteAddr sampleUser)) (Some (LocalAddr sampleUser)) =
  (Some 11, None,
   [GetWorkConn; WriteStart 10 sampleStart; ConnClose 10;
    GetWorkConn; WriteStart 11 sampleStart; ConnClose 11]).
Proof. by vm_compute. Qed.

(** With a pool count of -1 there is neither connection nor error, and
    the handler panics after closing the user connection. *)
Example HandleUserTcpConnection_no_rounds :
  HandleUserTcpConnection sample_SplitHostPort sample_Atoi (sample_WriteMsg 10)
    (samplePool (-1)) Config.sampleBase sampleUser None 0 0 =
  (Panicked, [ConnClose 1]).
Proof. by vm_compute. Qed.

Lemma HandleUserTcpConnection_all_writes_fail_witness :
  exists c tr1 tr2,
    getWorkConnFn (samplePool 1) (Z.to_nat (ClientControl.wrap64 (1 + 1)) - 1) = Ok c /\
    HandleUserTcpConnection sample_SplitHostPort sample_Atoi (sample_WriteMsg 100)
      (samplePool 1) Config.sampleBase sampleUser None 7 9 =
    (Returned,
     tr1 ++ [ConnClose c; Mark (OpenConnection "ssh"); Join c 1 false false] ++ tr2).
Proof.
  apply (HandleUserTcpConnection_all_writes_fail sample_SplitHostPort sample_Atoi
           (sample_WriteMsg 100) (samplePool 1) Config.sampleBase sampleUser None 7%Z 9%Z).
  - vm_compute. lia.
  - intros j Hj. exists (10 + j). split; [reflexivity|].
    assert (Hlt : j < 2) by exact Hj.
    destruct j as [|[|j]]; [discriminate|discriminate|lia].
  - right. reflexivity.
Defined.

End BaseProxy.

(** ** server/proxy/http: the routes of an http proxy *)

Module HttpProxy.

(** The fields of [vhost.VhostRouteConfig] that [Run] sets, without the
    function [CreateConnFn]. *)
Record VhostRouteConfig := {
  Domain : string;
  Location : string;
  RewriteHost : string;
  Headers : gmap string string;
  Username : string;
  Password : string
}.

(** The two closures that [Run] appends to [closeFuncs], with what each
    has captured. *)
Inductive closeFn :=
| GroupUnRegister (name group domain location : string)
| UnRegister (domain location : string).

(** An [HttpProxy] with the fields of its [BaseProxy] and of the server
    configuration that [Run] and [Close] read. *)
Record HttpProxy := {
  name : string;
  listeners : list nat;
  VhostHttpPort : Z;
  SubDomainHost : string;
  cfg : Config.HttpProxyConf;
  closeFuncs : list closeFn
}.

Definition set_closeFuncs (pxy : HttpProxy) (fs : list closeFn) : HttpProxy :=
  {| name := name pxy; listeners := listeners pxy; VhostHttpPort := VhostHttpPort pxy;
     SubDomainHost := SubDomainHost pxy; cfg := cfg pxy; closeFuncs := fs |}.

Definition Group (pxy : HttpProxy) : string :=
  Config.Group (Config.http_BaseProxyConf (cfg pxy)).

Definition GroupKey (pxy : HttpProxy) : string :=
  Config.GroupKey (Config.http_BaseProxyConf (cfg pxy)).

Section Run.

(** From outside the embedded files: the state [W] of the resource
    controller and of the listeners, the two route registries with their
    [Register], which gives an error or not, and [UnRegister], the [Close]
    of a listener, and [util.CanonicalAddr]. *)
Variable W : Type.
Variable HTTPGroupCtl_Register :
  string -> string -> string -> VhostRouteConfig -> W -> W * option string.
Variable HTTPGroupCtl_UnRegister : string -> string -> string -> string -> W -> W.
Variable HttpReverseProxy_Register : VhostRouteConfig -> W -> W * option string.
Variable HttpReverseProxy_UnRegister : string -> string -> W -> W.
Variable Listener_Close : nat -> W -> W.
Variable CanonicalAddr : string -> Z -> string.

Definition routeConfig (pxy : HttpProxy) (domain location : string) : VhostRouteConfig :=
  {| Domain := domain; Location := location;
     RewriteHost := Config.HostHeaderRewrite (cfg pxy);
     Headers := Config.Headers (cfg pxy);
     Username := Config.HttpUser (cfg pxy);
     Password := Config.HttpPwd (cfg pxy) |}.

Definition call (f : closeFn) (w : W) : W :=
  match f with
  | GroupUnRegister name group domain location =>
      HTTPGroupCtl_UnRegister name group domain location w
  | UnRegister domain location => HttpReverseProxy_UnRegister domain location w
  end.

(** [BaseProxy.Close], then every function of [closeFuncs], in order. *)
Definition Close (pxy : HttpProxy) (w : W) : W :=
  foldl (fun w closeFn => call closeFn w)
    (foldl (fun w l => Listener_Close l w) w (listeners pxy))
    (closeFuncs pxy).

(** What [Run] has built so far: [closeFuncs], [addrs] and the state. *)
Definition progress : Type := list closeFn * list string * W.

(** The body of the loop over the locations, the same in both places. *)
Definition register (pxy : HttpProxy) (domain location : string) (st : progress)
  : progress * option string :=
  let '(fs, addrs, w) := st in
  if negb (String.eqb (Group pxy) "") then
    let '(w, err) := HTTPGroupCtl_Register (name pxy) (Group pxy) (GroupKey pxy)
                       (routeConfig pxy domain location) w in
    match err with
    | Some e => ((fs, addrs, w), Some e)
    | None =>
        (((fs ++ [GroupUnRegister (name pxy) (Group pxy) domain location])%list,
          (addrs ++ [CanonicalAddr domain (VhostHttpPort pxy)])%list, w), None)
    end
  else
    let '(w, err) := HttpReverseProxy_Register (routeConfig pxy domain location) w in
    match err with
    | Some e => ((fs, addrs, w), Some e)
    | None =>
        (((fs ++ [UnRegister domain location])%list,
          (addrs ++ [CanonicalAddr domain (VhostHttpPort pxy)])%list, w), None)
    end.

Fixpoint range_locations (pxy : HttpProxy) (domain : string) (locations : list string)
    (st : progress) : progress * option string :=
  match locations with
  | [] => (st, None)
  | location :: rest =>
      match register pxy domain location st with
      | (st, Some e) => (st, Some e)
      | (st, None) => range_locations pxy domain rest st
      end
  end.

Fixpoint range_domains (pxy : HttpProxy) (domains locations : list string)
    (st : progress) : progress * option string :=
  match domains with
  | [] => (st, None)
  | domain :: rest =>
      if String.eqb domain "" then range_domains pxy rest locations st
      else
        match range_locations pxy domain locations st with
        | (st, Some e) => (st, Some e)
        | (st, None) => range_domains pxy rest locations st
        end
  end.

Definition locations_of (pxy : HttpProxy) : list string :=
  if Nat.eqb (length (Config.Locations (cfg pxy))) 0 then [""]
  else Config.Locations (cfg pxy).

(** [Run]: the proxy and the state after the call, [remoteAddr] and [err].
    The deferred function calls [Close] when [err] is set; [remoteAddr] is
    assigned only at the end. *)
Definition Run (pxy : HttpProxy) (w : W) : HttpProxy * W * (string * option string) :=
  let locations := locations_of pxy in
  let failed (st : progress) (e : string) :=
    let pxy := set_closeFuncs pxy st.1.1 in
    (pxy, Close pxy st.2, ("", Some e)) in
  match range_domains pxy (Config.CustomDomains (Config.http_DomainConf (cfg pxy)))
          locations (closeFuncs pxy, [], w) with
  | (st, Some e) => failed st e
  | (st, None) =>
      let subDomain := Config.SubDomain (Config.http_DomainConf (cfg pxy)) in
      match (if negb (String.eqb subDomain "") then
               range_locations pxy (subDomain ++ "." ++ SubDomainHost pxy) locations st
             else (st, None)) with
      | (st, Some e) => failed st e
      | (st, None) =>
          (set_closeFuncs pxy st.1.1, st.2, (Strings.Join st.1.2 ",", None))
      end
  end.

(** *** The routes of a proxy

    The pairs of domain and location that [Run] registers, in its order:
    every custom domain that is not empty with every location, then the
    subdomain under the subdomain host with every location. *)
Definition routes (pxy : HttpProxy) : list (string * string) :=
  ((d ← filter (fun d => d <> "") (Config.CustomDomains (Config.http_DomainConf (cfg pxy)));
    pair d <$> locations_of pxy) ++
   (if negb (String.eqb (Config.SubDomain (Config.http_DomainConf (cfg pxy))) "")
    then pair (Config.SubDomain (Config.http_DomainConf (cfg pxy)) ++ "." ++
                 SubDomainHost pxy)%string
           <$> locations_of pxy
    else []))%list.

(** The closure that [Run] keeps for a route. *)
Definition close_of (pxy : HttpProxy) (r : string * string) : closeFn :=
  if negb (String.eqb (Group pxy) "") then GroupUnRegister (name pxy) (Group pxy) r.1 r.2
  else UnRegister r.1 r.2.

(** Registering one route: the state after it and the error. *)
Definition register_route (pxy : HttpProxy) (r : string * string) (w : W)
  : W * option string :=
  if negb (String.eqb (Group pxy) "") then
    HTTPGroupCtl_Register (name pxy) (Group pxy) (GroupKey pxy) (routeConfig pxy r.1 r.2) w
  else HttpReverseProxy_Register (routeConfig pxy r.1 r.2) w.

(** The state after the routes [rs] were registered one after the other,
    and that each of them was registered without error. *)
Definition registered (pxy : HttpProxy) (rs : list (string * string)) (w : W) : W :=
  foldl (fun w r => (register_route pxy r w).1) w rs.

Fixpoint accepted (pxy : HttpProxy) (rs : list (string * string)) (w : W) : Prop :=
  match rs with
  | [] => True
  | r :: rest =>
      (register_route pxy r w).2 = None /\ accepted pxy rest (register_route pxy r w).1
  end.

(** One loop over a list of routes, to which both loops of [Run] amount. *)
Fixpoint range_routes (pxy : HttpProxy) (rs : list (string * string)) (st : progress)
  : progress * option string :=
  match rs with
  | [] => (st, None)
  | r :: rest =>
      match register pxy r.1 r.2 st with
      | (st, Some e) => (st, Some e)
      | (st, None) => range_routes pxy rest st
      end
  end.

(** The address that [Run] reports for a route. *)
Definition addr_of (pxy : HttpProxy) (r : string * string) : string :=
  CanonicalAddr r.1 (VhostHttpPort pxy).

Lemma register_register_route (pxy : HttpProxy) (r : string * string)
    (fs : list closeFn) (addrs : list string) (w : W) :
  register pxy r.1 r.2 (fs, addrs, w) =
  match register_route pxy r w with
  | (w', Some e) => ((fs, addrs, w'), Some e)
  | (w', None) => (((fs ++ [close_of pxy r])%list, (addrs ++ [addr_of pxy r])%list, w'), None)
  end.
Proof using Type.
  unfold register, register_route, close_of, addr_of.
  destruct (negb (String.eqb (Group pxy) "")).
  - by destruct (HTTPGroupCtl_Register _ _ _ _ _) as [w' [e|]].
  - by destruct (HttpReverseProxy_Register _ _) as [w' [e|]].
Qed.

Lemma range_locations_routes (pxy : HttpProxy) (domain : string) (locations : list string)
    (st : progress) :
  range_locations pxy domain locations st = range_routes pxy (pair domain <$> locations) st.
Proof using Type.
  revert st. induction locations as [|location rest IH]; intros st; [done|].
  simpl. destruct (register pxy domain location st) as [st' [e|]]; [done|]. apply IH.
Qed.

Lemma range_routes_app (pxy : HttpProxy) (rs rs' : list (string * string)) (st : progress) :
  range_routes pxy (rs ++ rs')%list st =
  match range_routes pxy rs st with
  | (st', Some e) => (st', Some e)
  | (st', None) => range_routes pxy rs' st'
  end.
Proof using Type.
  revert st. induction rs as [|r rs IH]; intros st; [done|].
  simpl. destruct (register pxy r.1 r.2 st) as [st' [e|]]; [done|]. apply IH.
Qed.

Lemma range_domains_routes (pxy : HttpProxy) (domains locations : list string)
    (st : progress) :
  range_domains pxy domains locations st =
  range_routes pxy (d ← filter (fun d => d <> "") domains; pair d <$> locations) st.
Proof using Type.
  revert st. induction domains as [|domain rest IH]; intros st; [done|].
  simpl. destruct (String.eqb_spec domain "") as [->|Hne].
  - rewrite filter_cons_False by (intros H; by apply H). apply IH.
  - rewrite filter_cons_True by done. rewrite bind_cons, range_routes_app.
    rewrite range_locations_routes.
    destruct (range_routes pxy (pair domain <$> locations) st) as [st' [e|]]; [done|].
    apply IH.
Qed.

(** One loop over the routes: it registers a first part [done] of them and
    stops at the first that is refused, or registers them all. *)
Lemma range_routes_spec (pxy : HttpProxy) (rs : list (string * string))
    (fs : list closeFn) (addrs : list string) (w : W) :
  exists done,
    accepted pxy done w /\
    ((done = rs /\
      range_routes pxy rs (fs, addrs, w) =
        (((fs ++ (close_of pxy <$> done))%list, (addrs ++ (addr_of pxy <$> done))%list,
          registered pxy done w), None)) \/
     (exists r rest e,
         rs = (done ++ r :: rest)%list /\
         (register_route pxy r (registered pxy done w)).2 = Some e /\
         range_routes pxy rs (fs, addrs, w) =
           (((fs ++ (close_of pxy <$> done))%list, (addrs ++ (addr_of pxy <$> done))%list,
             (register_route pxy r (registered pxy done w)).1), Some e))).
Proof using Type.
  revert fs addrs w. induction rs as [|r rs IH]; intros fs addrs w.
  - exists []. split; [done|]. left. split; [done|]. simpl. by rewrite !app_nil_r.
  - cbn [range_routes]. rewrite register_register_route.
    destruct (register_route pxy r w) as [w' [e|]] eqn:Hreg.
    + exists []. split; [done|]. right. exists r, rs, e. simpl. rewrite Hreg, !app_nil_r.
      done.
    + destruct (IH (fs ++ [close_of pxy r])%list (addrs ++ [addr_of pxy r])%list w')
        as (done & Hacc & Hres).
      exists (r :: done). split; [simpl; by rewrite Hreg|].
      unfold registered in *. simpl. rewrite Hreg. simpl.
      rewrite <- !app_assoc in Hres. simpl in Hres.
      destruct Hres as [[-> Hrun]|(r' & rest & e & -> & Hfail & Hrun)].
      * left. done.
      * right. exists r', rest, e. done.
Qed.

(** [Run] registers the routes of the proxy in their order. If none is
    refused, every route is registered, [closeFuncs] has gained the closure
    of each, nothing is closed, and [remoteAddr] joins the address of each
    route with commas. If one is refused, the routes before it were
    registered and their closures appended, the refusal is the error,
    [remoteAddr] is empty, and [Close] has run: the listeners are closed and
    every function of [closeFuncs] is called, those of the routes just
    registered included. *)
Theorem Run_routes (pxy : HttpProxy) (w : W) :
  exists done,
    accepted pxy done w /\
    match Run pxy w with
    | (pxy', w', (remoteAddr, err)) =>
        pxy' = set_closeFuncs pxy (closeFuncs pxy ++ (close_of pxy <$> done))%list /\
        match err with
        | None =>
            done = routes pxy /\
            w' = registered pxy done w /\
            remoteAddr = Strings.Join (addr_of pxy <$> done) ","
        | Some e =>
            remoteAddr = "" /\
            exists r rest,
              routes pxy = (done ++ r :: rest)%list /\
              (register_route pxy r (registered pxy done w)).2 = Some e /\
              w' = Close pxy' (register_route pxy r (registered pxy done w)).1
        end
    end.
Proof using Type.
  destruct (range_routes_spec pxy (routes pxy) (closeFuncs pxy) [] w)
    as (done & Hacc & Hres).
  exists done. split; [exact Hacc|].
  assert (Hrun : Run pxy w =
            match range_routes pxy (routes pxy) (closeFuncs pxy, [], w) with
            | (st, Some e) =>
                (set_closeFuncs pxy st.1.1, Close (set_closeFuncs pxy st.1.1) st.2,
                 ("", Some e))
            | (st, None) =>
                (set_closeFuncs pxy st.1.1, st.2, (Strings.Join st.1.2 ",", None))
            end).
  { unfold Run, routes. rewrite range_routes_app, range_domains_routes.
    match goal with
    | |- context [range_routes pxy ?rs (closeFuncs pxy, [], w)] =>
        destruct (range_routes pxy rs (closeFuncs pxy, [], w)) as [st [e|]]; [done|]
    end.
    destruct (negb (String.eqb (Config.SubDomain _) "")).
    - by rewrite range_locations_routes.
    - done. }
  rewrite Hrun.
  destruct Hres as [[-> ->]|(r & rest & e & Hsplit & Hfail & ->)]; cbn [fst snd].
  - done.
  - split; [done|]. split; [done|]. exists r, rest. done.
Qed.

End Run.

(** *** A sample registry

    The state is the list of registered routes; registering a route that
    is there already is refused. The group registry is not used by the
    sample proxy. *)
Definition sampleW : Type := list (string * string).

Definition sample_Register (rc : VhostRouteConfig) (w : sampleW) : sampleW * option string :=
  if bool_decide ((Domain rc, Location rc) ∈ w) then (w, Some "router config conflict")
  else ((w ++ [(Domain rc, Location rc)])%list, None).

Definition sample_UnRegister (domain location : string) (w : sampleW) : sampleW :=
  filter (fun r => r <> (domain, location)) w.

Definition sample_CanonicalAddr (domain : string) (port : Z) : string :=
  domain ++ ":" ++ pretty port.

Definition sample_Run : HttpProxy -> sampleW -> HttpProxy * sampleW * (string * option string) :=
  Run sampleW (fun _ _ _ rc w => sample_Register rc w) (fun _ _ => sample_UnRegister)
    sample_Register sample_UnRegister (fun _ w => w) sample_CanonicalAddr.

Definition sampleWebProxy : HttpProxy :=
  {| name := "web"; listeners := []; VhostHttpPort := 80; SubDomainHost := "frps.com";
     cfg := {| Config.http_BaseProxyConf := Config.sampleBase;
               Config.http_DomainConf :=
                 {| Config.CustomDomains := ["a.com"; ""; "b.com"];
                    Config.SubDomain := "app" |};
               Config.Locations := ["/x"; "/y"];
               Config.HttpUser := ""; Config.HttpPwd := "";
               Config.HostHeaderRewrite := ""; Config.Headers := ∅ |};
     closeFuncs := [] |}.

(** Six routes on an empty registry: all are registered. *)
Example sample_Run_registers :
  (sample_Run sampleWebProxy []).2 =
    ("a.com:80,a.com:80,b.com:80,b.com:80,app.frps.com:80,app.frps.com:80", None) /\
  (sample_Run sampleWebProxy []).1.2 =
    [("a.com", "/x"); ("a.com", "/y"); ("b.com", "/x"); ("b.com", "/y");
     ("app.frps.com", "/x"); ("app.frps.com", "/y")] /\
  length (closeFuncs (sample_Run sampleWebProxy []).1.1) = 6.
Proof. by vm_compute. Qed.

(** With the route of [b.com] and [/y] taken by another proxy, [Run] fails
    at the fourth route and the three routes it had registered are gone
    again. *)
Example sample_Run_rolls_back :
  (sample_Run sampleWebProxy [("b.com", "/y")]).2 = ("", Some "router config conflict") /\
  (sample_Run sampleWebProxy [("b.com", "/y")]).1.2 = [("b.com", "/y")] /\
  closeFuncs (sample_Run sampleWebProxy [("b.com", "/y")]).1.1 =
    [UnRegister "a.com" "/x"; UnRegister "a.com" "/y"; UnRegister "b.com" "/x"].
Proof. by vm_compute. Qed.

End HttpProxy.

(** ** cmd/frpc/sub: the common configuration from the command line *)

Module Sub.

(** The package variables that the flags of a sub-command fill and that
    [parseClientCommonCfgFromCmd] reads. *)
Record Flags := {
  serverAddr : string;
  user : string;
  protocol : string;
  token : string;
  logLevel : string;
  logFile : string;
  logMaxDays : Z
}.

(** The fields of [g.GlbClientCfg] that [parseClientCommonCfgFromCmd]
    writes. *)
Record ClientCommonConf := {
  ServerAddr : string;
  ServerPort : Z;
  User : string;
  Protocol : string;
  Token : string;
  LogLevel : string;
  LogFile : string;
  LogMaxDays : Z;
  LogWay : string
}.

Definition set_ServerAddr (cfg : ClientCommonConf) (v : string) : ClientCommonConf :=
  {| ServerAddr := v; ServerPort := ServerPort cfg; User := User cfg;
     Protocol := Protocol cfg; Token := Token cfg; LogLevel := LogLevel cfg;
     LogFile := LogFile cfg; LogMaxDays := LogMaxDays cfg; LogWay := LogWay cfg |}.

Definition set_ServerPort (cfg : ClientCommonConf) (v : Z) : ClientCommonConf :=
  {| ServerAddr := ServerAddr cfg; ServerPort := v; User := User cfg;
     Protocol := Protocol cfg; Token := Token cfg; LogLevel := LogLevel cfg;
     LogFile := LogFile cfg; LogMaxDays := LogMaxDays cfg; LogWay := LogWay cfg |}.

Section Cmd.

(** [strconv.Atoi]: the number and the error, [None] for [nil]. The code
    stores the number before it looks at the error. *)
Variable Atoi : string -> Z * option string.

(** [parseClientCommonCfgFromCmd]: the global configuration after the call
    and the error. *)
Definition parseClientCommonCfgFromCmd (f : Flags) (cfg : ClientCommonConf)
  : ClientCommonConf * option string :=
  let strs := Strings.Split (serverAddr f) ":" in
  if Nat.ltb (length strs) 2 then (cfg, Some "invalid server_addr")
  else
    let cfg := if negb (String.eqb (nth 0 strs "") "") then set_ServerAddr cfg (nth 0 strs "")
               else cfg in
    let '(port, err) := Atoi (nth 1 strs "") in
    let cfg := set_ServerPort cfg port in
    match err with
    | Some _ => (cfg, Some "invalid server_addr")
    | None =>
        ({| ServerAddr := ServerAddr cfg; ServerPort := ServerPort cfg;
            User := user f; Protocol := protocol f; Token := token f;
            LogLevel := logLevel f; LogFile := logFile f; LogMaxDays := logMaxDays f;
            LogWay := if String.eqb (logFile f) "console" then "console" else "file" |},
         None)
    end.

(** A text without the byte [sep]. *)
Fixpoint free_of (sep : ascii) (s : string) : bool :=
  match s with
  | EmptyString => true
  | String c rest => negb (Ascii.eqb c sep) && free_of sep rest
  end.

Lemma Split_free_of (sep : ascii) (s : string) :
  free_of sep s = true -> Strings.Split s sep = [s].
Proof using Type.
  induction s as [|c s IH]; simpl; [done|].
  intros [Hc Hs]%andb_true_iff. apply negb_true_iff in Hc.
  rewrite Hc, (IH Hs). done.
Qed.

Lemma Split_app_sep (sep : ascii) (s rest : string) :
  free_of sep s = true ->
  Strings.Split (s ++ String sep rest) sep = s :: Strings.Split rest sep.
Proof using Type.
  induction s as [|c s IH]; simpl.
  - intros _. by rewrite Ascii.eqb_refl.
  - intros [Hc Hs]%andb_true_iff. apply negb_true_iff in Hc.
    rewrite Hc, (IH Hs). done.
Qed.

Lemma Split_cons (sep : ascii) (s : string) :
  exists first rest, Strings.Split s sep = first :: rest.
Proof using Type.
  induction s as [|c s (first & rest & IH)]; simpl; [by eauto|].
  destruct (Ascii.eqb c sep); [by eauto|]. rewrite IH. eauto.
Qed.

(** What [parseClientCommonCfgFromCmd] takes of [server_addr]: the text
    [host] before the first colon and the text [port] between the first
    and the second colon, or up to the end; what follows a second colon is
    not read. Without a colon the call fails and changes nothing. With one,
    a [host] that is not empty replaces the server address, the number that
    [Atoi] gives for [port] is stored as the server port, and the call
    fails exactly when [Atoi] does; then the address and the port are
    changed all the same and nothing else is. When it succeeds the user,
    protocol, token and log fields are those of the flags, and the log way
    is [console] for the log file [console] and [file] otherwise. *)
Theorem parseClientCommonCfgFromCmd_server_addr (f : Flags) (cfg : ClientCommonConf) :
  (free_of ":" (serverAddr f) = true ->
   parseClientCommonCfgFromCmd f cfg = (cfg, Some "invalid server_addr")) /\
  (forall host port tail,
      free_of ":" host = true -> free_of ":" port = true ->
      serverAddr f = host ++ ":" ++ port ++ tail ->
      tail = "" \/ (exists rest, tail = String ":" rest) ->
      let cfg' := (parseClientCommonCfgFromCmd f cfg).1 in
      let err := (parseClientCommonCfgFromCmd f cfg).2 in
      ServerAddr cfg' = (if String.eqb host "" then ServerAddr cfg else host) /\
      ServerPort cfg' = (Atoi port).1 /\
      (err = None <-> (Atoi port).2 = None) /\
      (err <> None ->
       err = Some "invalid server_addr" /\
       cfg' = set_ServerPort
                (if String.eqb host "" then cfg else set_ServerAddr cfg host)
                (Atoi port).1) /\
      (err = None ->
       User cfg' = user f /\ Protocol cfg' = protocol f /\ Token cfg' = token f /\
       LogLevel cfg' = logLevel f /\ LogFile cfg' = logFile f /\
       LogMaxDays cfg' = logMaxDays f /\
       (logFile f = "console" -> LogWay cfg' = "console") /\
       (logFile f <> "console" -> LogWay cfg' = "file"))).
Proof using Type.
  unfold parseClientCommonCfgFromCmd. split.
  - intros Hfree. by rewrite (Split_free_of _ _ Hfree).
  - intros host port tail Hhost Hport Haddr Htail. rewrite Haddr.
    change (host ++ ":" ++ port ++ tail) with (host ++ String ":" (port ++ tail)).
    rewrite (Split_app_sep _ _ _ Hhost).
    assert (Hsplit : exists more, Strings.Split (port ++ tail) ":" = port :: more).
    { destruct Htail as [->|[rest ->]].
      - exists [].
        replace (port ++ "") with port; [by apply Split_free_of|].
        clear. induction port as [|c p IH]; [done|].
        change (String c p = String c (p ++ "")). by f_equal.
      - rewrite (Split_app_sep _ _ _ Hport). eauto. }
    destruct Hsplit as [more ->]. cbn [length nth Nat.ltb Nat.leb].
    destruct (Atoi port) as [v [e|]] eqn:Hatoi; cbn [fst snd].
    + destruct (String.eqb host ""); simpl; repeat split; try done.
    + destruct (String.eqb host ""); simpl; repeat split; try done;
        try (intros ->; by rewrite String.eqb_refl);
        intros Hne; apply String.eqb_neq in Hne; by rewrite Hne.
Qed.

End Cmd.

(** *** Sample flags *)

Definition sample_Atoi (s : string) : Z * option string :=
  match Config.sample_Atoi s with
  | Some v => (v, None)
  | None => (0%Z, Some "invalid syntax")
  end.

Definition sampleFlags (serverAddr : string) : Flags :=
  {| serverAddr := serverAddr; user := "alice"; protocol := "tcp"; token := "secret";
     logLevel := "info"; logFile := "console"; logMaxDays := 3 |}.

(** The configuration before the flags are read. *)
Definition sampleConf : ClientCommonConf :=
  {| ServerAddr := "0.0.0.0"; ServerPort := 7000; User := ""; Protocol := "tcp";
     Token := ""; LogLevel := "info"; LogFile := "console"; LogMaxDays := 3;
     LogWay := "console" |}.

(** An address with a port, one without, and an address of IP version 6
    in brackets, of which the empty text between the first two colons is
    taken as the port. *)
Lemma parseClientCommonCfgFromCmd_server_addr_witness :
  parseClientCommonCfgFromCmd sample_Atoi (sampleFlags "frps.example.com") sampleConf =
    (sampleConf, Some "invalid server_addr") /\
  ServerAddr (parseClientCommonCfgFromCmd sample_Atoi
                (sampleFlags "frps.example.com:7100") sampleConf).1 = "frps.example.com" /\
  ServerPort (parseClientCommonCfgFromCmd sample_Atoi
                (sampleFlags "frps.example.com:7100") sampleConf).1 = 7100%Z /\
  (parseClientCommonCfgFromCmd sample_Atoi (sampleFlags "[::1]:7100") sampleConf).2 =
    Some "invalid server_addr".
Proof.
  split; [|split; [|split]].
  - apply (parseClientCommonCfgFromCmd_server_addr sample_Atoi
             (sampleFlags "frps.example.com") sampleConf). reflexivity.
  - apply (proj2 (parseClientCommonCfgFromCmd_server_addr sample_Atoi
                    (sampleFlags "frps.example.com:7100") sampleConf)
             "frps.example.com" "7100" ""); auto.
  - apply (proj2 (parseClientCommonCfgFromCmd_server_addr sample_Atoi
                    (sampleFlags "frps.example.com:7100") sampleConf)
             "frps.example.com" "7100" ""); auto.
  - apply (proj2 (parseClientCommonCfgFromCmd_server_addr sample_Atoi
                    (sampleFlags "[::1]:7100") sampleConf)
             "[" "" ":1]:7100"); eauto.
Defined.

End Sub.
